(** * LLMQuizMaker: the question-generation workflow

    A shallow embedding of [src/workflow/test_generation_workflow.py]
    (class [TestGenerationWorkflow]) and the properties of its
    generate / validate / should_continue loop, of the response parser
    [extract_json] and of the validator [_validate_question_data].

    Python values are modelled as they are at run time: text as [string]
    (one [ascii] per code point below 256), decoded JSON as the tree [JSON],
    exceptions as values of [Exn] carried by the result type [Res].

    Three things the workflow calls are not part of its source and are
    parameters of the model: the decoder [json.loads], the model behind
    [generate_content], and the number of node runs the graph engine
    allows before it raises. *)

From Stdlib Require Import String Ascii List ZArith Lia Bool Arith.
From Stdlib Require Import Floats.
Import ListNotations.
Open Scope string_scope.

Set Warnings "-register-all".

(* ================================================================== *)
(** ** Python's string methods, as far as the workflow calls them *)
(* ================================================================== *)

Module Str.

(** [str.isspace] on one character (the set [str.strip] and the regex
    class [\s] use): TAB..CR, FS..US and SPACE, NEL, NBSP. *)
Definition isspace (c : ascii) : bool :=
  let n := nat_of_ascii c in
  (((9 <=? n) && (n <=? 13)) || ((28 <=? n) && (n <=? 32))
   || (n =? 133) || (n =? 160))%nat.

Definition rev (s : string) : string :=
  string_of_list_ascii (List.rev (list_ascii_of_string s)).

(** Drop the leading characters that satisfy [p]. *)
Fixpoint lstrip_by (p : ascii -> bool) (s : string) : string :=
  match s with
  | String c s' => if p c then lstrip_by p s' else s
  | EmptyString => EmptyString
  end.

Definition rstrip_by (p : ascii -> bool) (s : string) : string :=
  rev (lstrip_by p (rev s)).

Definition strip_by (p : ascii -> bool) (s : string) : string :=
  rstrip_by p (lstrip_by p s).

(** [s.strip()] *)
Definition strip (s : string) : string := strip_by isspace s.

(** [s.strip(",")] and [s.rstrip(",")] *)
Definition is_comma (c : ascii) : bool := Ascii.eqb c ","%char.
Definition strip_commas (s : string) : string := strip_by is_comma s.
Definition rstrip_commas (s : string) : string := rstrip_by is_comma s.

(** [s.startswith(p)], [s.endswith(p)], [sub in s] *)
Definition startswith (p s : string) : bool := String.prefix p s.
Definition endswith (p s : string) : bool := String.prefix (rev p) (rev s).

Fixpoint contains (sub s : string) : bool :=
  String.prefix sub s
  || match s with
     | String _ s' => contains sub s'
     | EmptyString => false
     end.

(** [s[:n]] and [s[n:]] *)
Fixpoint take (n : nat) (s : string) : string :=
  match n, s with
  | S n', String c s' => String c (take n' s')
  | _, _ => EmptyString
  end.

Fixpoint drop (n : nat) (s : string) : string :=
  match n, s with
  | S n', String _ s' => drop n' s'
  | _, _ => s
  end.

(** [s[1:-1]] *)
Definition slice_1_m1 (s : string) : string :=
  string_of_list_ascii (removelast (tl (list_ascii_of_string s))).

(** [s.lower()] on code points below 256: A-Z and the Latin-1 capitals
    (0xC0-0xDE without the multiplication sign 0xD7) move up by 32. *)
Definition lower_char (c : ascii) : ascii :=
  let n := nat_of_ascii c in
  if (((65 <=? n) && (n <=? 90))
      || ((192 <=? n) && (n <=? 222) && negb (n =? 215)))%nat
  then ascii_of_nat (n + 32) else c.

Fixpoint lower (s : string) : string :=
  match s with
  | String c s' => String (lower_char c) (lower s')
  | EmptyString => EmptyString
  end.

(** Membership of a string in a list of strings ([x in ["a", "b"]]). *)
Definition mem (x : string) (l : list string) : bool :=
  existsb (String.eqb x) l.

(** In the literals of the examples an apostrophe stands for the double
    quote, which the completions are full of. *)
Definition dq_char (c : ascii) : ascii :=
  if Ascii.eqb c "'"%char then ascii_of_nat 34 else c.

Fixpoint dq (s : string) : string :=
  match s with
  | String c s' => String (dq_char c) (dq s')
  | EmptyString => EmptyString
  end.

Definition quote : string := String (ascii_of_nat 34) EmptyString.
Definition newline : string := String (ascii_of_nat 10) EmptyString.

End Str.

(* ================================================================== *)
(** ** Values and exceptions *)
(* ================================================================== *)

(** What [json.loads] returns: [None], [bool], [int], [float], [str],
    [list] and [dict] (insertion-ordered, looked up by key). *)
Inductive JSON : Type :=
| JNull
| JBool (b : bool)
| JInt (z : Z)
| JFloat (f : float)
| JStr (s : string)
| JList (l : list JSON)
| JDict (kvs : list (string * JSON)).

(** The exception classes the workflow meets; each carries [str(e)]. *)
Inductive Exn : Type :=
| JSONDecodeError (msg : string)
| ValueError (msg : string)
| TypeError (msg : string)
| AttributeError (msg : string)
| KeyError (msg : string)
| OtherException (msg : string).

Definition str_exn (e : Exn) : string :=
  match e with
  | JSONDecodeError m | ValueError m | TypeError m
  | AttributeError m | KeyError m | OtherException m => m
  end.

(** [isinstance(e, json.JSONDecodeError)] *)
Definition is_JSONDecodeError (e : Exn) : bool :=
  match e with JSONDecodeError _ => true | _ => false end.

(** A computation that returns or raises. *)
Inductive Res (A : Type) : Type :=
| Ret (a : A)
| Raise (e : Exn).
Arguments Ret {A} a.
Arguments Raise {A} e.

Definition bind {A B : Type} (m : Res A) (k : A -> Res B) : Res B :=
  match m with
  | Ret a => k a
  | Raise e => Raise e
  end.

Notation "x <- m ;; k" := (bind m (fun x => k))
  (at level 61, m at next level, right associativity).

Module Dict.

Fixpoint get (k : string) (d : list (string * JSON)) : option JSON :=
  match d with
  | [] => None
  | (k', v) :: d' => if String.eqb k k' then Some v else get k d'
  end.

Definition has (k : string) (d : list (string * JSON)) : bool :=
  match get k d with Some _ => true | None => false end.

(** [d[k] = v]: in place when the key exists, at the end otherwise. *)
Fixpoint set (k : string) (v : JSON) (d : list (string * JSON))
  : list (string * JSON) :=
  match d with
  | [] => [(k, v)]
  | (k', v') :: d' =>
      if String.eqb k k' then (k, v) :: d' else (k', v') :: set k v d'
  end.

Definition keys (d : list (string * JSON)) : list string := map fst d.

(** [set(d.keys()) == set(ks)] *)
Definition keys_are (ks : list string) (d : list (string * JSON)) : bool :=
  forallb (fun k => Str.mem k ks) (keys d)
  && forallb (fun k => Str.mem k (keys d)) ks.

End Dict.

(** Python's type name of a value, as error messages print it. *)
Definition type_name (v : JSON) : string :=
  match v with
  | JNull => "NoneType"
  | JBool _ => "bool"
  | JInt _ => "int"
  | JFloat _ => "float"
  | JStr _ => "str"
  | JList _ => "list"
  | JDict _ => "dict"
  end.

(** Truth value of an object ([not v] is its negation). *)
Definition truthy (v : JSON) : bool :=
  match v with
  | JNull => false
  | JBool b => b
  | JInt z => negb (Z.eqb z 0)
  | JFloat f => negb (PrimFloat.eqb f PrimFloat.zero)
  | JStr s => negb (String.eqb s "")
  | JList l => match l with [] => false | _ => true end
  | JDict d => match d with [] => false | _ => true end
  end.

(** [v == s] for a string [s]: only the equal [str] is equal to it. *)
Definition eq_str (v : JSON) (s : string) : bool :=
  match v with
  | JStr s' => String.eqb s' s
  | _ => false
  end.

(** [v in [s1, s2, ...]] for a list of strings. *)
Definition in_strs (v : JSON) (l : list string) : bool :=
  existsb (eq_str v) l.

(** [field in data]: key of a dict, substring of a str, element of a list;
    a [TypeError] on anything else. *)
Definition py_in (field : string) (data : JSON) : Res bool :=
  match data with
  | JDict d => Ret (Dict.has field d)
  | JStr s => Ret (Str.contains field s)
  | JList l => Ret (existsb (fun v => eq_str v field) l)
  | _ => Raise (TypeError
           ("argument of type '" ++ type_name data ++ "' is not iterable"))
  end.

(** [data[key]] for a string key. *)
Definition getitem (data : JSON) (key : string) : Res JSON :=
  match data with
  | JDict d =>
      match Dict.get key d with
      | Some v => Ret v
      | None => Raise (KeyError ("'" ++ key ++ "'"))
      end
  | JStr _ => Raise (TypeError "string indices must be integers, not 'str'")
  | JList _ =>
      Raise (TypeError "list indices must be integers or slices, not str")
  | _ => Raise (TypeError
           ("'" ++ type_name data ++ "' object is not subscriptable"))
  end.

(** [v.strip()] and [v.lower()]: methods of [str] only. *)
Definition py_strip (v : JSON) : Res string :=
  match v with
  | JStr s => Ret (Str.strip s)
  | _ => Raise (AttributeError
           ("'" ++ type_name v ++ "' object has no attribute 'strip'"))
  end.

Definition py_lower (v : JSON) : Res string :=
  match v with
  | JStr s => Ret (Str.lower s)
  | _ => Raise (AttributeError
           ("'" ++ type_name v ++ "' object has no attribute 'lower'"))
  end.

(** [all(field in data for field in fields)], left to right, stopping
    at the first [False]. *)
Fixpoint all_in (fields : list string) (data : JSON) : Res bool :=
  match fields with
  | [] => Ret true
  | f :: fs =>
      b <- py_in f data ;;
      if b then all_in fs data else Ret false
  end.

(* ================================================================== *)
(** ** The validator: [_validate_question_data] *)
(* ================================================================== *)

Definition required_fields : list string :=
  ["question"; "options"; "correct_answer"; "explanation"].

Definition option_keys : list string := ["a"; "b"; "c"; "d"].
Definition difficulty_levels : list string := ["Easy"; "Medium"; "Hard"].

(** [isinstance(v, dict) and set(v.keys()) == {"a", "b", "c", "d"}] *)
Definition is_options_dict (v : JSON) : bool :=
  match v with
  | JDict d => Dict.keys_are option_keys d
  | _ => false
  end.

(** The body of [_validate_question_data], check by check; a method
    call on a value that has no such method raises, as in Python. *)
Definition _validate_question_data (data : JSON) : Res bool :=
  all_present <- all_in required_fields data ;;
  if negb all_present then Ret false else
  (* not data["question"] or not data["question"].strip().endswith("?") *)
  q <- getitem data "question" ;;
  bad_question <-
    (if negb (truthy q) then Ret true
     else (s <- py_strip q ;; Ret (negb (Str.endswith "?" s)))) ;;
  if bad_question then Ret false else
  (* not isinstance(data["options"], dict) or set(...keys()) != {a,b,c,d} *)
  opts <- getitem data "options" ;;
  if negb (is_options_dict opts) then Ret false else
  (* data["correct_answer"] not in ["a", "b", "c", "d"] *)
  ans <- getitem data "correct_answer" ;;
  if negb (in_strs ans option_keys) then Ret false else
  (* not data["explanation"] or len(data["explanation"].strip()) < 10 *)
  ex <- getitem data "explanation" ;;
  bad_explanation <-
    (if negb (truthy ex) then Ret true
     else (s <- py_strip ex ;; Ret (String.length s <? 10)%nat)) ;;
  if bad_explanation then Ret false else
  (* "difficulty" in data and data["difficulty"] not in [Easy, Medium, Hard] *)
  has_difficulty <- py_in "difficulty" data ;;
  bad_difficulty <-
    (if has_difficulty
     then (d <- getitem data "difficulty" ;;
           Ret (negb (in_strs d difficulty_levels)))
     else Ret false) ;;
  if bad_difficulty then Ret false else
  Ret true.

(* ================================================================== *)
(** ** The response parser: [extract_json] *)
(* ================================================================== *)

Module Re.

(** The class [[a-zA-Z]]. *)
Definition is_letter (c : ascii) : bool :=
  let n := nat_of_ascii c in
  (((65 <=? n) && (n <=? 90)) || ((97 <=? n) && (n <=? 122)))%nat.

Definition fence : string := "```".

(** [re.sub] of the opening marker (three backticks at the very start
    of the text, then letters) by nothing: the fence goes, with the
    language tag that follows it. *)
Definition sub_opening_fence (text : string) : string :=
  if Str.startswith fence text
  then Str.lstrip_by is_letter (Str.drop 3 text)
  else text.

(** [re.sub] of the closing marker (three backticks, then [$]) by
    nothing: [$] is the end of the text, or the place before a newline
    that ends it. *)
Definition sub_closing_fence (text : string) : string :=
  if Str.endswith fence text
  then Str.take (String.length text - 3) text
  else if Str.endswith (fence ++ Str.newline) text
  then Str.take (String.length text - 4) text ++ Str.newline
  else text.

(** The suffix of [s] that starts at the first [c]. *)
Fixpoint from_first (c : ascii) (s : string) : option string :=
  match s with
  | EmptyString => None
  | String c' s' => if Ascii.eqb c' c then Some s else from_first c s'
  end.

(** The prefix of [s] that ends at the last [c]. *)
Definition upto_last (c : ascii) (s : string) : option string :=
  match from_first c (Str.rev s) with
  | Some r => Some (Str.rev r)
  | None => None
  end.

(** [re.search] of an opening brace, anything (newlines too, greedy), a
    closing brace: the matched text runs from the first opening brace to
    the last closing brace behind it. *)
Definition search_braces (text : string) : option string :=
  match from_first "{"%char text with
  | Some tail => upto_last "}"%char tail
  | None => None
  end.

(** The text up to the end of its first line (the dot of a pattern
    matches no newline). *)
Fixpoint rest_of_line (s : string) : string :=
  match s with
  | EmptyString => EmptyString
  | String c s' =>
      if Ascii.eqb c (ascii_of_nat 10) then EmptyString
      else String c (rest_of_line s')
  end.

(** The field pattern matched at the start of [s]: the quoted field
    name, white space, a colon, white space, and group 1, the rest of the
    line. *)
Definition match_field_at (field s : string) : option string :=
  let key := Str.quote ++ field ++ Str.quote in
  if String.prefix key s then
    match Str.lstrip_by Str.isspace (Str.drop (String.length key) s) with
    | String c r =>
        if Ascii.eqb c ":"%char
        then Some (rest_of_line (Str.lstrip_by Str.isspace r))
        else None
    | EmptyString => None
    end
  else None.

(** [re.search] of the field pattern in [text]: group 1 of the leftmost
    match. *)
Fixpoint search_field (field s : string) : option string :=
  match match_field_at field s with
  | Some g => Some g
  | None =>
      match s with
      | String _ s' => search_field field s'
      | EmptyString => None
      end
  end.

End Re.

Section Parser.

(** [json.loads], the decoder of Python's library: it returns the decoded
    value or raises (a [JSONDecodeError] on malformed text). *)
Variable json_loads : string -> Res JSON.

Definition fields : list string :=
  ["question"; "options"; "correct_answer"; "explanation"].

Definition placeholder_options : JSON :=
  JDict [("a", JStr ""); ("b", JStr ""); ("c", JStr ""); ("d", JStr "")].

(** Tier 1: the code-block markers are removed. *)
Definition strip_fences (text : string) : string :=
  let text := Str.strip (Re.sub_opening_fence text) in
  Str.strip (Re.sub_closing_fence text).

(** Tier 3: the text wrapped in braces. *)
Definition wrap_applies (text : string) : bool :=
  Str.contains (Str.quote ++ "question" ++ Str.quote) text
  && negb (Str.startswith "{" (Str.strip text)).

Definition try_str (text : string) : string :=
  "{" ++ Str.strip_commas (Str.strip text) ++ "}".

(** Tier 4, one turn of the loop over [fields]. *)
Definition extract_field (text : string) (result : list (string * JSON))
    (field : string) : list (string * JSON) :=
  match Re.search_field field text with
  | Some g =>
      let value := Str.rstrip_commas (Str.strip g) in
      if String.eqb field "options" then
        match json_loads value with
        | Ret v => Dict.set field v result
        | Raise _ => Dict.set field placeholder_options result
        end
      else
        let value :=
          if Str.startswith Str.quote value && Str.endswith Str.quote value
          then Str.slice_1_m1 value else value in
        Dict.set field (JStr value) result
  | None => result
  end.

Definition line_by_line (text : string) : list (string * JSON) :=
  fold_left (extract_field text) fields [].

Definition parse_failure (text : string) : string :=
  "Failed to parse LLM response after all attempts. Raw response: "
  ++ Str.take 200 text ++ "...".

(** [extract_json(text)], the function nested in
    [generate_single_question]. *)
Definition extract_json (text : string) : Res JSON :=
  let text := strip_fences text in
  match Re.search_braces text with
  | Some json_str => json_loads json_str
  | None =>
      if wrap_applies text then
        (* the handler logs and re-raises *)
        json_loads (try_str text)
      else
        let result := line_by_line text in
        if Dict.keys_are fields result then Ret (JDict result)
        else
          match json_loads text with
          | Ret v => Ret v
          | Raise _ => Raise (ValueError (parse_failure text))
          end
  end.

End Parser.

(* ================================================================== *)
(** ** A JSON decoder to run the parser with *)
(* ================================================================== *)

(** [extract_json] is stated over any decoder. To run it on a given
    completion the parameter is instantiated with [Json.loads] below: the
    grammar of Python's [json] module (objects, arrays, strings with their
    escapes, integers, [true], [false], [null], strict control characters,
    no trailing commas, the last of repeated keys wins) on texts whose
    code points stay below 256. A number with a fraction or an exponent
    and the constants [NaN] and [Infinity] are outside this decoder (it
    raises on them, where Python returns a float); messages are the
    library's without the position. *)
Module Json.

Definition is_ws (c : ascii) : bool :=
  let n := nat_of_ascii c in
  ((n =? 32) || (n =? 9) || (n =? 10) || (n =? 13))%nat.

Definition skip_ws (s : string) : string := Str.lstrip_by is_ws s.

Definition is_digit (c : ascii) : bool :=
  let n := nat_of_ascii c in ((48 <=? n) && (n <=? 57))%nat.

Definition digit_val (c : ascii) : Z := Z.of_nat (nat_of_ascii c) - 48.

Definition hex_val (c : ascii) : option nat :=
  let n := nat_of_ascii c in
  if ((48 <=? n) && (n <=? 57))%nat then Some (n - 48)
  else if ((65 <=? n) && (n <=? 70))%nat then Some (n - 55)
  else if ((97 <=? n) && (n <=? 102))%nat then Some (n - 87)
  else None.

Definition unsupported {A : Type} : Res A :=
  Raise (OtherException "outside the decoder's fragment").

Definition malformed {A : Type} (msg : string) : Res A :=
  Raise (JSONDecodeError msg).

(** The character a one-letter escape stands for. *)
Definition escape (c : ascii) : option ascii :=
  let n := nat_of_ascii c in
  if (n =? 34)%nat then Some c                    (* quote *)
  else if (n =? 92)%nat then Some c               (* backslash *)
  else if (n =? 47)%nat then Some c               (* slash *)
  else if (n =? 98)%nat then Some (ascii_of_nat 8)
  else if (n =? 102)%nat then Some (ascii_of_nat 12)
  else if (n =? 110)%nat then Some (ascii_of_nat 10)
  else if (n =? 114)%nat then Some (ascii_of_nat 13)
  else if (n =? 116)%nat then Some (ascii_of_nat 9)
  else None.

Definition cons_char (c : ascii) (r : Res (string * string))
  : Res (string * string) :=
  p <- r ;; Ret (String c (fst p), snd p).

(** The body of a string, from behind its opening quote: the decoded
    text and what follows the closing quote. *)
Fixpoint scanstring (s : string) : Res (string * string) :=
  match s with
  | EmptyString => malformed "Unterminated string starting at"
  | String c s' =>
      if (nat_of_ascii c =? 34)%nat then Ret (EmptyString, s')
      else if (nat_of_ascii c =? 92)%nat then
        match s' with
        | EmptyString => malformed "Unterminated string starting at"
        | String e s'' =>
            match escape e with
            | Some ch => cons_char ch (scanstring s'')
            | None =>
                if (nat_of_ascii e =? 117)%nat then
                  match s'' with
                  | String h1 (String h2 (String h3 (String h4 r))) =>
                      match hex_val h1, hex_val h2, hex_val h3, hex_val h4 with
                      | Some a, Some b, Some c', Some d =>
                          if ((a =? 0) && (b =? 0))%nat
                          then cons_char (ascii_of_nat (16 * c' + d))
                                         (scanstring r)
                          else unsupported
                      | _, _, _, _ => malformed "Invalid \uXXXX escape"
                      end
                  | _ => malformed "Invalid \uXXXX escape"
                  end
                else malformed "Invalid \escape"
            end
        end
      else if (nat_of_ascii c <? 32)%nat
      then malformed "Invalid control character at"
      else cons_char c (scanstring s')
  end.

(** The digits at the head of [s], as a number, and the rest. *)
Fixpoint digits (acc : Z) (s : string) : Z * string :=
  match s with
  | String c s' =>
      if is_digit c then digits (10 * acc + digit_val c) s' else (acc, s)
  | EmptyString => (acc, s)
  end.

Definition starts_fraction (s : string) : bool :=
  match s with
  | String c (String d _) =>
      (Ascii.eqb c "."%char && is_digit d)
  | _ => false
  end.

Definition starts_exponent (s : string) : bool :=
  match s with
  | String c (String d r) =>
      (Ascii.eqb c "e"%char || Ascii.eqb c "E"%char)
      && (is_digit d
          || ((Ascii.eqb d "+"%char || Ascii.eqb d "-"%char)
              && match r with String d' _ => is_digit d' | _ => false end))
  | _ => false
  end.

(** An integer literal: [0], or a digit from 1 to 9 and more digits. *)
Definition natural (s : string) : Res (Z * string) :=
  match s with
  | String c s' =>
      if Ascii.eqb c "0"%char then Ret (0%Z, s')
      else if is_digit c then Ret (digits 0 s)
      else malformed "Expecting value"
  | EmptyString => malformed "Expecting value"
  end.

Definition number (s : string) : Res (JSON * string) :=
  p <- (match s with
        | String c s' =>
            if Ascii.eqb c "-"%char
            then (q <- natural s' ;; Ret (Z.opp (fst q), snd q))
            else natural s
        | EmptyString => malformed "Expecting value"
        end) ;;
  if starts_fraction (snd p) || starts_exponent (snd p) then unsupported
  else Ret (JInt (fst p), snd p).

Definition literal (word : string) (v : JSON) (s : string)
  : option (JSON * string) :=
  if String.prefix word s then Some (v, Str.drop (String.length word) s)
  else None.

Definition constant (s : string) : Res (JSON * string) :=
  match literal "null" JNull s with
  | Some r => Ret r
  | None =>
  match literal "true" (JBool true) s with
  | Some r => Ret r
  | None =>
  match literal "false" (JBool false) s with
  | Some r => Ret r
  | None =>
      if String.prefix "NaN" s || String.prefix "Infinity" s
         || String.prefix "-Infinity" s
      then unsupported else number s
  end end end.

(** [value] decodes one value at the head of [s]; [members] the pairs of
    an object from its first key on; [elements] the items of an array. *)
Fixpoint value (fuel : nat) (s : string) : Res (JSON * string) :=
  match fuel with
  | O => unsupported
  | S fuel' =>
      match s with
      | EmptyString => malformed "Expecting value"
      | String c r =>
          if (nat_of_ascii c =? 34)%nat then
            p <- scanstring r ;; Ret (JStr (fst p), snd p)
          else if Ascii.eqb c "{"%char then
            match skip_ws r with
            | String c' r' =>
                if Ascii.eqb c' "}"%char then Ret (JDict [], r')
                else members fuel' [] (skip_ws r)
            | EmptyString =>
                malformed
                  "Expecting property name enclosed in double quotes"
            end
          else if Ascii.eqb c "["%char then
            match skip_ws r with
            | String c' r' =>
                if Ascii.eqb c' "]"%char then Ret (JList [], r')
                else elements fuel' [] (skip_ws r)
            | EmptyString => malformed "Expecting value"
            end
          else constant s
      end
  end
with members (fuel : nat) (acc : list (string * JSON)) (s : string)
  : Res (JSON * string) :=
  match fuel with
  | O => unsupported
  | S fuel' =>
      match s with
      | String q r =>
          if (nat_of_ascii q =? 34)%nat then
            k <- scanstring r ;;
            match skip_ws (snd k) with
            | String c r1 =>
                if Ascii.eqb c ":"%char then
                  v <- value fuel' (skip_ws r1) ;;
                  let acc' := Dict.set (fst k) (fst v) acc in
                  match skip_ws (snd v) with
                  | String c' r2 =>
                      if Ascii.eqb c' "}"%char then Ret (JDict acc', r2)
                      else if Ascii.eqb c' ","%char
                      then members fuel' acc' (skip_ws r2)
                      else malformed "Expecting ',' delimiter"
                  | EmptyString => malformed "Expecting ',' delimiter"
                  end
                else malformed "Expecting ':' delimiter"
            | EmptyString => malformed "Expecting ':' delimiter"
            end
          else malformed "Expecting property name enclosed in double quotes"
      | EmptyString =>
          malformed "Expecting property name enclosed in double quotes"
      end
  end
with elements (fuel : nat) (acc : list JSON) (s : string)
  : Res (JSON * string) :=
  match fuel with
  | O => unsupported
  | S fuel' =>
      v <- value fuel' s ;;
      let acc' := (acc ++ [fst v])%list in
      match skip_ws (snd v) with
      | String c r =>
          if Ascii.eqb c "]"%char then Ret (JList acc', r)
          else if Ascii.eqb c ","%char then elements fuel' acc' (skip_ws r)
          else malformed "Expecting ',' delimiter"
      | EmptyString => malformed "Expecting ',' delimiter"
      end
  end.

(** [json.loads(s)]: one value, white space around it, nothing else. *)
Definition loads (s : string) : Res JSON :=
  p <- value (2 * String.length s + 2) (skip_ws s) ;;
  match skip_ws (snd p) with
  | EmptyString => Ret (fst p)
  | String _ _ => malformed "Extra data"
  end.

End Json.


(* ================================================================== *)
(** ** The workflow state *)
(* ================================================================== *)

(** The dictionaries [generate_single_question] builds for an accepted
    candidate: the values are taken over from the decoded completion as
    they are. *)
Record AnswerDict : Type := mkAnswer {
  answer : JSON;
  explanation : JSON
}.

Record Question : Type := mkQuestion {
  question : JSON;
  options : JSON;
  answer_dict : AnswerDict
}.

(** The list behind [state["errors"]]. Python lists are objects:
    [state["errors"].append(x)] changes the object the key is bound to,
    [state["errors"] = []] binds the key of the node's dictionary to a new
    object and leaves the old one as it was. [generate_test] drops what
    [ainvoke] returns and reads the lists out of the dictionary it built
    itself: it sees what the nodes did to the objects it created, not what
    they bound anew. So two objects matter: [caller_list], the list
    [generate_test] made, and [rebound], the list the key was bound to
    last ([None] while the key still holds the caller's list). The
    accepted questions are only ever appended to, in the one list
    [generate_test] made. *)
Record ErrorLog : Type := mkLog {
  caller_list : list string;
  rebound : option (list string)
}.

(** The contents of [state["errors"]]. *)
Definition contents (l : ErrorLog) : list string :=
  match rebound l with
  | Some e => e
  | None => caller_list l
  end.

(** [state["errors"].append(x)] *)
Definition append (x : string) (l : ErrorLog) : ErrorLog :=
  match rebound l with
  | Some e => mkLog (caller_list l) (Some (e ++ [x])%list)
  | None => mkLog (caller_list l ++ [x])%list None
  end.

(** [state["errors"] = []] *)
Definition rebind_empty (l : ErrorLog) : ErrorLog :=
  mkLog (caller_list l) (Some []).

Record WorkflowState : Type := mkState {
  technology : string;
  difficulty : string;
  questions : list Question;
  errors : ErrorLog;
  num_questions : Z;
  current_question : option Question
}.

Definition with_errors (e : ErrorLog) (s : WorkflowState) : WorkflowState :=
  mkState (technology s) (difficulty s) (questions s) e
          (num_questions s) (current_question s).

Definition with_current (q : option Question) (s : WorkflowState)
  : WorkflowState :=
  mkState (technology s) (difficulty s) (questions s) (errors s)
          (num_questions s) q.

Definition with_questions (qs : list Question) (s : WorkflowState)
  : WorkflowState :=
  mkState (technology s) (difficulty s) qs (errors s)
          (num_questions s) (current_question s).

(** [state["errors"].append(x)] on the state. *)
Definition log_error (x : string) (s : WorkflowState) : WorkflowState :=
  with_errors (append x (errors s)) s.

(* ================================================================== *)
(** ** The prompt *)
(* ================================================================== *)

(** [self.prompt_template.format(technology=..., difficulty=...)]: the
    doubled braces of the template are single ones in the result. *)
Definition format_prompt (technology difficulty : string) : string :=
  let nl := Str.newline in
  "You are an expert technical interviewer specializing in " ++ technology
  ++ ". Generate a multiple choice question at " ++ difficulty
  ++ " level difficulty." ++ nl ++ nl
  ++ "Requirements:" ++ nl
  ++ "- Question should be clear, concise, and end with a question mark" ++ nl
  ++ Str.dq "- Provide exactly 4 options, as a dictionary with keys a, b, c, d (e.g., {'a': 'option a', ...})" ++ nl
  ++ "- The question should be challenging but appropriate for " ++ difficulty
  ++ " level" ++ nl
  ++ "- Include a brief explanation for the correct answer" ++ nl
  ++ "IMPORTANT: Respond ONLY with a single valid JSON object, with no markdown, no explanation, and no extra text. Your response MUST start with '{' and end with '}'. Do not include any introductory or trailing text." ++ nl
  ++ "Format the response as JSON:" ++ nl
  ++ "{" ++ nl
  ++ Str.dq "    'question': 'Your question here?'," ++ nl
  ++ Str.dq "    'options': {'a': 'option a', 'b': 'option b', 'c': 'option c', 'd': 'option d'}," ++ nl
  ++ Str.dq "    'correct_answer': 'a'," ++ nl
  ++ Str.dq "    'explanation': 'Brief explanation of why this is correct'" ++ nl
  ++ "}" ++ nl ++ nl
  ++ "Focus on " ++ technology
  ++ " concepts, best practices, and common scenarios." ++ nl
  ++ "Use one of the following difficulty levels: Easy, Medium, Hard.".

(* ================================================================== *)
(** ** The nodes of the graph and its run *)
(* ================================================================== *)

Inductive Route : Type :=
| END
| to_generate.   (* the string "generate" *)

Inductive Node : Type :=
| generate
| validate.

(** A point of the run: the node that runs next, the number of calls made
    to the model so far, and the state. *)
Record Config : Type := mkConfig {
  node : Node;
  calls : nat;
  state : WorkflowState
}.

Inductive StepResult : Type :=
| Next (c : Config)
| Stop (calls : nat) (s : WorkflowState)
| Crash (e : Exn) (calls : nat) (s : WorkflowState).

(** How [workflow.ainvoke] ends: the graph reached [END], or an exception
    left it (a node raised, or the engine gave up at its step limit). *)
Inductive Outcome : Type :=
| Finished (calls : nat) (s : WorkflowState)
| Failed (e : Exn) (calls : nat) (s : WorkflowState).

(** What [generate_test] returns. *)
Record TestResult : Type := mkResult {
  result_questions : list Question;
  result_errors : list string;
  result_technology : string;
  result_difficulty : string;
  total_questions : nat
}.

Definition GraphRecursionError : Exn :=
  OtherException "Recursion limit reached without hitting a stop condition".

Section Workflow.

Variable json_loads : string -> Res JSON.

(** The model behind [genai.GenerativeModel(...).generate_content]: what
    the [k]-th call of a run answers to a prompt, the text of the response
    or the exception the call (or reading [response.text]) raises. *)
Variable llm : nat -> string -> Res string.

(** The dictionary [formatted_question]. *)
Definition format_question (question_data : JSON) : Res Question :=
  q <- getitem question_data "question" ;;
  o <- getitem question_data "options" ;;
  a <- getitem question_data "correct_answer" ;;
  e <- getitem question_data "explanation" ;;
  Ret (mkQuestion q o (mkAnswer a e)).

(** The inner [try] block up to the point where the state is written:
    the candidate, [None] for a candidate the validator turns down. *)
Definition parse_and_validate (text : string) : Res (option Question) :=
  question_data <- extract_json json_loads text ;;
  valid <- _validate_question_data question_data ;;
  if valid
  then (q <- format_question question_data ;; Ret (Some q))
  else Ret None.

(** [generate_single_question(state)] with [model] the call of this step. *)
Definition generate_single_question (model : string -> Res string)
    (state : WorkflowState) : WorkflowState :=
  let prompt := format_prompt (technology state) (difficulty state) in
  match model prompt with
  | Raise e =>
      with_current None
        (log_error ("Error generating question: " ++ str_exn e) state)
  | Ret response_text =>
      let text := Str.strip response_text in
      match parse_and_validate text with
      | Ret (Some formatted_question) =>
          with_errors (rebind_empty (errors state))
            (with_current (Some formatted_question) state)
      | Ret None =>
          with_current None
            (log_error "Invalid question format received from LLM" state)
      | Raise e =>
          if is_JSONDecodeError e then
            with_current None
              (log_error ("Failed to parse LLM response as JSON: "
                          ++ str_exn e ++ ". Raw response: " ++ text) state)
          else
            with_current None
              (log_error ("Unexpected error during JSON extraction: "
                          ++ str_exn e ++ ". Raw response: " ++ text) state)
      end
  end.

(** [any(q["question"].lower() == current_question["question"].lower()
    for q in state["questions"])] *)
Fixpoint is_duplicate (current_question : Question) (qs : list Question)
  : Res bool :=
  match qs with
  | [] => Ret false
  | q :: qs' =>
      l <- py_lower (question q) ;;
      r <- py_lower (question current_question) ;;
      if String.eqb l r then Ret true
      else is_duplicate current_question qs'
  end.

(** [validate_and_add_question(state)] *)
Definition validate_and_add_question (state : WorkflowState)
  : Res WorkflowState :=
  match current_question state with
  | Some cq =>
      dup <- is_duplicate cq (questions state) ;;
      if dup
      then Ret (with_current None
                  (log_error "Duplicate question detected" state))
      else Ret (with_current None
                  (with_questions (questions state ++ [cq])%list state))
  | None => Ret (log_error "No valid question to add" state)
  end.

(** [should_continue(state)] *)
Definition should_continue (state : WorkflowState) : Route :=
  if (num_questions state <=? Z.of_nat (length (questions state)))%Z
  then END
  else if (5 <? length (contents (errors state)))%nat then END
  else to_generate.

(** One node of the graph [create_workflow] builds: [generate] is the
    entry point and is followed by [validate]; behind [validate] the
    conditional edge asks [should_continue]. *)
Definition step (c : Config) : StepResult :=
  match node c with
  | generate =>
      Next (mkConfig validate (S (calls c))
              (generate_single_question (llm (calls c)) (state c)))
  | validate =>
      match validate_and_add_question (state c) with
      | Raise e => Crash e (calls c) (state c)
      | Ret state' =>
          match should_continue state' with
          | END => Stop (calls c) state'
          | to_generate => Next (mkConfig generate (calls c) state')
          end
      end
  end.

(** The run of the compiled graph: the nodes run one after the other
    until the conditional edge leads to [END]. The engine is a library;
    of it the model keeps that it gives up with an exception when the
    graph has not ended within the node runs it allows ([limit], its
    recursion limit). *)
Fixpoint run (limit : nat) (c : Config) : Outcome :=
  match limit with
  | O => Failed GraphRecursionError (calls c) (state c)
  | S limit' =>
      match step c with
      | Next c' => run limit' c'
      | Stop k s => Finished k s
      | Crash e k s => Failed e k s
      end
  end.

Definition initial_state (technology difficulty : string)
    (num_questions : Z) : WorkflowState :=
  mkState technology difficulty [] (mkLog [] None) num_questions None.

Definition initial_config (technology difficulty : string)
    (num_questions : Z) : Config :=
  mkConfig generate 0 (initial_state technology difficulty num_questions).

Definition ainvoke (limit : nat) (state : WorkflowState) : Outcome :=
  run limit (mkConfig generate 0 state).

(** [generate_test(technology, difficulty, num_questions)]: the lists
    returned are the ones created here, as the nodes left them. *)
Definition generate_test (limit : nat) (technology difficulty : string)
    (num_questions : Z) : TestResult :=
  let state := initial_state technology difficulty num_questions in
  match ainvoke limit state with
  | Finished _ s =>
      mkResult (questions s) (caller_list (errors s))
               technology difficulty (length (questions s))
  | Failed e _ s =>
      mkResult (questions s)
               (caller_list (errors s)
                ++ [("Workflow execution error: " ++ str_exn e)%string])%list
               technology difficulty (length (questions s))
  end.

(** The configurations a run passes through. *)
Inductive reachable (c0 : Config) : Config -> Prop :=
| reach_start : reachable c0 c0
| reach_step : forall c c',
    reachable c0 c -> step c = Next c' -> reachable c0 c'.

End Workflow.

(* ================================================================== *)
(** ** Notions the properties are stated with *)
(* ================================================================== *)

Definition final_state (o : Outcome) : WorkflowState :=
  match o with
  | Finished _ s => s
  | Failed _ _ s => s
  end.

Definition calls_made (o : Outcome) : nat :=
  match o with
  | Finished k _ => k
  | Failed _ k _ => k
  end.

(** What the generate step makes of one call of the model: the candidate
    it would store, [None] for a candidate the validator turns down, or
    the exception of the call, the parser or the validator. *)
Definition candidate_of (json_loads : string -> Res JSON)
    (model : string -> Res string) (technology difficulty : string)
  : Res (option Question) :=
  text <- model (format_prompt technology difficulty) ;;
  parse_and_validate json_loads (Str.strip text).

(** The text two questions are compared by in [validate_and_add_question]. *)
Definition lowered (q : Question) : option string :=
  match question q with
  | JStr s => Some (Str.lower s)
  | _ => None
  end.

(** What the validator has checked of an accepted question. *)
Definition accepted_shape (q : Question) : Prop :=
  (exists s, question q = JStr s /\ Str.endswith "?" (Str.strip s) = true)
  /\ (exists o, options q = JDict o
                /\ forall k, In k (Dict.keys o) <-> In k option_keys)
  /\ (exists a, answer (answer_dict q) = JStr a /\ In a option_keys)
  /\ (exists e, explanation (answer_dict q) = JStr e
                /\ (10 <= String.length (Str.strip e))%nat).

(** The option texts of a question, when its options are a mapping. *)
Definition option_texts (q : Question) : list JSON :=
  match options q with
  | JDict o => map snd o
  | _ => []
  end.

(** The entries the generate step logs for a completion it could not
    parse. *)
Definition is_parse_error (entry : string) : bool :=
  String.prefix "Failed to parse LLM response as JSON: " entry
  || String.prefix "Unexpected error during JSON extraction: " entry.

Definition no_candidate_entry : string := "No valid question to add".

(** The entry the generate step logs for an exception [e] of the parser
    or the validator on the completion [text]: the message and, behind it,
    the whole completion. *)
Definition parse_error_entry (e : Exn) (text : string) : string :=
  if is_JSONDecodeError e
  then "Failed to parse LLM response as JSON: "
       ++ str_exn e ++ ". Raw response: " ++ text
  else "Unexpected error during JSON extraction: "
       ++ str_exn e ++ ". Raw response: " ++ text.

(** The entry the generate step logs when a call leaves it without a
    candidate. *)
Definition failure_entry (json_loads : string -> Res JSON)
    (model : string -> Res string) (technology difficulty : string)
  : string :=
  match model (format_prompt technology difficulty) with
  | Raise e => "Error generating question: " ++ str_exn e
  | Ret response_text =>
      let text := Str.strip response_text in
      match parse_and_validate json_loads text with
      | Raise e => parse_error_entry e text
      | Ret _ => "Invalid question format received from LLM"
      end
  end.

(** The number of accepted questions whose compared text is [t]. *)
Definition has_text (t : string) (q : Question) : bool :=
  match lowered q with
  | Some t' => String.eqb t' t
  | None => false
  end.

(** Stubs of the model for the examples: one that answers every call
    with the same text, and one that replays a list of completions and
    answers [garbage] behind its end. *)
Definition always (text : string) : nat -> string -> Res string :=
  fun _ _ => Ret text.

Definition replay (texts : list string) : nat -> string -> Res string :=
  fun k _ => Ret (nth k texts "garbage").

(** A well-formed completion with the question [q]. *)
Definition mcq (q : string) : string :=
  Str.dq ("{'question': '" ++ q
          ++ "', 'options': {'a': 'x', 'b': 'y', 'c': 'z', 'd': 'w'}, "
          ++ "'correct_answer': 'a', 'explanation': 'Because it is.'}").

(** The question the generate step makes of [mcq q]. *)
Definition mcq_question (q : string) : Question :=
  mkQuestion (JStr q)
    (JDict [("a", JStr "x"); ("b", JStr "y"); ("c", JStr "z"); ("d", JStr "w")])
    (mkAnswer (JStr "a") (JStr "Because it is.")).

(** A completion whose object is not closed: four lines the line-by-line
    tier reads, with options that are no JSON. *)
Definition unclosed : string := Str.dq
"{'question': 'What is X?',
'options': none,
'correct_answer': 'a',
'explanation': 'Because it is so.'".

(** A completion whose inner object is closed and whose outer one is not. *)
Definition half_closed : string := Str.dq
"{'question': 'What is X?',
'options': {'a': '1', 'b': '2', 'c': '3', 'd': '4'},
'correct_answer': 'a',
'explanation': 'Because it is so.'".

(** A model whose first call fails, whose second completion is no JSON
    and whose later ones lack three of the four keys. *)
Definition failing : nat -> string -> Res string :=
  fun k _ =>
    match k with
    | 0 => Raise (OtherException "deadline exceeded")
    | 1 => Ret "garbage"
    | _ => Ret (Str.dq "{'question': 'What is X?'}")
    end.

(** The state behind a cycle that produced no candidate. *)
Definition failed (entry : string) (st : WorkflowState) : WorkflowState :=
  log_error no_candidate_entry (with_current None (log_error entry st)).

(** The candidates of the specification's boundary cases. *)
Definition candidate (opts : list (string * JSON)) (correct expl : string)
  : JSON :=
  JDict [("question", JStr "What is X?"); ("options", JDict opts);
         ("correct_answer", JStr correct); ("explanation", JStr expl)].

Definition four_options : list (string * JSON) :=
  [("a", JStr "1"); ("b", JStr "2"); ("c", JStr "3"); ("d", JStr "4")].

(* ================================================================== *)
(** ** What a run keeps *)
(* ================================================================== *)

Section Invariants.

Variable json_loads : string -> Res JSON.
Variable llm : nat -> string -> Res string.
Variables (tech diff : string) (n : Z).

(** A question that one of the calls of the run produced. *)
Definition from_model (q : Question) : Prop :=
  exists k, candidate_of json_loads (llm k) tech diff = Ret (Some q).

(** What holds of the state wherever the run stands: the request is
    untouched, every accepted question was produced by a call and no two
    of them are compared equal. *)
Record StateInv (s : WorkflowState) : Prop := mkStateInv {
  sinv_tech : technology s = tech;
  sinv_diff : difficulty s = diff;
  sinv_num : num_questions s = n;
  sinv_from : Forall from_model (questions s);
  sinv_nodup : NoDup (map lowered (questions s))
}.

(** What holds in front of each node: in front of [generate] no
    candidate is pending, the budget is not used up and the target is not
    reached (or nothing is accepted yet); in front of [validate] at most
    one more entry is logged and a pending candidate is well shaped. *)
Record Inv (c : Config) : Prop := mkInv {
  inv_state : StateInv (state c);
  inv_cur : match node c with
            | generate => current_question (state c) = None
            | validate => forall q, current_question (state c) = Some q ->
                                    from_model q
            end;
  inv_errs : match node c with
             | generate => (length (contents (errors (state c))) <= 5)%nat
             | validate => (length (contents (errors (state c))) <= 6)%nat
             end;
  inv_len : questions (state c) = []
            \/ (Z.of_nat (length (questions (state c))) < n)%Z
}.

(** How a run ends: the state it leaves, and what the last node saw. *)
Definition ends_well (o : Outcome) : Prop :=
  StateInv (final_state o)
  /\ (length (contents (errors (final_state o))) <= 7)%nat
  /\ (1 <= n -> Z.of_nat (length (questions (final_state o))) <= n)%Z
  /\ match o with
     | Finished _ s => should_continue s = END
     | Failed e _ _ => e = GraphRecursionError
     end.

End Invariants.

(* ================================================================== *)
(** ** The run, call by call *)
(* ================================================================== *)

(** The test of [validate_and_add_question] on one accepted question:
    the lower-cased texts are equal. *)
Definition same_text (cq q : Question) : bool :=
  match lowered q, lowered cq with
  | Some a, Some b => String.eqb a b
  | _, _ => false
  end.

(** What one cycle makes of the accepted list: the candidate of its call
    is put behind it unless an accepted question has its text. *)
Definition keep (acc : list Question) (r : Res (option Question))
  : list Question :=
  match r with
  | Ret (Some q) =>
      if existsb (same_text q) acc then acc else (acc ++ [q])%list
  | _ => acc
  end.

Definition is_candidate (r : Res (option Question)) : bool :=
  match r with
  | Ret (Some _) => true
  | _ => false
  end.

Section History.

Variable json_loads : string -> Res JSON.
Variable llm : nat -> string -> Res string.
Variables (tech diff : string).

(** The accepted list behind the first [k] calls. *)
Fixpoint kept (k : nat) : list Question :=
  match k with
  | O => []
  | S k' => keep (kept k') (candidate_of json_loads (llm k') tech diff)
  end.

(** None of the first [k] calls produced a candidate. *)
Fixpoint unstored (k : nat) : bool :=
  match k with
  | O => true
  | S k' =>
      unstored k'
      && negb (is_candidate (candidate_of json_loads (llm k') tech diff))
  end.

(** The entries of the failed cycles in front of the first stored
    candidate, among the first [k] cycles. *)
Fixpoint reported (k : nat) : list string :=
  match k with
  | O => []
  | S k' =>
      (reported k'
       ++ (if unstored (S k')
           then [failure_entry json_loads (llm k') tech diff;
                 no_candidate_entry]
           else []))%list
  end.

(** What the state in front of the [k]-th call has kept of the calls
    before it. *)
Record History (k : nat) (s : WorkflowState) : Prop := mkHistory {
  hist_kept : questions s = kept k;
  hist_reported : caller_list (errors s) = reported k;
  hist_rebound : rebound (errors s) = None <-> unstored k = true
}.

End History.

(** A model that reads its prompt: it answers the prompt of a Python
    test at the level Easy and fails on any other. *)
Definition python_only (text : string) : nat -> string -> Res string :=
  fun _ prompt =>
    if String.eqb prompt (format_prompt "Python" "Easy") then Ret text
    else Raise (OtherException "unknown prompt").

(** The characters of a text. *)
Definition chars (s : string) : list ascii := list_ascii_of_string s.

(** A text that has an opening brace and a closing brace behind it. *)
Definition has_braces (s : string) : Prop :=
  exists a b c, chars s = (a ++ "{"%char :: b ++ "}"%char :: c)%list.

(** [s] is a piece of [t]: some characters of [t], one after the other. *)
Definition piece (s t : string) : Prop :=
  exists a b, chars t = (a ++ chars s ++ b)%list.

(** A completion in a code block: the opening marker with its language
    tag, the body on lines of its own, the closing marker. *)
Definition fenced (tag body : string) : string :=
  Re.fence ++ tag ++ Str.newline ++ body ++ Str.newline ++ Re.fence.

(* ================================================================== *)
(** ** The callers: [generate_test_sync] and the service *)
(* ================================================================== *)

(** [generate_test_sync]: [asyncio.run] of [generate_test]. *)
Definition generate_test_sync (json_loads : string -> Res JSON)
    (llm : nat -> string -> Res string) (limit : nat)
    (technology difficulty : string) (num_questions : Z) : TestResult :=
  generate_test json_loads llm limit technology difficulty num_questions.

(** The dictionary under the key [answer] of an accepted question. *)
Definition answer_json (a : AnswerDict) : JSON :=
  JDict [("answer", answer a); ("explanation", explanation a)].

Module Service.

(** The request of [TestGenerationService.generate_test]: a dictionary
    whose keys may be missing; the values are text and a number, as the
    form of the page sends them. *)
Record Params : Type := mkParams {
  param_technology : option string;
  param_difficulty : option string;
  param_num_questions : option Z
}.

(** [params.get(key, default)] *)
Definition get {A : Type} (v : option A) (default : A) : A :=
  match v with
  | Some a => a
  | None => default
  end.

(** The dictionary the service makes of the [i]-th question. *)
Definition test (id : string) (i : nat) (q : Question)
    (technology difficulty : string) : JSON :=
  JDict [("id", JStr id);
         ("question_number", JInt (Z.of_nat i));
         ("question", question q);
         ("options", options q);
         ("answer", answer_json (answer_dict q));
         ("technology", JStr technology);
         ("difficulty", JStr difficulty)].

Section Service.

Variable json_loads : string -> Res JSON.
Variable llm : nat -> string -> Res string.
Variable limit : nat.

(** [str(uuid.uuid4())]: the identifier of the [k]-th draw. *)
Variable uuid4 : nat -> string.

(** The loop [for i, q in enumerate(questions, 1)], from the number [i]
    on; [drawn] identifiers were drawn before. *)
Fixpoint tests_from (i drawn : nat) (questions : list Question)
    (technology difficulty : string) : list JSON :=
  match questions with
  | [] => []
  | q :: questions' =>
      test (uuid4 drawn) i q technology difficulty
      :: tests_from (S i) (S drawn) questions' technology difficulty
  end.

(** [TestGenerationService.generate_test(params)]; the method
    [generate_test_async] has the same body. *)
Definition generate_test (params : Params) : list JSON :=
  let technology := get (param_technology params) "Python" in
  let difficulty := get (param_difficulty params) "intermediate" in
  let num_questions := get (param_num_questions params) 5%Z in
  let result :=
    generate_test_sync json_loads llm limit technology difficulty
      num_questions in
  let questions := result_questions result in
  tests_from 1 0 questions technology difficulty.

End Service.

End Service.

(** The text a test of the service is compared by. *)
Definition test_text (t : JSON) : option string :=
  match getitem t "question" with
  | Ret (JStr s) => Some (Str.lower s)
  | _ => None
  end.

(** The exception of a call of [strip] on a value that is no text. *)
Definition no_strip (v : JSON) : Exn :=
  AttributeError ("'" ++ type_name v ++ "' object has no attribute 'strip'").

(* ================================================================== *)
(** ** The validator's rules, as the specification words them *)
(* ================================================================== *)

(** A candidate passes when: it is an object that has the four keys; its
    question is text that is not empty after trimming and ends with a
    question mark; its options are a mapping whose keys are exactly a, b,
    c, d; its correct answer is one of a, b, c, d; its explanation,
    trimmed, has at least 10 characters; and its difficulty, when it has
    one, is Easy, Medium or Hard. *)
Definition rules_hold (data : JSON) : Prop :=
  exists d, data = JDict d /\
    (forall f, In f required_fields -> Dict.has f d = true) /\
    (exists q, Dict.get "question" d = Some (JStr q)
               /\ Str.strip q <> ""
               /\ Str.endswith "?" (Str.strip q) = true) /\
    (exists o, Dict.get "options" d = Some (JDict o)
               /\ forall k, In k (Dict.keys o) <-> In k option_keys) /\
    (exists a, Dict.get "correct_answer" d = Some (JStr a)
               /\ In a option_keys) /\
    (exists e, Dict.get "explanation" d = Some (JStr e)
               /\ (10 <= String.length (Str.strip e))%nat) /\
    (forall v, Dict.get "difficulty" d = Some v ->
               exists s, v = JStr s /\ In s difficulty_levels).

(* ================================================================== *)
(** ** The validator, rule by rule *)
(* ================================================================== *)
Lemma mem_In (x : string) (l : list string) :
  Str.mem x l = true <-> In x l.
Proof.
  unfold Str.mem. rewrite existsb_exists. split.
  - intros [y [Hy Heq]]. apply String.eqb_eq in Heq. now subst.
  - intros H. exists x. split; [assumption | apply String.eqb_refl].
Qed.

Lemma in_strs_spec (v : JSON) (l : list string) :
  in_strs v l = true <-> exists s, v = JStr s /\ In s l.
Proof.
  unfold in_strs. rewrite existsb_exists. split.
  - intros [y [Hy Heq]]. destruct v; simpl in Heq; try discriminate.
    apply String.eqb_eq in Heq. subst. eauto.
  - intros [s [-> Hs]]. exists s. split; [assumption | apply String.eqb_refl].
Qed.

Lemma keys_are_spec (ks : list string) (d : list (string * JSON)) :
  Dict.keys_are ks d = true <-> forall k, In k (Dict.keys d) <-> In k ks.
Proof.
  unfold Dict.keys_are. rewrite andb_true_iff, !forallb_forall. split.
  - intros [H1 H2] k. split; intro H.
    + apply mem_In, H1, H.
    + apply mem_In, H2, H.
  - intros H. split; intros k Hk; apply mem_In, H, Hk.
Qed.

Lemma bind_Ret {A B : Type} (m : Res A) (k : A -> Res B) (b : B) :
  bind m k = Ret b <-> exists a, m = Ret a /\ k a = Ret b.
Proof.
  destruct m; simpl; split.
  - eauto.
  - intros [a' [H1 H2]]. now inversion H1; subst.
  - discriminate.
  - intros [a' [H1 _]]. discriminate.
Qed.

Lemma endswith_nonempty (p s : string) :
  p <> "" -> Str.endswith p s = true -> s <> "".
Proof.
  intros Hp H ->. unfold Str.endswith in H. simpl in H.
  destruct p as [|c p]; [congruence|].
  unfold Str.rev in H. simpl in H.
  destruct (string_of_list_ascii (List.rev (list_ascii_of_string p) ++ [c])) eqn:E.
  - apply (f_equal list_ascii_of_string) in E.
    rewrite list_ascii_of_string_of_list_ascii in E. simpl in E.
    destruct (List.rev (list_ascii_of_string p)); discriminate.
  - discriminate.
Qed.

#[local] Arguments in_strs : simpl never.
#[local] Arguments is_options_dict : simpl never.
#[local] Arguments Str.endswith : simpl never.
#[local] Arguments Str.strip : simpl never.
#[local] Arguments Dict.get : simpl never.

Lemma validate_sound (data : JSON) :
  _validate_question_data data = Ret true -> rules_hold data.
Proof.
  intros H. unfold _validate_question_data in H.
  destruct data;
    try (destruct (all_in required_fields _) as [[|]|] in H;
         simpl in H; discriminate).
  simpl in H.
  exists kvs. split; [reflexivity|].
  unfold Dict.has in H.
    destruct (Dict.get "question" kvs) as [q|] eqn:Eq; simpl in H; [|discriminate].
    destruct (Dict.get "options" kvs) as [o|] eqn:Eo; simpl in H; [|discriminate].
    destruct (Dict.get "correct_answer" kvs) as [a|] eqn:Ea; simpl in H; [|discriminate].
    destruct (Dict.get "explanation" kvs) as [e|] eqn:Ee; simpl in H; [|discriminate].
    destruct (truthy q) eqn:Tq; simpl in H; [|discriminate].
    destruct q; simpl in H; try discriminate.
    destruct (Str.endswith "?" (Str.strip s)) eqn:Eend; simpl in H; [|discriminate].
    destruct (is_options_dict o) eqn:Eopt; simpl in H; [|discriminate].
    destruct (in_strs a option_keys) eqn:Eans; simpl in H; [|discriminate].
    destruct (truthy e) eqn:Te; simpl in H; [|discriminate].
    destruct e; simpl in H; try discriminate.
    destruct (String.length (Str.strip s0) <? 10)%nat eqn:Elen; simpl in H; [discriminate|].
    repeat split.
    * intros f Hf. unfold Dict.has.
      simpl in Hf. destruct Hf as [<-|[<-|[<-|[<-|[]]]]].
      -- now rewrite Eq.
      -- now rewrite Eo.
      -- now rewrite Ea.
      -- now rewrite Ee.
    * exists s. repeat split; try assumption.
      eapply endswith_nonempty; [|eassumption]. discriminate.
    * destruct o; simpl in Eopt; try discriminate.
      exists kvs0. split; [reflexivity|]. now apply keys_are_spec.
    * apply in_strs_spec in Eans. destruct Eans as [x [-> Hx]]. eauto.
    * exists s0. split; [reflexivity|]. apply Nat.ltb_ge in Elen. exact Elen.
    * intros v Hv. rewrite Hv in H. simpl in H.
      destruct (in_strs v difficulty_levels) eqn:Ed; simpl in H; [|discriminate].
      now apply in_strs_spec.
Qed.

Lemma validate_complete (data : JSON) :
  rules_hold data -> _validate_question_data data = Ret true.
Proof.
  intros [d [-> [Hall [[q [Hq [Hq1 Hq2]]] [[o [Ho Hko]] [[a [Ha Hain]] [[e [He Hlen]] Hdiff]]]]]]].
  unfold _validate_question_data. simpl.
  unfold Dict.has. rewrite Hq, Ho, Ha, He. simpl.
  assert (Tq : negb (String.eqb q "") = true).
  { destruct q; [|reflexivity]. exfalso. apply Hq1. reflexivity. }
  rewrite Tq. simpl. rewrite Hq2. simpl.
  assert (Ho' : is_options_dict (JDict o) = true)
    by (unfold is_options_dict; apply keys_are_spec; exact Hko).
  rewrite Ho'. simpl.
  assert (Ha' : in_strs (JStr a) option_keys = true)
    by (apply in_strs_spec; eauto).
  rewrite Ha'. simpl.
  assert (Te : negb (String.eqb e "") = true).
  { destruct e; [|reflexivity]. simpl in Hlen. lia. }
  rewrite Te. simpl.
  apply Nat.ltb_ge in Hlen. rewrite Hlen. simpl.
  destruct (Dict.get "difficulty" d) as [v|] eqn:Ed; simpl; [|reflexivity].
  destruct (Hdiff v eq_refl) as [s [-> Hs]].
  assert (Hs' : in_strs (JStr s) difficulty_levels = true)
    by (apply in_strs_spec; eauto).
  rewrite Hs'. reflexivity.
Qed.

(* ================================================================== *)
(** ** The two nodes, step by step *)
(* ================================================================== *)

Lemma contents_append (x : string) (l : ErrorLog) :
  contents (append x l) = (contents l ++ [x])%list.
Proof. unfold contents, append. destruct (rebound l); reflexivity. Qed.

(** The duplicate test on questions whose text is a string. *)
Lemma is_duplicate_lowered (cq : Question) (qs : list Question) :
  lowered cq <> None ->
  Forall (fun q => lowered q <> None) qs ->
  (is_duplicate cq qs = Ret true /\ In (lowered cq) (map lowered qs))
  \/ (is_duplicate cq qs = Ret false /\ ~ In (lowered cq) (map lowered qs)).
Proof.
  intros Hc Hqs. induction Hqs as [|q qs Hq Hqs IH].
  - right. split; [reflexivity | intros []].
  - destruct (question q) as [| | | |s| |] eqn:Eq;
      try (unfold lowered in Hq; rewrite Eq in Hq; congruence).
    destruct (question cq) as [| | | |s0| |] eqn:Ec;
      try (unfold lowered in Hc; rewrite Ec in Hc; congruence).
    assert (Lq : lowered q = Some (Str.lower s))
      by (unfold lowered; now rewrite Eq).
    assert (Lc : lowered cq = Some (Str.lower s0))
      by (unfold lowered; now rewrite Ec).
    cbn [is_duplicate map In]. rewrite Eq, Ec. cbn [py_lower bind].
    rewrite Lq, Lc. rewrite Lc in IH.
    destruct (String.eqb (Str.lower s) (Str.lower s0)) eqn:E.
    + left. split; [reflexivity|]. left.
      apply String.eqb_eq in E. now rewrite E.
    + apply String.eqb_neq in E.
      destruct IH as [[H1 H2]|[H1 H2]].
      * left. split; [assumption | now right].
      * right. split; [assumption|]. intros [H|H]; [congruence | tauto].
Qed.

Lemma shape_lowered (q : Question) : accepted_shape q -> lowered q <> None.
Proof.
  intros [[s [Hs _]] _]. unfold lowered. rewrite Hs. discriminate.
Qed.

(** The validate step on a state whose questions are well shaped: it
    adds the candidate, or logs one entry; it never raises. *)
Lemma validate_cases (st : WorkflowState) :
  Forall accepted_shape (questions st) ->
  (forall q, current_question st = Some q -> accepted_shape q) ->
  match current_question st with
  | Some cq =>
      (In (lowered cq) (map lowered (questions st))
       /\ validate_and_add_question st
          = Ret (with_current None
                   (log_error "Duplicate question detected" st)))
      \/ (~ In (lowered cq) (map lowered (questions st))
          /\ validate_and_add_question st
             = Ret (with_current None
                      (with_questions (questions st ++ [cq])%list st)))
  | None =>
      validate_and_add_question st = Ret (log_error no_candidate_entry st)
  end.
Proof.
  intros Hqs Hcur. unfold validate_and_add_question.
  destruct (current_question st) as [cq|]; [|reflexivity].
  destruct (is_duplicate_lowered cq (questions st)) as [[H1 H2]|[H1 H2]].
  - apply shape_lowered, Hcur. reflexivity.
  - eapply Forall_impl; [|exact Hqs]. intros q. apply shape_lowered.
  - left. rewrite H1. simpl. tauto.
  - right. rewrite H1. simpl. tauto.
Qed.

Section Nodes.

#[local] Arguments format_prompt : simpl never.

Variable json_loads : string -> Res JSON.

Lemma format_question_shape (data : JSON) (q : Question) :
  rules_hold data -> format_question data = Ret q -> accepted_shape q.
Proof.
  intros [d [-> [_ [[qt [Hq [_ Hq2]]] [[o [Ho Hko]] [[a [Ha Hain]] [[e [He Hlen]] _]]]]]]] H.
  unfold format_question in H. simpl in H.
  rewrite Hq, Ho, Ha, He in H. simpl in H. inversion H; subst; clear H.
  repeat split; simpl; eauto.
Qed.

Lemma parse_and_validate_shape (text : string) (q : Question) :
  parse_and_validate json_loads text = Ret (Some q) -> accepted_shape q.
Proof.
  unfold parse_and_validate. intros H.
  apply bind_Ret in H. destruct H as [data [_ H]].
  apply bind_Ret in H. destruct H as [[|] [Hv H]]; [|discriminate].
  apply bind_Ret in H. destruct H as [q' [Hf H]]. inversion H; subst.
  eapply format_question_shape; [|eassumption].
  now apply validate_sound.
Qed.

Lemma candidate_shape (model : string -> Res string) (t d : string)
    (q : Question) :
  candidate_of json_loads model t d = Ret (Some q) -> accepted_shape q.
Proof.
  unfold candidate_of. intros H.
  apply bind_Ret in H. destruct H as [text [_ H]].
  eapply parse_and_validate_shape; eassumption.
Qed.

(** The generate step either stores a candidate and rebinds the error
    list to an empty one, or clears the candidate and logs one entry. *)
Lemma generate_success (model : string -> Res string) (st : WorkflowState)
    (q : Question) :
  candidate_of json_loads model (technology st) (difficulty st)
    = Ret (Some q) ->
  generate_single_question json_loads model st
  = with_errors (rebind_empty (errors st)) (with_current (Some q) st).
Proof.
  unfold candidate_of, generate_single_question.
  destruct (model (format_prompt (technology st) (difficulty st)))
    as [text|e]; cbn [bind]; [|discriminate].
  intros ->. reflexivity.
Qed.

Lemma generate_failure (model : string -> Res string) (st : WorkflowState) :
  (forall q, candidate_of json_loads model (technology st) (difficulty st)
             <> Ret (Some q)) ->
  generate_single_question json_loads model st
  = with_current None
      (log_error
         (failure_entry json_loads model (technology st) (difficulty st))
         st).
Proof.
  unfold candidate_of, generate_single_question, failure_entry.
  destruct (model (format_prompt (technology st) (difficulty st)))
    as [text|e]; cbn [bind]; [|reflexivity].
  destruct (parse_and_validate json_loads (Str.strip text)) as [[q|]|e].
  - intros H. exfalso. apply (H q). reflexivity.
  - reflexivity.
  - intros _. unfold parse_error_entry.
    destruct (is_JSONDecodeError e); reflexivity.
Qed.

Lemma generate_cases (model : string -> Res string) (st : WorkflowState) :
  (exists q,
      candidate_of json_loads model (technology st) (difficulty st)
        = Ret (Some q))
  \/ (forall q,
         candidate_of json_loads model (technology st) (difficulty st)
           <> Ret (Some q)).
Proof.
  destruct (candidate_of json_loads model (technology st) (difficulty st))
    as [[q|]|e]; [left; eauto | right; discriminate | right; discriminate].
Qed.

End Nodes.

(* ================================================================== *)
(** ** What every run keeps *)
(* ================================================================== *)

Lemma should_continue_END (s : WorkflowState) :
  should_continue s = END <->
  (num_questions s <= Z.of_nat (length (questions s)))%Z
  \/ (5 < length (contents (errors s)))%nat.
Proof.
  unfold should_continue.
  destruct (Z.leb_spec (num_questions s) (Z.of_nat (length (questions s))));
    [intuition|].
  destruct (Nat.ltb_spec 5 (length (contents (errors s)))).
  - intuition.
  - split; [discriminate|]. intros [?|?]; lia.
Qed.

Lemma should_continue_generate (s : WorkflowState) :
  should_continue s = to_generate <->
  (Z.of_nat (length (questions s)) < num_questions s)%Z
  /\ (length (contents (errors s)) <= 5)%nat.
Proof.
  unfold should_continue.
  destruct (Z.leb_spec (num_questions s) (Z.of_nat (length (questions s)))).
  - split; [discriminate | lia].
  - destruct (Nat.ltb_spec 5 (length (contents (errors s)))).
    + split; [discriminate | lia].
    + intuition.
Qed.

Lemma NoDup_snoc {A : Type} (x : A) (l : list A) :
  NoDup l -> ~ In x l -> NoDup (l ++ [x]).
Proof.
  intros Hl Hx. apply NoDup_app.
  - assumption.
  - constructor; [intros [] | constructor].
  - intros a Ha [<-|[]]. contradiction.
Qed.

Lemma has_text_lowered (t : string) (q : Question) :
  has_text t q = true <-> lowered q = Some t.
Proof.
  unfold has_text. destruct (lowered q) as [t'|].
  - rewrite String.eqb_eq. split; congruence.
  - split; discriminate.
Qed.

(** Among questions with distinct compared texts at most one has the
    text [t]. *)
Lemma distinct_texts_once (t : string) (qs : list Question) :
  NoDup (map lowered qs) -> (length (filter (has_text t) qs) <= 1)%nat.
Proof.
  induction qs as [|q qs IH]; simpl; intros Hnd; [lia|].
  inversion Hnd as [|x l Hin Hnd']; subst.
  destruct (has_text t q) eqn:Hq; [|auto].
  apply has_text_lowered in Hq.
  assert (E : filter (has_text t) qs = []).
  { destruct (filter (has_text t) qs) as [|q' l] eqn:Ef; [reflexivity|].
    exfalso. apply Hin.
    assert (Hq' : In q' (filter (has_text t) qs))
      by (rewrite Ef; now left).
    apply filter_In in Hq'. destruct Hq' as [Hq'in Hq't].
    apply has_text_lowered in Hq't. rewrite Hq, <- Hq't.
    now apply in_map. }
  rewrite E. simpl. lia.
Qed.

Section Run.

Variable json_loads : string -> Res JSON.
Variable llm : nat -> string -> Res string.
Variables (tech diff : string) (n : Z).

#[local] Arguments format_prompt : simpl never.

Local Abbreviation from_model := (from_model json_loads llm tech diff).
Local Abbreviation StateInv := (StateInv json_loads llm tech diff n).
Local Abbreviation Inv := (Inv json_loads llm tech diff n).
Local Abbreviation ends_well := (ends_well json_loads llm tech diff n).
Local Abbreviation sinv_tech := (sinv_tech json_loads llm tech diff n).
Local Abbreviation sinv_diff := (sinv_diff json_loads llm tech diff n).
Local Abbreviation sinv_num := (sinv_num json_loads llm tech diff n).
Local Abbreviation inv_state := (inv_state json_loads llm tech diff n).

Lemma from_model_shape (q : Question) : from_model q -> accepted_shape q.
Proof. intros [k Hk]. eapply candidate_shape. eassumption. Qed.

Lemma inv_initial : Inv (initial_config tech diff n).
Proof.
  constructor; [constructor; simpl; auto using NoDup_nil | | |];
    simpl; auto; lia.
Qed.




(** The generate node keeps the invariant. *)
Lemma inv_generate (c : Config) :
  Inv c -> node c = generate ->
  Inv (mkConfig validate (S (calls c))
         (generate_single_question json_loads (llm (calls c)) (state c))).
Proof.
  intros [[Ht Hd Hn Hs Hnd] Hcur Herr Hlen] Hnode. rewrite Hnode in *.
  cbn in Herr, Hcur.
  destruct (generate_cases json_loads (llm (calls c)) (state c))
    as [[q Hq]|Hno].
  - rewrite (generate_success _ _ _ _ Hq).
    constructor; [constructor; simpl; auto | simpl | simpl; lia | simpl; auto].
    intros q' Hq'. injection Hq' as <-.
    exists (calls c). rewrite <- Ht, <- Hd. exact Hq.
  - rewrite (generate_failure _ _ _ Hno).
    constructor; [constructor; simpl; auto | simpl | simpl | simpl; auto].
    + discriminate.
    + rewrite contents_append, length_app. simpl. lia.
Qed.

(** What the validate node does to a state the invariant holds of. *)
Lemma validate_effect (c : Config) :
  Inv c -> node c = validate ->
  exists s',
    validate_and_add_question (state c) = Ret s'
    /\ StateInv s'
    /\ current_question s' = None
    /\ (length (contents (errors s')) <= 7)%nat
    /\ (1 <= n -> Z.of_nat (length (questions s')) <= n)%Z
    /\ (questions s' = questions (state c)
        \/ exists q, questions s' = (questions (state c) ++ [q])%list)
    /\ (contents (errors s') = contents (errors (state c))
        \/ exists e, contents (errors s')
                     = (contents (errors (state c)) ++ [e])%list).
Proof.
  intros [[Ht Hd Hn Hs Hnd] Hcur Herr Hlen] Hnode. rewrite Hnode in *.
  cbn in Herr, Hcur.
  assert (Hs' : Forall accepted_shape (questions (state c)))
    by (eapply Forall_impl; [|exact Hs]; apply from_model_shape).
  assert (Hcur' : forall q, current_question (state c) = Some q ->
                            accepted_shape q)
    by (intros q Hq; apply from_model_shape, Hcur, Hq).
  pose proof (validate_cases (state c) Hs' Hcur') as Hv.
  destruct (current_question (state c)) as [cq|] eqn:Ecq.
  - destruct Hv as [[Hin ->]|[Hnin ->]]; eexists; split; try reflexivity.
    + repeat split; simpl; auto.
      * rewrite contents_append, length_app. simpl. lia.
      * intros Hn1. destruct Hlen as [->|Hl]; simpl; lia.
      * right. rewrite contents_append. eauto.
    + repeat split; simpl; auto.
      * apply Forall_app. split; [assumption|].
        constructor; [|constructor]. apply Hcur. reflexivity.
      * rewrite map_app. simpl. apply NoDup_snoc; assumption.
      * intros Hn1. rewrite length_app. simpl.
        destruct Hlen as [->|Hl]; simpl; lia.
      * right. eauto.
  - rewrite Hv. eexists. split; [reflexivity|].
    repeat split; simpl; auto.
    + rewrite contents_append, length_app. simpl. lia.
    + intros Hn1. destruct Hlen as [->|Hl]; simpl; lia.
    + right. rewrite contents_append. eauto.
Qed.


Lemma inv_step (c c' : Config) :
  Inv c -> step json_loads llm c = Next c' -> Inv c'.
Proof.
  intros HI Hstep. unfold step in Hstep.
  destruct (node c) eqn:Hnode.
  - inversion Hstep; subst. now apply inv_generate.
  - destruct (validate_effect c HI Hnode)
      as [s' [Hv [Hs [Hcur [He7 [_ _]]]]]].
    rewrite Hv in Hstep.
    destruct (should_continue s') eqn:Hsc; [discriminate|].
    inversion Hstep; subst; clear Hstep.
    apply should_continue_generate in Hsc. destruct Hsc as [Hl He].
    constructor; simpl; auto.
    right. now rewrite <- (sinv_num s' Hs).
Qed.

Lemma inv_reachable (c : Config) :
  reachable json_loads llm (initial_config tech diff n) c -> Inv c.
Proof.
  induction 1 as [|c c' _ IH Hstep].
  - apply inv_initial.
  - eapply inv_step; eassumption.
Qed.

Lemma inv_bounds (c : Config) :
  Inv c ->
  (length (contents (errors (state c))) <= 7)%nat
  /\ (1 <= n -> Z.of_nat (length (questions (state c))) <= n)%Z.
Proof.
  intros [Hs Hcur Herr Hlen]. split.
  - destruct (node c); lia.
  - intros Hn. destruct Hlen as [->|Hl]; simpl; lia.
Qed.

Lemma run_ends_well (limit : nat) (c : Config) :
  Inv c -> ends_well (run json_loads llm limit c).
Proof.
  revert c. induction limit as [|limit IH]; intros c HI.
  - simpl. destruct (inv_bounds c HI) as [H7 Hn].
    split; [apply HI | split; [assumption | split; [assumption | reflexivity]]].
  - simpl. destruct (step json_loads llm c) as [c'|k s|e k s] eqn:Hstep.
    + apply IH. eapply inv_step; eassumption.
    + unfold step in Hstep. destruct (node c) eqn:Hnode; [discriminate|].
      destruct (validate_effect c HI Hnode)
        as [s' [Hv [Hs [Hcur [He7 [Hle _]]]]]].
      rewrite Hv in Hstep.
      destruct (should_continue s') eqn:Hsc; [|discriminate].
      inversion Hstep; subst.
      split; [exact Hs | split; [assumption | split; assumption]].
    + unfold step in Hstep. destruct (node c) eqn:Hnode; [discriminate|].
      destruct (validate_effect c HI Hnode) as [s' [Hv _]].
      rewrite Hv in Hstep.
      destruct (should_continue s'); discriminate.
Qed.

(** A run that reached [END] did so behind a validate step. *)
Lemma run_finished (limit : nat) (c : Config) (k : nat) (s : WorkflowState) :
  Inv c -> run json_loads llm limit c = Finished k s ->
  exists c', Inv c' /\ node c' = validate
             /\ validate_and_add_question (state c') = Ret s
             /\ should_continue s = END.
Proof.
  revert c. induction limit as [|limit IH]; intros c HI Hrun.
  - discriminate.
  - simpl in Hrun.
    destruct (step json_loads llm c) as [c'|k' s'|e k' s'] eqn:Hstep.
    + eapply IH; [|eassumption]. eapply inv_step; eassumption.
    + inversion Hrun; subst. unfold step in Hstep.
      destruct (node c) eqn:Hnode; [discriminate|].
      destruct (validate_and_add_question (state c)) as [s''|] eqn:Hv;
        [|discriminate].
      destruct (should_continue s'') eqn:Hsc; [|discriminate].
      inversion Hstep; subst. exists c.
      split; [assumption | split; [assumption | split; assumption]].
    + discriminate.
Qed.

(** When every accepted question is compared by the same text, one is
    accepted at most. *)
Lemma same_text_once (t : string) (s : WorkflowState) :
  (forall k q, candidate_of json_loads (llm k) tech diff = Ret (Some q) ->
               lowered q = Some t) ->
  StateInv s -> (length (questions s) <= 1)%nat.
Proof.
  intros Hsame [_ _ _ Hfrom Hnd].
  rewrite <- (distinct_texts_once t (questions s) Hnd).
  apply Nat.eq_le_incl. f_equal. symmetry.
  apply forallb_filter_id. apply forallb_forall. intros q Hq.
  rewrite Forall_forall in Hfrom. destruct (Hfrom q Hq) as [k Hk].
  apply has_text_lowered. eapply Hsame. eassumption.
Qed.

(** When every call produces a candidate the error list is emptied in
    every cycle: the run reaches [END] by its target only. *)
Lemma candidates_keep_the_budget (limit : nat) (c : Config) :
  (forall k, exists q,
      candidate_of json_loads (llm k) tech diff = Ret (Some q)) ->
  Inv c ->
  match node c with
  | generate => (length (contents (errors (state c))) <= 1)%nat
  | validate => contents (errors (state c)) = []
  end ->
  match run json_loads llm limit c with
  | Finished _ s => (n <= Z.of_nat (length (questions s)))%Z
  | Failed e _ _ => e = GraphRecursionError
  end.
Proof.
  intros Hwf. revert c. induction limit as [|limit IH]; intros c HI Herr.
  - reflexivity.
  - cbn [run]. unfold step. destruct (node c) eqn:Hnode.
    + apply IH; [now apply inv_generate|]. cbn [node state].
      destruct (Hwf (calls c)) as [q Hq].
      rewrite <- (sinv_tech _ (inv_state _ HI)) in Hq.
      rewrite <- (sinv_diff _ (inv_state _ HI)) in Hq.
      rewrite (generate_success _ _ _ _ Hq). reflexivity.
    + destruct (validate_effect c HI Hnode)
        as [s' [Hv [Hs [Hcur [_ [_ [_ He]]]]]]].
      rewrite Hv.
      assert (He1 : (length (contents (errors s')) <= 1)%nat).
      { destruct He as [->|[e ->]]; rewrite ?length_app, Herr; simpl; lia. }
      destruct (should_continue s') eqn:Hsc.
      * apply should_continue_END in Hsc.
        rewrite (sinv_num _ Hs) in Hsc. destruct Hsc; [assumption | lia].
      * apply IH; [|exact He1].
        eapply inv_step; [exact HI|].
        unfold step. rewrite Hnode, Hv, Hsc. reflexivity.
Qed.

(** A model that produces the same text on every call never fills a
    target of two or more: the run accepts one question and goes on until
    the engine gives up. *)
Lemma same_text_never_finishes (t : string) (limit : nat) :
  (2 <= n)%Z ->
  (forall k, exists q,
      candidate_of json_loads (llm k) tech diff = Ret (Some q)) ->
  (forall k q, candidate_of json_loads (llm k) tech diff = Ret (Some q) ->
               lowered q = Some t) ->
  exists k s,
    run json_loads llm limit (initial_config tech diff n)
    = Failed GraphRecursionError k s
    /\ (length (questions s) <= 1)%nat.
Proof.
  intros Hn Hwf Hsame.
  pose proof (run_ends_well limit _ inv_initial) as [Hs _].
  pose proof (candidates_keep_the_budget limit _ Hwf inv_initial) as Hb.
  cbn [node initial_config state initial_state errors contents rebound
       caller_list length] in Hb.
  specialize (Hb (Nat.le_0_l 1)).
  apply (same_text_once t) in Hs; [|exact Hsame].
  destruct (run json_loads llm limit (initial_config tech diff n))
    as [k s|e k s]; cbn [final_state] in Hs.
  - lia.
  - subst e. eauto.
Qed.

End Run.

(** The questions [generate_test] returns are those of the state the run
    ended in. *)
Lemma result_questions_final
    (json_loads : string -> Res JSON) (llm : nat -> string -> Res string)
    (tech diff : string) (n : Z) (limit : nat) :
  result_questions (generate_test json_loads llm limit tech diff n)
  = questions (final_state
                 (run json_loads llm limit (initial_config tech diff n))).
Proof.
  unfold generate_test, ainvoke. fold (initial_config tech diff n).
  destruct (run json_loads llm limit (initial_config tech diff n));
    reflexivity.
Qed.

(* ================================================================== *)
(** ** Cycles: one generate step and the validate step behind it *)
(* ================================================================== *)

Section Cycles.

Variable json_loads : string -> Res JSON.
Variable llm : nat -> string -> Res string.
Variables (tech diff : string) (n : Z).

#[local] Arguments format_prompt : simpl never.

Lemma failed_cycle (model : string -> Res string) (st : WorkflowState) :
  (forall q, candidate_of json_loads model (technology st) (difficulty st)
             <> Ret (Some q)) ->
  validate_and_add_question (generate_single_question json_loads model st)
  = Ret (failed (failure_entry json_loads model (technology st)
                   (difficulty st)) st).
Proof.
  intros H. rewrite (generate_failure _ _ _ H). reflexivity.
Qed.

Lemma contents_failed (entry : string) (st : WorkflowState) :
  contents (errors (failed entry st))
  = (contents (errors st) ++ [entry; no_candidate_entry])%list.
Proof.
  unfold failed. cbn [errors log_error with_errors with_current].
  rewrite !contents_append, <- app_assoc. reflexivity.
Qed.

(** Two nodes of a run whose call produces no candidate. *)
Lemma run_failed_cycle (limit k : nat) (st : WorkflowState) :
  (forall q, candidate_of json_loads (llm k) (technology st) (difficulty st)
             <> Ret (Some q)) ->
  run json_loads llm (S (S limit)) (mkConfig generate k st)
  = let st' := failed (failure_entry json_loads (llm k) (technology st)
                         (difficulty st)) st in
    match should_continue st' with
    | END => Finished (S k) st'
    | to_generate => run json_loads llm limit (mkConfig generate (S k) st')
    end.
Proof.
  intros H. cbn [run step node calls state].
  rewrite (failed_cycle _ _ H). cbn zeta.
  destruct (should_continue _); reflexivity.
Qed.

(** Three calls in a row without a candidate end a run that has accepted
    nothing: six entries are logged. *)
Lemma three_failures_run (limit : nat) :
  (1 <= n)%Z -> (6 <= limit)%nat ->
  (forall k, (k < 3)%nat ->
     forall q, candidate_of json_loads (llm k) tech diff <> Ret (Some q)) ->
  run json_loads llm limit (initial_config tech diff n)
  = Finished 3
      (mkState tech diff []
         (mkLog [failure_entry json_loads (llm 0) tech diff;
                 no_candidate_entry;
                 failure_entry json_loads (llm 1) tech diff;
                 no_candidate_entry;
                 failure_entry json_loads (llm 2) tech diff;
                 no_candidate_entry] None)
         n None).
Proof.
  intros Hn Hlimit Hno.
  do 6 (destruct limit as [|limit]; [lia|]).
  unfold initial_config, initial_state.
  rewrite run_failed_cycle by (apply Hno; lia).
  cbn zeta. unfold failed at 1. cbn [technology difficulty].
  match goal with
  | |- context [should_continue ?s] =>
      assert (E : should_continue s = to_generate)
        by (apply should_continue_generate; cbn; lia);
      rewrite E; clear E
  end.
  rewrite run_failed_cycle by (apply Hno; lia).
  cbn zeta. unfold failed at 1. cbn [technology difficulty].
  match goal with
  | |- context [should_continue ?s] =>
      assert (E : should_continue s = to_generate)
        by (apply should_continue_generate; cbn; lia);
      rewrite E; clear E
  end.
  rewrite run_failed_cycle by (apply Hno; lia).
  cbn zeta. unfold failed at 1. cbn [technology difficulty].
  match goal with
  | |- context [should_continue ?s] =>
      assert (E : should_continue s = END)
        by (apply should_continue_END; right; cbn; lia);
      rewrite E; clear E
  end.
  reflexivity.
Qed.

(** The validate step behind a generate step that stored a candidate
    whose text no accepted question has. *)
Lemma accepted_cycle (model : string -> Res string) (st : WorkflowState)
    (q : Question) :
  candidate_of json_loads model (technology st) (difficulty st)
    = Ret (Some q) ->
  Forall (fun q' => lowered q' <> None) (questions st) ->
  ~ In (lowered q) (map lowered (questions st)) ->
  validate_and_add_question (generate_single_question json_loads model st)
  = Ret (mkState (technology st) (difficulty st) (questions st ++ [q])
           (rebind_empty (errors st)) (num_questions st) None).
Proof.
  intros Hq Hqs Hnew. rewrite (generate_success _ _ _ _ Hq).
  unfold validate_and_add_question.
  cbn [current_question questions with_errors with_current].
  destruct (is_duplicate_lowered q (questions st)) as [[_ H]|[-> _]].
  - apply shape_lowered. eapply candidate_shape. eassumption.
  - assumption.
  - contradiction.
  - reflexivity.
Qed.

(** A run whose calls all produce candidates with texts of their own:
    [r] cycles accept [r] questions and reach the target. *)
Lemma accepting_run (N : nat) (qs : nat -> Question) :
  (forall k, (k < N)%nat ->
     candidate_of json_loads (llm k) tech diff = Ret (Some (qs k))) ->
  (forall i j, (i < j < N)%nat -> lowered (qs i) <> lowered (qs j)) ->
  forall (r k limit : nat) (log : ErrorLog),
    (k + r = N)%nat -> (1 <= r)%nat -> (2 * r <= limit)%nat ->
    contents log = [] ->
    run json_loads llm limit
      (mkConfig generate k
         (mkState tech diff (map qs (seq 0 k)) log (Z.of_nat N) None))
    = Finished N
        (mkState tech diff (map qs (seq 0 N)) (rebind_empty log)
           (Z.of_nat N) None).
Proof.
  intros Hcand Hdist. induction r as [|r IH]; intros k limit log Hk Hr Hl Hlog.
  - lia.
  - do 2 (destruct limit as [|limit]; [lia|]).
    cbn [run step node calls state].
    rewrite (accepted_cycle (llm k) _ (qs k)).
    + cbn [technology difficulty questions errors num_questions].
      replace (map qs (seq 0 k) ++ [qs k])%list with (map qs (seq 0 (S k)))
        by (rewrite seq_S, map_app; reflexivity).
      destruct (Nat.eq_dec r 0) as [->|Hr0].
      * replace (S k) with N by lia.
        match goal with
        | |- context [should_continue ?s] =>
            assert (E : should_continue s = END)
              by (apply should_continue_END; left; cbn;
                  rewrite length_map, length_seq; lia);
            rewrite E; clear E
        end.
        reflexivity.
      * match goal with
        | |- context [should_continue ?s] =>
            assert (E : should_continue s = to_generate)
              by (apply should_continue_generate; cbn;
                  rewrite length_map, length_seq; lia);
            rewrite E; clear E
        end.
        rewrite (IH (S k) limit (rebind_empty log)) by (try lia; reflexivity).
        reflexivity.
    + apply Hcand. lia.
    + cbn [questions]. apply Forall_forall. intros q Hq.
      apply in_map_iff in Hq. destruct Hq as [i [<- Hi]].
      apply in_seq in Hi. apply shape_lowered.
      eapply candidate_shape. apply Hcand. lia.
    + cbn [questions]. rewrite map_map. intros Hin.
      apply in_map_iff in Hin. destruct Hin as [i [Hi Hin]].
      apply in_seq in Hin. apply (Hdist i k); [lia | assumption].
Qed.

(** The same run when the engine allows fewer node runs than the [r]
    cycles to go take: it is stopped behind the cycles it completed,
    with their questions and with the caller's error list as it was. *)
Lemma stopped_run (N : nat) (qs : nat -> Question) :
  (forall k, (k < N)%nat ->
     candidate_of json_loads (llm k) tech diff = Ret (Some (qs k))) ->
  (forall i j, (i < j < N)%nat -> lowered (qs i) <> lowered (qs j)) ->
  forall (r k limit : nat) (log : ErrorLog),
    (k + r = N)%nat -> (limit < 2 * r)%nat ->
    exists c s,
      run json_loads llm limit
        (mkConfig generate k
           (mkState tech diff (map qs (seq 0 k)) log (Z.of_nat N) None))
      = Failed GraphRecursionError c s
      /\ questions s = map qs (seq 0 (k + Nat.div2 limit))
      /\ caller_list (errors s) = caller_list log.
Proof.
  intros Hcand Hdist. induction r as [|r IH]; intros k limit log Hk Hl.
  - lia.
  - destruct limit as [|[|limit]].
    + cbn [run]. eexists _, _. split; [reflexivity|].
      cbn [state questions errors Nat.div2]. rewrite Nat.add_0_r.
      split; reflexivity.
    + cbn [run step node calls state].
      rewrite (generate_success json_loads (llm k) _ (qs k))
        by (apply Hcand; lia).
      eexists _, _. split; [reflexivity|].
      cbn [questions errors with_errors with_current rebind_empty
           caller_list Nat.div2].
      rewrite Nat.add_0_r. split; reflexivity.
    + cbn [run step node calls state].
      rewrite (accepted_cycle (llm k) _ (qs k)).
      * cbn [technology difficulty questions errors num_questions].
        replace (map qs (seq 0 k) ++ [qs k])%list with (map qs (seq 0 (S k)))
          by (rewrite seq_S, map_app; reflexivity).
        match goal with
        | |- context [should_continue ?s] =>
            assert (E : should_continue s = to_generate)
              by (apply should_continue_generate; cbn;
                  rewrite length_map, length_seq; lia);
            rewrite E; clear E
        end.
        destruct (IH (S k) limit (rebind_empty log)) as [c [s [Hrun [Hq He]]]];
          [lia | lia |].
        exists c, s. split; [exact Hrun|]. split; [|exact He].
        cbn [Nat.div2]. rewrite Nat.add_succ_r. exact Hq.
      * apply Hcand. lia.
      * cbn [questions]. apply Forall_forall. intros q Hq.
        apply in_map_iff in Hq. destruct Hq as [i [<- Hi]].
        apply in_seq in Hi. apply shape_lowered.
        eapply candidate_shape. apply Hcand. lia.
      * cbn [questions]. rewrite map_map. intros Hin.
        apply in_map_iff in Hin. destruct Hin as [i [Hi Hin]].
        apply in_seq in Hin. apply (Hdist i k); [lia | assumption].
Qed.

End Cycles.

(* ================================================================== *)
(** ** The parser and the validator on sample completions *)
(* ================================================================== *)

(** A completion in a code block parses as the bare completion does. *)
Example fenced_completion_parses :
  extract_json Json.loads
    ("```json" ++ Str.newline ++ mcq "What is X?" ++ Str.newline ++ "```")
  = extract_json Json.loads (mcq "What is X?").
Proof. reflexivity. Qed.

(** Prose in front of the code block keeps the opening marker in place;
    the text in braces is found all the same. *)
Example prose_before_the_fence_parses :
  extract_json Json.loads
    ("Here is the question:" ++ Str.newline ++ "```json" ++ Str.newline
     ++ mcq "What is X?" ++ Str.newline ++ "```")
  = extract_json Json.loads (mcq "What is X?").
Proof. reflexivity. Qed.

(** The values of a well-formed completion come back as they were sent. *)
Example well_formed_completion_round_trip :
  extract_json Json.loads (mcq "What is X?")
  = Ret (JDict [("question", JStr "What is X?");
                ("options",
                 JDict [("a", JStr "x"); ("b", JStr "y"); ("c", JStr "z");
                        ("d", JStr "w")]);
                ("correct_answer", JStr "a");
                ("explanation", JStr "Because it is.")]).
Proof. reflexivity. Qed.

(** Fields without braces around them are wrapped and decoded. *)
Example bare_fields_are_wrapped :
  extract_json Json.loads (Str.dq "'question': 'What is X?', 'level': 2,")
  = Ret (JDict [("question", JStr "What is X?"); ("level", JInt 2)]).
Proof. reflexivity. Qed.

(** A decoded value that is no object makes the validator raise or turn
    it down, as the membership test of its type has it. *)
Example a_number_makes_the_validator_raise :
  _validate_question_data (JInt 5)
  = Raise (TypeError "argument of type 'int' is not iterable").
Proof. reflexivity. Qed.

Example a_text_is_turned_down :
  _validate_question_data (JStr "question") = Ret false.
Proof. reflexivity. Qed.

(* ================================================================== *)
(** ** The properties of the workflow *)
(* ================================================================== *)

#[local] Arguments format_prompt : simpl never.

(** C1, as the code has it. The list bound to [state["errors"]] grows by
    appending only until a generate step parses and validates a candidate:
    that step binds the key to a new empty list, every other generate
    step appends exactly one entry, and a validate step appends at most
    one and removes none. [should_continue] reads the list bound at that
    moment, so its budget counts the entries logged since the last stored
    candidate, not those of the whole run. *)
Theorem errors_grow_until_a_candidate_is_stored
    (json_loads : string -> Res JSON) (model : string -> Res string)
    (st : WorkflowState) :
  let st' := generate_single_question json_loads model st in
  match candidate_of json_loads model (technology st) (difficulty st) with
  | Ret (Some _) => contents (errors st') = []
  | _ =>
      exists entry,
        contents (errors st') = (contents (errors st) ++ [entry])%list
  end
  /\ match validate_and_add_question st with
     | Ret st'' =>
         contents (errors st'') = contents (errors st)
         \/ exists entry,
             contents (errors st'') = (contents (errors st) ++ [entry])%list
     | Raise _ => True
     end
  /\ (should_continue st = END <->
      (num_questions st <= Z.of_nat (length (questions st)))%Z
      \/ (5 < length (contents (errors st)))%nat).
Proof.
  cbn zeta. split; [|split].
  - destruct (candidate_of json_loads model (technology st) (difficulty st))
      as [[q|]|e] eqn:E.
    + rewrite (generate_success _ _ _ _ E). reflexivity.
    + rewrite generate_failure by (rewrite E; discriminate).
      eexists. cbn [errors with_current log_error with_errors].
      apply contents_append.
    + rewrite generate_failure by (rewrite E; discriminate).
      eexists. cbn [errors with_current log_error with_errors].
      apply contents_append.
  - unfold validate_and_add_question.
    destruct (current_question st) as [cq|].
    + destruct (is_duplicate cq (questions st)) as [[|]|e]; cbn [bind].
      * right. eexists.
        cbn [errors with_current log_error with_errors].
        apply contents_append.
      * left. reflexivity.
      * exact I.
    + right. eexists. cbn [errors log_error with_errors].
      apply contents_append.
  - apply should_continue_END.
Qed.

(** C1 fails as stated: two failed cycles log four entries, the accepted
    candidate of the third call leaves the list empty, and after two more
    failed cycles the budget check sees four entries and continues, though
    eight were logged in the run. *)
Lemma accepted_candidate_empties_the_errors :
  let llm := replay ["garbage"; "garbage"; mcq "Q1?"; "garbage"; "garbage"] in
  let after k :=
    final_state (run Json.loads llm k (initial_config "Python" "Easy" 2)) in
  length (contents (errors (after 4))) = 4
  /\ contents (errors (after 5)) = []
  /\ length (contents (errors (after 10))) = 4
  /\ questions (after 10) = [mcq_question "Q1?"]
  /\ should_continue (after 10) = to_generate.
Proof. vm_compute. repeat split; reflexivity. Qed.

(** C2, as the code has it. When the first [N] calls each return a
    completion that parses and validates, and the questions they carry
    are pairwise different once lower-cased, the outcome depends on the
    node runs the engine allows ([limit]; [generate_test] passes none to
    [ainvoke], so the engine's own applies). With [2 * N] node runs or
    more the run reaches [END] after [N] cycles and [generate_test]
    returns exactly these [N] questions, in the order of the calls, with
    an empty error list. With fewer the engine stops the run, and
    [generate_test] returns the questions of the cycles completed, half
    as many as the node runs allowed, and the one entry that reports the
    engine's exception. *)
Theorem distinct_well_formed_completions_fill_the_target
    (json_loads : string -> Res JSON) (llm : nat -> string -> Res string)
    (tech diff : string) (N : nat) (qs : nat -> Question) (limit : nat) :
  (0 < N)%nat ->
  (forall k, (k < N)%nat ->
     candidate_of json_loads (llm k) tech diff = Ret (Some (qs k))) ->
  (forall i j, (i < j < N)%nat -> lowered (qs i) <> lowered (qs j)) ->
  generate_test json_loads llm limit tech diff (Z.of_nat N)
  = if (2 * N <=? limit)%nat
    then mkResult (map qs (seq 0 N)) [] tech diff N
    else mkResult (map qs (seq 0 (Nat.div2 limit)))
           [("Workflow execution error: "
             ++ str_exn GraphRecursionError)%string]
           tech diff (Nat.div2 limit).
Proof.
  intros HN Hcand Hdist.
  unfold generate_test, ainvoke, initial_state.
  change (@nil Question) with (map qs (seq 0 0)).
  destruct (Nat.leb_spec (2 * N) limit) as [Hlimit|Hlimit].
  - rewrite (accepting_run json_loads llm tech diff N qs Hcand Hdist
               N 0 limit (mkLog [] None)) by (try lia; reflexivity).
    cbn [questions errors caller_list rebind_empty].
    rewrite length_map, length_seq. reflexivity.
  - destruct (stopped_run json_loads llm tech diff N qs Hcand Hdist
                N 0 limit (mkLog [] None)) as [c [s [Hrun [Hq He]]]];
      [lia | lia |].
    rewrite Hrun, Hq, He. cbn [Nat.add caller_list app].
    rewrite length_map, length_seq. reflexivity.
Qed.

Lemma distinct_well_formed_completions_fill_the_target_witness :
  generate_test Json.loads (replay [mcq "Q1?"; mcq "Q2?"; mcq "Q3?"]) 6
    "Python" "Easy" 3
  = mkResult [mcq_question "Q1?"; mcq_question "Q2?"; mcq_question "Q3?"]
      [] "Python" "Easy" 3.
Proof.
  apply (distinct_well_formed_completions_fill_the_target
           Json.loads (replay [mcq "Q1?"; mcq "Q2?"; mcq "Q3?"])
           "Python" "Easy" 3
           (fun k => mcq_question (nth k ["Q1?"; "Q2?"; "Q3?"] "")) 6).
  - lia.
  - intros k Hk. destruct k as [|[|[|k]]];
      [vm_compute; reflexivity .. | lia].
  - intros i j [Hij Hj]. destruct j as [|[|[|j]]]; [lia | | | lia].
    + destruct i as [|i]; [vm_compute; discriminate | lia].
    + destruct i as [|[|i]]; [vm_compute; discriminate .. | lia].
Defined.

(** Thirteen completions with questions of their own, at a limit of 25
    node runs: the engine stops the run in the thirteenth cycle, twelve
    questions are returned and one error. *)
Example thirteen_completions_in_twenty_five_node_runs :
  let r := generate_test Json.loads
             (replay [mcq "Q1?"; mcq "Q2?"; mcq "Q3?"; mcq "Q4?"; mcq "Q5?";
                      mcq "Q6?"; mcq "Q7?"; mcq "Q8?"; mcq "Q9?"; mcq "Q10?";
                      mcq "Q11?"; mcq "Q12?"; mcq "Q13?"]) 25
             "Python" "Easy" 13 in
  total_questions r = 12
  /\ result_errors r
     = [("Workflow execution error: "
         ++ str_exn GraphRecursionError)%string].
Proof. vm_compute. split; reflexivity. Qed.

(** C2 fails as stated: a stub that answers every call with the same
    well-formed completion never fills a target of two. One question is
    accepted, every later candidate is a duplicate, the error list is
    emptied by each generate step, and the run goes on until the engine
    gives up; [generate_test] then returns one question and an error. *)
Lemma same_completion_never_fills_the_target :
  (forall k, candidate_of Json.loads (always (mcq "What is X?") k)
               "Python" "Easy"
             = Ret (Some (mcq_question "What is X?")))
  /\ (forall limit,
        (total_questions
           (generate_test Json.loads (always (mcq "What is X?")) limit
              "Python" "Easy" 2) <= 1)%nat
        /\ result_errors
             (generate_test Json.loads (always (mcq "What is X?")) limit
                "Python" "Easy" 2) <> []).
Proof.
  assert (Hc : forall k, candidate_of Json.loads
                           (always (mcq "What is X?") k) "Python" "Easy"
                         = Ret (Some (mcq_question "What is X?")))
    by (intros k; vm_compute; reflexivity).
  split; [exact Hc|]. intros limit.
  destruct (same_text_never_finishes Json.loads
              (always (mcq "What is X?")) "Python" "Easy" 2
              "what is x?" limit) as [k [s [Hrun Hlen]]].
  - lia.
  - intros k. eexists. apply Hc.
  - intros k q Hq. rewrite Hc in Hq. inversion Hq; subst. reflexivity.
  - unfold generate_test, ainvoke. fold (initial_config "Python" "Easy" 2).
    rewrite Hrun. cbn [total_questions result_errors]. split; [exact Hlen|].
    intros H. apply app_eq_nil in H. destruct H as [_ H]. discriminate.
Qed.

(** C3, as the code has it. A run that reaches [END] with fewer accepted
    questions than the target (the failure-budget path) ends with six or
    seven entries in the error list: the budget is checked once per cycle,
    behind the validate step, and a cycle can log two entries, so the
    check that sees more than five can see seven. *)
Theorem failure_budget_stops_at_six_or_seven
    (json_loads : string -> Res JSON) (llm : nat -> string -> Res string)
    (tech diff : string) (n : Z) (limit k : nat) (s : WorkflowState) :
  run json_loads llm limit (initial_config tech diff n) = Finished k s ->
  (Z.of_nat (length (questions s)) < n)%Z ->
  (6 <= length (contents (errors s)) <= 7)%nat.
Proof.
  intros Hrun Hless.
  destruct (run_finished json_loads llm tech diff n limit _ k s
              (inv_initial json_loads llm tech diff n) Hrun)
    as [c [HI [Hnode [Hv Hend]]]].
  destruct (validate_effect json_loads llm tech diff n c HI Hnode)
    as [s' [Hv' [Hs [_ [H7 _]]]]].
  rewrite Hv in Hv'. inversion Hv'; subst s'.
  apply should_continue_END in Hend. rewrite (sinv_num _ _ _ _ _ _ Hs) in Hend.
  lia.
Qed.

Lemma failure_budget_stops_at_six_or_seven_witness :
  (6 <= length
          (contents
             (errors
                (final_state
                   (run Json.loads (always "garbage") 25
                      (initial_config "Python" "Easy" 3))))) <= 7)%nat.
Proof.
  apply (failure_budget_stops_at_six_or_seven
           Json.loads (always "garbage") "Python" "Easy" 3 25 3).
  - vm_compute. reflexivity.
  - vm_compute. reflexivity.
Defined.

(** C3 fails as stated: after an accepted question, a duplicate and three
    unparsable completions the list holds 1, 3, 5 and then 7 entries when
    the budget check stops the run. *)
Lemma budget_check_can_see_seven_errors :
  let o := run Json.loads (replay [mcq "Q1?"; mcq "q1?"]) 25
             (initial_config "Python" "Easy" 2) in
  o = Finished 5 (final_state o)
  /\ length (questions (final_state o)) = 1
  /\ length (contents (errors (final_state o))) = 7.
Proof. vm_compute. repeat split; reflexivity. Qed.

Lemma take_length (n : nat) (s : string) :
  (String.length (Str.take n s) <= n)%nat.
Proof.
  revert s. induction n as [|n IH]; intros [|c s]; cbn; try lia.
  specialize (IH s). lia.
Qed.

Lemma take_prefix (n : nat) (s : string) :
  String.prefix (Str.take n s) s = true.
Proof.
  revert s. induction n as [|n IH]; intros [|c s]; cbn; try reflexivity.
  destruct (ascii_dec c c); [apply IH | congruence].
Qed.

Lemma prefix_app (p s : string) : String.prefix p (p ++ s) = true.
Proof.
  induction p as [|c p IH]; simpl.
  - destruct s; reflexivity.
  - destruct (ascii_dec c c); [exact IH | congruence].
Qed.

Lemma is_parse_error_entry (e : Exn) (text : string) :
  is_parse_error (parse_error_entry e text) = true.
Proof.
  unfold parse_error_entry, is_parse_error.
  destruct (is_JSONDecodeError e); rewrite prefix_app.
  - reflexivity.
  - apply orb_true_r.
Qed.

(** A completion the parser raises on leaves the generate step without a
    candidate and makes it log a parse-error entry. *)
Lemma unparsable_completion (json_loads : string -> Res JSON)
    (model : string -> Res string) (tech diff text : string) (e : Exn) :
  model (format_prompt tech diff) = Ret text ->
  extract_json json_loads (Str.strip text) = Raise e ->
  (forall q, candidate_of json_loads model tech diff <> Ret (Some q))
  /\ failure_entry json_loads model tech diff
     = parse_error_entry e (Str.strip text).
Proof.
  intros Hm He. unfold candidate_of, failure_entry, parse_and_validate.
  rewrite Hm. cbn [bind]. rewrite He. cbn [bind].
  split; [discriminate | reflexivity].
Qed.

(** C4, as the code has it. When the completions of the first three calls
    are text the parser raises on, the run ends behind the third cycle
    with nothing accepted and exactly six entries: three parse-error
    entries, each followed by the entry of the validate step that found
    no candidate. *)
Theorem unparsable_completions_end_the_run_in_three_cycles
    (json_loads : string -> Res JSON) (llm : nat -> string -> Res string)
    (tech diff : string) (n : Z) (limit : nat) :
  (1 <= n)%Z -> (6 <= limit)%nat ->
  (forall k, (k < 3)%nat ->
     exists text e,
       llm k (format_prompt tech diff) = Ret text
       /\ extract_json json_loads (Str.strip text) = Raise e) ->
  exists e0 e1 e2,
    is_parse_error e0 = true /\ is_parse_error e1 = true
    /\ is_parse_error e2 = true
    /\ calls_made (run json_loads llm limit (initial_config tech diff n)) = 3
    /\ generate_test json_loads llm limit tech diff n
       = mkResult []
           [e0; no_candidate_entry; e1; no_candidate_entry;
            e2; no_candidate_entry]
           tech diff 0.
Proof.
  intros Hn Hlimit Hbad.
  assert (Hno : forall k, (k < 3)%nat ->
            (forall q, candidate_of json_loads (llm k) tech diff
                       <> Ret (Some q))
            /\ is_parse_error (failure_entry json_loads (llm k) tech diff)
               = true).
  { intros k Hk. destruct (Hbad k Hk) as [text [e [Hm He]]].
    destruct (unparsable_completion json_loads (llm k) tech diff text e Hm He)
      as [H1 H2].
    split; [exact H1|]. rewrite H2. apply is_parse_error_entry. }
  exists (failure_entry json_loads (llm 0) tech diff),
         (failure_entry json_loads (llm 1) tech diff),
         (failure_entry json_loads (llm 2) tech diff).
  repeat split; try (apply Hno; lia).
  - rewrite (three_failures_run json_loads llm tech diff n limit Hn Hlimit)
      by (intros k Hk; apply Hno; exact Hk).
    reflexivity.
  - unfold generate_test, ainvoke. fold (initial_config tech diff n).
    rewrite (three_failures_run json_loads llm tech diff n limit Hn Hlimit)
      by (intros k Hk; apply Hno; exact Hk).
    reflexivity.
Qed.

Lemma unparsable_completions_end_the_run_in_three_cycles_witness :
  exists e0 e1 e2,
    is_parse_error e0 = true /\ is_parse_error e1 = true
    /\ is_parse_error e2 = true
    /\ calls_made (run Json.loads (always "garbage") 25
                     (initial_config "Python" "Easy" 5)) = 3
    /\ generate_test Json.loads (always "garbage") 25 "Python" "Easy" 5
       = mkResult []
           [e0; no_candidate_entry; e1; no_candidate_entry;
            e2; no_candidate_entry]
           "Python" "Easy" 0.
Proof.
  apply (unparsable_completions_end_the_run_in_three_cycles
           Json.loads (always "garbage") "Python" "Easy" 5 25).
  - lia.
  - lia.
  - intros k Hk. exists "garbage". eexists. split.
    + reflexivity.
    + vm_compute. reflexivity.
Defined.

(** C4 fails as stated: with garbage on every call the six entries are
    three parse errors and three entries of the validate step, not five
    parse errors. *)
Lemma garbage_logs_three_parse_errors :
  let r := generate_test Json.loads (always "garbage") 25
             "Python" "Easy" 5 in
  total_questions r = 0
  /\ length (result_errors r) = 6
  /\ length (filter is_parse_error (result_errors r)) = 3
  /\ map is_parse_error (result_errors r)
     = [true; false; true; false; true; false].
Proof. vm_compute. repeat split; reflexivity. Qed.

(** C5, as the code has it. The tiers are tried in order, and a tier
    that finds its text and fails to decode it ends the parse. When the
    text between the first opening and the last closing brace does not
    decode, [extract_json] raises the decoder's exception at once (no
    wrapping, no line-by-line extraction, no decoding of the whole
    text), and the generate step logs that exception with the whole
    completion behind it; the wrapping tier ends the parse in the same
    way. So an exception of [extract_json] is the decoder's, of one of
    these two tiers, or the parse failure of the last tier: that one is
    raised when no text in braces was found, the wrapping did not apply,
    the line-by-line tier did not find the four fields and the text as a
    whole did not decode, and its message quotes the first 200
    characters at most of the text without its code-block markers. *)
Theorem decode_failure_in_braces_ends_the_parse
    (json_loads : string -> Res JSON) :
  (forall (model : string -> Res string) (st : WorkflowState)
          (raw json_str : string) (e : Exn),
      model (format_prompt (technology st) (difficulty st)) = Ret raw ->
      Re.search_braces (strip_fences (Str.strip raw)) = Some json_str ->
      json_loads json_str = Raise e ->
      extract_json json_loads (Str.strip raw) = Raise e
      /\ generate_single_question json_loads model st
         = with_current None
             (log_error (parse_error_entry e (Str.strip raw)) st))
  /\ (forall (model : string -> Res string) (st : WorkflowState)
             (raw : string) (e : Exn),
         model (format_prompt (technology st) (difficulty st)) = Ret raw ->
         Re.search_braces (strip_fences (Str.strip raw)) = None ->
         wrap_applies (strip_fences (Str.strip raw)) = true ->
         json_loads (try_str (strip_fences (Str.strip raw))) = Raise e ->
         extract_json json_loads (Str.strip raw) = Raise e
         /\ generate_single_question json_loads model st
            = with_current None
                (log_error (parse_error_entry e (Str.strip raw)) st))
  /\ (forall (text : string) (e : Exn),
         extract_json json_loads text = Raise e ->
         (exists json_str,
             Re.search_braces (strip_fences text) = Some json_str
             /\ json_loads json_str = Raise e)
         \/ (Re.search_braces (strip_fences text) = None
             /\ wrap_applies (strip_fences text) = true
             /\ json_loads (try_str (strip_fences text)) = Raise e)
         \/ (Re.search_braces (strip_fences text) = None
             /\ wrap_applies (strip_fences text) = false
             /\ Dict.keys_are fields
                  (line_by_line json_loads (strip_fences text)) = false
             /\ (exists e', json_loads (strip_fences text) = Raise e')
             /\ e = ValueError
                      ("Failed to parse LLM response after all attempts. Raw response: "
                       ++ Str.take 200 (strip_fences text) ++ "...")
             /\ (String.length (Str.take 200 (strip_fences text)) <= 200)%nat
             /\ String.prefix (Str.take 200 (strip_fences text))
                  (strip_fences text) = true))
  /\ (forall (text : string) (e' : Exn),
         Re.search_braces (strip_fences text) = None ->
         wrap_applies (strip_fences text) = false ->
         Dict.keys_are fields (line_by_line json_loads (strip_fences text))
         = false ->
         json_loads (strip_fences text) = Raise e' ->
         extract_json json_loads text
         = Raise (ValueError (parse_failure (strip_fences text)))).
Proof.
  split; [|split; [|split]].
  - intros model st raw json_str e Hm Hb He.
    assert (Hx : extract_json json_loads (Str.strip raw) = Raise e)
      by (unfold extract_json; rewrite Hb; exact He).
    split; [exact Hx|].
    destruct (unparsable_completion json_loads model (technology st)
                (difficulty st) raw e Hm Hx) as [Hno Hentry].
    rewrite (generate_failure _ _ _ Hno), Hentry. reflexivity.
  - intros model st raw e Hm Hb Hw He.
    assert (Hx : extract_json json_loads (Str.strip raw) = Raise e)
      by (unfold extract_json; rewrite Hb, Hw; exact He).
    split; [exact Hx|].
    destruct (unparsable_completion json_loads model (technology st)
                (difficulty st) raw e Hm Hx) as [Hno Hentry].
    rewrite (generate_failure _ _ _ Hno), Hentry. reflexivity.
  - intros text e H. unfold extract_json in H.
    destruct (Re.search_braces (strip_fences text)) as [json_str|].
    { left. exists json_str. split; [reflexivity | exact H]. }
    right. destruct (wrap_applies (strip_fences text)).
    { left. split; [reflexivity|]. split; [reflexivity | exact H]. }
    right. split; [reflexivity|]. split; [reflexivity|].
    destruct (Dict.keys_are fields
                (line_by_line json_loads (strip_fences text)));
      [discriminate|].
    split; [reflexivity|].
    destruct (json_loads (strip_fences text)) as [v|e'];
      [discriminate|].
    split; [eexists; reflexivity|]. injection H as <-.
    split; [reflexivity|].
    split; [apply take_length | apply take_prefix].
  - intros text e' Hb Hw Hk He. unfold extract_json.
    rewrite Hb, Hw, Hk, He. reflexivity.
Qed.

Lemma decode_failure_in_braces_ends_the_parse_witness :
  exists e,
    extract_json Json.loads (Str.strip half_closed) = Raise e
    /\ generate_single_question Json.loads (always half_closed 0)
         (initial_state "Python" "Easy" 1)
       = with_current None
           (log_error (parse_error_entry e (Str.strip half_closed))
              (initial_state "Python" "Easy" 1)).
Proof.
  exists (JSONDecodeError "Expecting ',' delimiter").
  apply (proj1 (decode_failure_in_braces_ends_the_parse Json.loads)
           (always half_closed 0)
           (initial_state "Python" "Easy" 1) half_closed
           (Str.dq "{'question': 'What is X?',
'options': {'a': '1', 'b': '2', 'c': '3', 'd': '4'}")).
  - reflexivity.
  - vm_compute. reflexivity.
  - vm_compute. reflexivity.
Defined.

(** The parse failure of the last tier, on a text of 300 characters
    that is no JSON: the message quotes its first 200. *)
Example parse_failure_quotes_two_hundred_characters :
  let text := String.concat "" (repeat "abc" 100) in
  extract_json Json.loads text
  = Raise (ValueError
             ("Failed to parse LLM response after all attempts. Raw response: "
              ++ String.concat "" (repeat "abc" 66) ++ "ab" ++ "..."))
  /\ String.length text = 300.
Proof. vm_compute. split; reflexivity. Qed.

(** C5 fails as stated: on a completion whose outer object is not closed
    the decode of the text in braces fails and the parse ends there with
    the decoder's error, although the line-by-line tier would have read
    all four fields and the validator would have passed them; the entry
    logged is no parse failure with a 200-character excerpt but carries
    the whole completion. *)
Lemma later_tiers_are_not_tried_after_a_failed_decode :
  (exists msg, extract_json Json.loads half_closed
               = Raise (JSONDecodeError msg))
  /\ extract_json Json.loads half_closed
     <> Raise (ValueError (parse_failure (strip_fences half_closed)))
  /\ Dict.keys_are fields (line_by_line Json.loads (strip_fences half_closed))
     = true
  /\ _validate_question_data
       (JDict (line_by_line Json.loads (strip_fences half_closed)))
     = Ret true
  /\ exists entry,
       contents
         (errors
            (generate_single_question Json.loads (always half_closed 0)
               (initial_state "Python" "Easy" 1)))
       = [entry]
       /\ String.prefix "Failed to parse LLM response as JSON: " entry = true
       /\ Str.endswith (". Raw response: " ++ half_closed) entry = true.
Proof.
  split; [eexists; vm_compute; reflexivity|].
  split; [vm_compute; discriminate|].
  split; [vm_compute; reflexivity|].
  split; [vm_compute; reflexivity|].
  eexists. split; [vm_compute; reflexivity|].
  split; vm_compute; reflexivity.
Qed.

(** C6. The validator passes a candidate exactly when every rule of the
    specification holds for it: the four keys are present, the question is
    not empty after trimming and ends with a question mark, the options
    are a mapping with exactly the keys a, b, c, d, the correct answer is
    one of them, the trimmed explanation has at least 10 characters, and a
    difficulty, when present, is Easy, Medium or Hard. One failing rule
    and the candidate does not pass. [_validate_question_data] is a
    function of the candidate alone: it reads no state and changes none. *)
Theorem validator_passes_exactly_when_the_rules_hold (data : JSON) :
  _validate_question_data data = Ret true <-> rules_hold data.
Proof.
  split.
  - apply validate_sound.
  - apply validate_complete.
Qed.

(** The boundary cases of the specification. *)
Example three_options_fail :
  _validate_question_data
    (candidate [("a", JStr "1"); ("b", JStr "2"); ("c", JStr "3")]
       "a" "Because it is so.")
  = Ret false.
Proof. reflexivity. Qed.

Example answer_e_fails :
  _validate_question_data (candidate four_options "e" "Because it is so.")
  = Ret false.
Proof. reflexivity. Qed.

Example explanation_ok_fails :
  _validate_question_data (candidate four_options "a" "ok") = Ret false.
Proof. reflexivity. Qed.

Example explanation_of_nine_fails :
  _validate_question_data (candidate four_options "a" "  123456789  ")
  = Ret false.
Proof. reflexivity. Qed.

Example explanation_of_ten_passes :
  _validate_question_data (candidate four_options "a" "  1234567890  ")
  = Ret true.
Proof. reflexivity. Qed.

Example other_difficulty_fails :
  _validate_question_data
    (JDict [("question", JStr "What is X?"); ("options", JDict four_options);
            ("correct_answer", JStr "a");
            ("explanation", JStr "Because it is so.");
            ("difficulty", JStr "easy")])
  = Ret false.
Proof. reflexivity. Qed.

(** C7, as the code has it. Every question [generate_test] returns has
    the shape the validator checked: a question text that ends with a
    question mark, options that are a mapping with exactly the keys a, b,
    c, d, a correct answer among them and an explanation of at least 10
    characters. The option texts themselves are not checked. *)
Theorem accepted_questions_have_the_validated_shape
    (json_loads : string -> Res JSON) (llm : nat -> string -> Res string)
    (tech diff : string) (n : Z) (limit : nat) :
  Forall accepted_shape
    (result_questions (generate_test json_loads llm limit tech diff n)).
Proof.
  rewrite result_questions_final.
  pose proof (run_ends_well json_loads llm tech diff n limit _
                (inv_initial json_loads llm tech diff n)) as [Hs _].
  eapply Forall_impl; [|exact (sinv_from _ _ _ _ _ _ Hs)].
  apply from_model_shape.
Qed.

(** C7 fails as stated: the line-by-line tier reads the four fields of a
    completion whose object is not closed, puts four empty option texts
    in place of options it cannot decode, the validator passes the
    candidate and the run accepts it. *)
Lemma placeholder_options_are_accepted :
  let r := generate_test Json.loads (always unclosed) 25 "Python" "Easy" 1 in
  extract_json Json.loads unclosed
  = Ret (JDict [("question", JStr "What is X?");
                ("options", placeholder_options);
                ("correct_answer", JStr "a");
                ("explanation", JStr "Because it is so.")])
  /\ total_questions r = 1
  /\ map option_texts (result_questions r)
     = [[JStr ""; JStr ""; JStr ""; JStr ""]]
  /\ result_errors r = [].
Proof. vm_compute. repeat split; reflexivity. Qed.

(** C8, as the code has it. No two accepted questions have the same
    lower-cased question text, so of any one text at most one question is
    accepted, whatever the model returns; the texts are compared as they
    are, white space included. *)
Theorem accepted_texts_are_distinct
    (json_loads : string -> Res JSON) (llm : nat -> string -> Res string)
    (tech diff : string) (n : Z) (limit : nat) (t : string) :
  let accepted :=
    result_questions (generate_test json_loads llm limit tech diff n) in
  NoDup (map lowered accepted)
  /\ Forall (fun q => lowered q <> None) accepted
  /\ (length (filter (has_text t) accepted) <= 1)%nat.
Proof.
  cbn zeta. rewrite result_questions_final.
  pose proof (run_ends_well json_loads llm tech diff n limit _
                (inv_initial json_loads llm tech diff n)) as [Hs _].
  pose proof (sinv_nodup _ _ _ _ _ _ Hs) as Hnd.
  split; [exact Hnd | split].
  - eapply Forall_impl; [|exact (sinv_from _ _ _ _ _ _ Hs)].
    intros q Hq. apply shape_lowered. eapply from_model_shape. exact Hq.
  - apply distinct_texts_once. exact Hnd.
Qed.

(** C8 fails as stated: two completions whose questions differ by a
    trailing blank are both accepted; and with the same completion on
    every call and a target of two the error list never holds more than
    the one duplicate entry, so the run does not end by the failure
    budget: it goes on until the engine gives up. *)
Lemma texts_are_compared_with_their_white_space :
  (let r := generate_test Json.loads (replay [mcq "Is X?"; mcq "Is X? "]) 25
              "Python" "Easy" 2 in
   map question (result_questions r) = [JStr "Is X?"; JStr "Is X? "]
   /\ result_errors r = [])
  /\ (forall limit, exists k s,
        run Json.loads (always (mcq "What is X?")) limit
          (initial_config "Python" "Easy" 2)
        = Failed GraphRecursionError k s
        /\ (length (questions s) <= 1)%nat).
Proof.
  split.
  - vm_compute. split; reflexivity.
  - intros limit.
    apply (same_text_never_finishes Json.loads
             (always (mcq "What is X?")) "Python" "Easy" 2
             "what is x?" limit).
    + lia.
    + intros k. eexists. vm_compute. reflexivity.
    + intros k q Hq. vm_compute in Hq. inversion Hq; subst. reflexivity.
Qed.

(** C9. For a target of at least one, the number of accepted questions
    never exceeds the target: not at any point a run passes through, and
    not in what [generate_test] returns. The generate step leaves the
    accepted list as it is, the validate step appends at most one
    question to it, and [should_continue] answers [END] as soon as the
    target is reached. *)
Theorem accepted_never_exceeds_the_target
    (json_loads : string -> Res JSON) (llm : nat -> string -> Res string)
    (tech diff : string) (n : Z) :
  (1 <= n)%Z ->
  (forall c, reachable json_loads llm (initial_config tech diff n) c ->
             (Z.of_nat (length (questions (state c))) <= n)%Z)
  /\ (forall limit,
        (Z.of_nat (total_questions
                     (generate_test json_loads llm limit tech diff n))
         <= n)%Z)
  /\ (forall model st,
        questions (generate_single_question json_loads model st)
        = questions st)
  /\ (forall st,
        match validate_and_add_question st with
        | Ret st' =>
            questions st' = questions st
            \/ exists q, questions st' = (questions st ++ [q])%list
        | Raise _ => True
        end)
  /\ (forall st,
        (num_questions st <= Z.of_nat (length (questions st)))%Z ->
        should_continue st = END).
Proof.
  intros Hn. repeat split.
  - intros c Hc. apply inv_reachable in Hc.
    apply (inv_bounds json_loads llm tech diff n c Hc). exact Hn.
  - intros limit.
    pose proof (run_ends_well json_loads llm tech diff n limit _
                  (inv_initial json_loads llm tech diff n))
      as [_ [_ [Hle _]]].
    unfold generate_test, ainvoke. fold (initial_config tech diff n).
    destruct (run json_loads llm limit (initial_config tech diff n));
      cbn [total_questions]; apply Hle; exact Hn.
  - intros model st.
    destruct (generate_cases json_loads model st) as [[q Hq]|Hno].
    + rewrite (generate_success _ _ _ _ Hq). reflexivity.
    + rewrite (generate_failure _ _ _ Hno). reflexivity.
  - intros st. unfold validate_and_add_question.
    destruct (current_question st) as [cq|]; [|left; reflexivity].
    destruct (is_duplicate cq (questions st)) as [[|]|e]; cbn [bind].
    + left. reflexivity.
    + right. exists cq. reflexivity.
    + exact I.
  - intros st Hst. apply should_continue_END. left. exact Hst.
Qed.

Lemma accepted_never_exceeds_the_target_witness :
  (forall c,
      reachable Json.loads (replay [mcq "Q1?"; mcq "q1?"; mcq "Q2?"])
        (initial_config "Python" "Easy" 2) c ->
      (Z.of_nat (length (questions (state c))) <= 2)%Z)
  /\ (forall limit,
        (Z.of_nat (total_questions
                     (generate_test Json.loads
                        (replay [mcq "Q1?"; mcq "q1?"; mcq "Q2?"])
                        limit "Python" "Easy" 2))
         <= 2)%Z)
  /\ (forall model st,
        questions (generate_single_question Json.loads model st)
        = questions st)
  /\ (forall st,
        match validate_and_add_question st with
        | Ret st' =>
            questions st' = questions st
            \/ exists q, questions st' = (questions st ++ [q])%list
        | Raise _ => True
        end)
  /\ (forall st,
        (num_questions st <= Z.of_nat (length (questions st)))%Z ->
        should_continue st = END).
Proof.
  apply (accepted_never_exceeds_the_target
           Json.loads (replay [mcq "Q1?"; mcq "q1?"; mcq "Q2?"])
           "Python" "Easy" 2).
  lia.
Defined.

(** The target of the witness is met with a duplicate on the way. *)
Example target_of_two_with_a_duplicate :
  let r := generate_test Json.loads
             (replay [mcq "Q1?"; mcq "q1?"; mcq "Q2?"]) 25
             "Python" "Easy" 2 in
  result_questions r = [mcq_question "Q1?"; mcq_question "Q2?"]
  /\ total_questions r = 2.
Proof. vm_compute. split; reflexivity. Qed.

(** A candidate the validator passed has the four keys the generate
    step reads: building the question does not fail. *)
Lemma validated_formats (data : JSON) :
  _validate_question_data data = Ret true ->
  exists d vq vo va ve,
    data = JDict d
    /\ Dict.get "question" d = Some vq
    /\ Dict.get "options" d = Some vo
    /\ Dict.get "correct_answer" d = Some va
    /\ Dict.get "explanation" d = Some ve
    /\ format_question data = Ret (mkQuestion vq vo (mkAnswer va ve)).
Proof.
  intros H. apply validate_sound in H.
  destruct H as [d [-> [_ [[q [Hq _]] [[o [Ho _]] [[a [Ha _]] [[e [He _]] _]]]]]]].
  exists d, (JStr q), (JDict o), (JStr a), (JStr e).
  split; [reflexivity|]. split; [exact Hq|]. split; [exact Ho|].
  split; [exact Ha|]. split; [exact He|].
  unfold format_question. cbn [getitem]. rewrite Hq, Ho, Ha, He.
  reflexivity.
Qed.

(** C10. A cycle whose call leaves the generate step without a candidate
    appends exactly two entries and leaves the accepted list as it is.
    The first entry is the one the generate step makes of the call of
    this cycle: the exception of the call behind "Error generating
    question: "; the exception of the parser, or of the validator,
    behind "Failed to parse LLM response as JSON: " or "Unexpected error
    during JSON extraction: " and in front of the whole completion; or
    "Invalid question format received from LLM" for a candidate the
    validator turned down. The second is the entry of the validate step
    that found no candidate. So three such calls at the start of a run
    use up the budget: the run ends behind the third call, with these
    six entries and nothing accepted. *)
Theorem failed_cycles_log_two_entries_each
    (json_loads : string -> Res JSON) (llm : nat -> string -> Res string)
    (tech diff : string) (n : Z) (limit : nat) :
  (1 <= n)%Z -> (6 <= limit)%nat ->
  (forall k, (k < 3)%nat ->
     forall q, candidate_of json_loads (llm k) tech diff <> Ret (Some q)) ->
  (forall model st,
      (forall q, candidate_of json_loads model (technology st)
                   (difficulty st) <> Ret (Some q)) ->
      let prompt := format_prompt (technology st) (difficulty st) in
      let entry :=
        failure_entry json_loads model (technology st) (difficulty st) in
      (exists st',
          validate_and_add_question
            (generate_single_question json_loads model st) = Ret st'
          /\ contents (errors st')
             = (contents (errors st)
                ++ [entry; "No valid question to add"])%list
          /\ questions st' = questions st
          /\ current_question st' = None)
      /\ entry <> ""
      /\ ((exists e,
              model prompt = Raise e
              /\ entry = "Error generating question: " ++ str_exn e)
          \/ (exists raw e,
                 model prompt = Ret raw
                 /\ extract_json json_loads (Str.strip raw) = Raise e
                 /\ entry
                    = (if is_JSONDecodeError e
                       then "Failed to parse LLM response as JSON: "
                       else "Unexpected error during JSON extraction: ")
                      ++ str_exn e ++ ". Raw response: " ++ Str.strip raw)
          \/ (exists raw data e,
                 model prompt = Ret raw
                 /\ extract_json json_loads (Str.strip raw) = Ret data
                 /\ _validate_question_data data = Raise e
                 /\ entry
                    = (if is_JSONDecodeError e
                       then "Failed to parse LLM response as JSON: "
                       else "Unexpected error during JSON extraction: ")
                      ++ str_exn e ++ ". Raw response: " ++ Str.strip raw)
          \/ (exists raw data,
                 model prompt = Ret raw
                 /\ extract_json json_loads (Str.strip raw) = Ret data
                 /\ _validate_question_data data = Ret false
                 /\ entry = "Invalid question format received from LLM")))
  /\ run json_loads llm limit (initial_config tech diff n)
     = Finished 3
         (mkState tech diff []
            (mkLog [failure_entry json_loads (llm 0) tech diff;
                    "No valid question to add";
                    failure_entry json_loads (llm 1) tech diff;
                    "No valid question to add";
                    failure_entry json_loads (llm 2) tech diff;
                    "No valid question to add"] None)
            n None).
Proof.
  intros Hn Hlimit Hno. split.
  - intros model st H. cbn zeta. split; [|split].
    + eexists. split; [apply (failed_cycle json_loads model st H)|].
      split; [apply contents_failed | split; reflexivity].
    + unfold failure_entry, parse_error_entry.
      destruct (model (format_prompt (technology st) (difficulty st)))
        as [raw|e]; [|discriminate].
      destruct (parse_and_validate json_loads (Str.strip raw))
        as [[q|]|e]; [discriminate | discriminate |].
      destruct (is_JSONDecodeError e); discriminate.
    + unfold candidate_of in H. unfold failure_entry.
      destruct (model (format_prompt (technology st) (difficulty st)))
        as [raw|e] eqn:Em; cbn [bind] in H.
      2: { left. exists e. split; reflexivity. }
      right. unfold parse_and_validate in *.
      destruct (extract_json json_loads (Str.strip raw)) as [data|e] eqn:Ex;
        cbn [bind] in *.
      2: { left. exists raw, e. split; [reflexivity|].
           split; [exact Ex|]. unfold parse_error_entry.
           destruct (is_JSONDecodeError e); reflexivity. }
      right. destruct (_validate_question_data data) as [[|]|e] eqn:Ev;
        cbn [bind] in *.
      * exfalso.
        destruct (validated_formats data Ev)
          as [d [vq [vo [va [ve [_ [_ [_ [_ [_ Hf]]]]]]]]]].
        rewrite Hf in H. cbn [bind] in H. eapply H. reflexivity.
      * right. exists raw, data. split; [reflexivity|].
        split; [exact Ex|]. split; [exact Ev | reflexivity].
      * left. exists raw, data, e. split; [reflexivity|].
        split; [exact Ex|]. split; [exact Ev|].
        unfold parse_error_entry.
        destruct (is_JSONDecodeError e); reflexivity.
  - apply (three_failures_run json_loads llm tech diff n limit Hn Hlimit Hno).
Qed.

Lemma failed_cycles_log_two_entries_each_witness :
  run Json.loads failing 25 (initial_config "Python" "Easy" 2)
  = Finished 3
      (mkState "Python" "Easy" []
         (mkLog [failure_entry Json.loads (failing 0) "Python" "Easy";
                 "No valid question to add";
                 failure_entry Json.loads (failing 1) "Python" "Easy";
                 "No valid question to add";
                 failure_entry Json.loads (failing 2) "Python" "Easy";
                 "No valid question to add"] None)
         2 None).
Proof.
  apply (failed_cycles_log_two_entries_each
           Json.loads
           failing
           "Python" "Easy" 2 25).
  - lia.
  - lia.
  - intros k Hk q. destruct k as [|[|[|k]]];
      [vm_compute; discriminate .. | lia].
Defined.

(** The three forms of the entry, on the model of the witness: its first
    call fails, its second completion is no JSON, its third lacks keys. *)
Example failing_model_logs_the_three_forms :
  contents
    (errors
       (final_state
          (run Json.loads failing 25 (initial_config "Python" "Easy" 2))))
  = ["Error generating question: deadline exceeded";
     "No valid question to add";
     "Unexpected error during JSON extraction: Failed to parse LLM response after all attempts. Raw response: garbage.... Raw response: garbage";
     "No valid question to add";
     "Invalid question format received from LLM";
     "No valid question to add"].
Proof. vm_compute. reflexivity. Qed.

(* ================================================================== *)
(** ** Further properties of the run, the parser and the callers *)
(* ================================================================== *)

Lemma same_text_In (q : Question) (acc : list Question) :
  lowered q <> None ->
  existsb (same_text q) acc = true <-> In (lowered q) (map lowered acc).
Proof.
  intros Hq. rewrite existsb_exists, in_map_iff. unfold same_text.
  split.
  - intros [x [Hx H]]. exists x. split; [|assumption].
    destruct (lowered x) as [a|]; [|discriminate].
    destruct (lowered q) as [b|]; [|discriminate].
    apply String.eqb_eq in H. now subst.
  - intros [x [Hx H]]. exists x. split; [assumption|].
    rewrite Hx. destruct (lowered q) as [b|]; [|congruence].
    apply String.eqb_refl.
Qed.

Section Cycle.

Variable json_loads : string -> Res JSON.
Variable llm : nat -> string -> Res string.
Variables (tech diff : string) (n : Z).

Local Abbreviation cand := (fun k => candidate_of json_loads (llm k) tech diff).
Local Abbreviation Inv := (Inv json_loads llm tech diff n).
Local Abbreviation StateInv := (StateInv json_loads llm tech diff n).
Local Abbreviation History := (History json_loads llm tech diff).
Local Abbreviation kept := (kept json_loads llm tech diff).
Local Abbreviation unstored := (unstored json_loads llm tech diff).
Local Abbreviation reported := (reported json_loads llm tech diff).

Lemma history_initial : History 0 (initial_state tech diff n).
Proof. constructor; simpl; tauto. Qed.

(** One cycle from a state in front of [generate]: the three ways it can
    go. *)
Lemma cycle_cases (k : nat) (st : WorkflowState) :
  Inv (mkConfig generate k st) -> History k st ->
  exists st',
    validate_and_add_question
      (generate_single_question json_loads (llm k) st) = Ret st'
    /\ History (S k) st'
    /\ StateInv st'
    /\ current_question st' = None
    /\ ((cand k = Ret None \/ exists e, cand k = Raise e)
        /\ questions st' = questions st
        /\ contents (errors st')
           = (contents (errors st)
              ++ [failure_entry json_loads (llm k) tech diff;
                  no_candidate_entry])%list
        \/ exists q, cand k = Ret (Some q)
           /\ (~ In (lowered q) (map lowered (questions st))
               /\ questions st' = (questions st ++ [q])%list
               /\ contents (errors st') = []
               \/ In (lowered q) (map lowered (questions st))
                  /\ questions st' = questions st
                  /\ contents (errors st')
                     = ["Duplicate question detected"])).
Proof.
  intros HI [Hk Hr Hb].
  pose proof (inv_generate _ _ _ _ _ _ HI eq_refl) as HI2.
  cbn [calls state] in HI2.
  destruct (validate_effect _ _ _ _ _ _ HI2 eq_refl)
    as [st' [Hv [Hs [Hcur _]]]].
  cbn [state] in Hv.
  exists st'. split; [exact Hv|].
  destruct HI as [[Ht Hd Hn Hfrom Hnd] _ _ _]. cbn [state] in *.
  assert (Hshape : Forall accepted_shape (questions st)).
  { eapply Forall_impl; [|exact Hfrom]. intros q [i Hi].
    eapply candidate_shape. eassumption. }
  destruct (candidate_of json_loads (llm k) tech diff) as [[q|]|e] eqn:Ec.
  - (* a candidate is stored *)
    assert (Ec' : candidate_of json_loads (llm k) (technology st)
                    (difficulty st) = Ret (Some q))
      by (rewrite Ht, Hd; exact Ec).
    rewrite (generate_success _ _ _ _ Ec') in Hv.
    assert (Hq : accepted_shape q) by (eapply candidate_shape; eassumption).
    unfold validate_and_add_question in Hv.
    cbn [current_question questions with_errors with_current] in Hv.
    destruct (is_duplicate_lowered q (questions st)) as [[Hd1 Hd2]|[Hd1 Hd2]].
    + now apply shape_lowered.
    + eapply Forall_impl; [|exact Hshape]. intros q'. apply shape_lowered.
    + rewrite Hd1 in Hv. cbn [bind] in Hv. injection Hv as <-.
      split; [|split; [exact Hs | split; [reflexivity|]]].
      * constructor; cbn.
        -- rewrite Ec. cbn [keep].
           replace (existsb (same_text q) (kept k)) with true; [exact Hk|].
           symmetry. apply same_text_In; [now apply shape_lowered|].
           now rewrite <- Hk.
        -- rewrite Ec. cbn. rewrite andb_false_r, app_nil_r. exact Hr.
        -- rewrite Ec. cbn. rewrite andb_false_r. split; discriminate.
      * right. exists q. split; [reflexivity|]. right.
        split; [assumption | split; reflexivity].
    + rewrite Hd1 in Hv. cbn [bind] in Hv. injection Hv as <-.
      split; [|split; [exact Hs | split; [reflexivity|]]].
      * constructor; cbn.
        -- rewrite Ec. cbn [keep].
           replace (existsb (same_text q) (kept k)) with false;
             [now rewrite Hk|].
           symmetry. apply not_true_is_false. intros H.
           apply same_text_In in H; [|now apply shape_lowered].
           apply Hd2. now rewrite Hk.
        -- rewrite Ec. cbn. rewrite andb_false_r, app_nil_r. exact Hr.
        -- rewrite Ec. cbn. rewrite andb_false_r. split; discriminate.
      * right. exists q. split; [reflexivity|]. left.
        split; [assumption | split; reflexivity].
  - (* the validator turned the candidate down *)
    assert (Hno : forall q, candidate_of json_loads (llm k) (technology st)
                              (difficulty st) <> Ret (Some q))
      by (rewrite Ht, Hd, Ec; discriminate).
    rewrite (failed_cycle _ _ _ Hno) in Hv. rewrite Ht, Hd in Hv.
    injection Hv as <-.
    split; [|split; [exact Hs | split; [reflexivity|]]].
    + constructor.
      * cbn. rewrite Ec. exact Hk.
      * cbn [kept unstored reported]. rewrite Ec. cbn [is_candidate negb].
        rewrite andb_true_r. unfold failed, log_error. cbn.
        unfold append. cbn.
        destruct (rebound (errors st)) as [l|] eqn:Er; cbn.
        -- destruct (unstored k); [|now rewrite app_nil_r].
           destruct Hb as [_ Hb]. specialize (Hb eq_refl). discriminate.
        -- destruct Hb as [Hb _]. rewrite (Hb eq_refl).
           rewrite <- app_assoc. cbn. now rewrite Hr.
      * cbn [kept unstored reported]. rewrite Ec. cbn [is_candidate negb].
        rewrite andb_true_r. unfold failed, log_error. cbn.
        unfold append. cbn.
        destruct (rebound (errors st)) as [l|] eqn:Er; cbn.
        -- rewrite <- Hb. split; discriminate.
        -- rewrite <- Hb. tauto.
    + left. split; [left; reflexivity|]. split; [reflexivity|].
      apply contents_failed.
  - (* the call, the parser or the validator raised *)
    assert (Hno : forall q, candidate_of json_loads (llm k) (technology st)
                              (difficulty st) <> Ret (Some q))
      by (rewrite Ht, Hd, Ec; discriminate).
    rewrite (failed_cycle _ _ _ Hno) in Hv. rewrite Ht, Hd in Hv.
    injection Hv as <-.
    split; [|split; [exact Hs | split; [reflexivity|]]].
    + constructor.
      * cbn. rewrite Ec. exact Hk.
      * cbn [kept unstored reported]. rewrite Ec. cbn [is_candidate negb].
        rewrite andb_true_r. unfold failed, log_error. cbn.
        unfold append. cbn.
        destruct (rebound (errors st)) as [l|] eqn:Er; cbn.
        -- destruct (unstored k); [|now rewrite app_nil_r].
           destruct Hb as [_ Hb]. specialize (Hb eq_refl). discriminate.
        -- destruct Hb as [Hb _]. rewrite (Hb eq_refl).
           rewrite <- app_assoc. cbn. now rewrite Hr.
      * cbn [kept unstored reported]. rewrite Ec. cbn [is_candidate negb].
        rewrite andb_true_r. unfold failed, log_error. cbn.
        unfold append. cbn.
        destruct (rebound (errors st)) as [l|] eqn:Er; cbn.
        -- rewrite <- Hb. split; discriminate.
        -- rewrite <- Hb. tauto.
    + left. split; [right; eauto|]. split; [reflexivity|].
      apply contents_failed.
Qed.

End Cycle.

Section Outcome.

Variable json_loads : string -> Res JSON.
Variable llm : nat -> string -> Res string.
Variables (tech diff : string) (n : Z).

Local Abbreviation cand := (fun k => candidate_of json_loads (llm k) tech diff).
Local Abbreviation Inv := (Inv json_loads llm tech diff n).
Local Abbreviation StateInv := (StateInv json_loads llm tech diff n).
Local Abbreviation History := (History json_loads llm tech diff).
Local Abbreviation kept := (kept json_loads llm tech diff).
Local Abbreviation unstored := (unstored json_loads llm tech diff).
Local Abbreviation reported := (reported json_loads llm tech diff).

Lemma run_cycle (limit k : nat) (st st' : WorkflowState) :
  validate_and_add_question
    (generate_single_question json_loads (llm k) st) = Ret st' ->
  run json_loads llm (S (S limit)) (mkConfig generate k st)
  = match should_continue st' with
    | END => Finished (S k) st'
    | to_generate => run json_loads llm limit (mkConfig generate (S k) st')
    end.
Proof.
  intros H. cbn [run step node calls state]. rewrite H.
  destruct (should_continue st'); reflexivity.
Qed.

Lemma inv_cycle (k : nat) (st st' : WorkflowState) :
  Inv (mkConfig generate k st) ->
  validate_and_add_question
    (generate_single_question json_loads (llm k) st) = Ret st' ->
  should_continue st' = to_generate ->
  Inv (mkConfig generate (S k) st').
Proof.
  intros HI Hv Hsc.
  eapply inv_step; [eapply inv_step; [exact HI | reflexivity]|].
  unfold step. cbn [node calls state]. rewrite Hv, Hsc. reflexivity.
Qed.

Lemma pair_induction (P : nat -> Prop) :
  P 0%nat -> P 1%nat -> (forall m, P m -> P (S (S m))) -> forall m, P m.
Proof.
  intros H0 H1 HS.
  assert (H : forall m, P m /\ P (S m)).
  { induction m as [|m [IH1 IH2]]; [split; assumption|].
    split; [assumption | now apply HS]. }
  intros m. apply H.
Qed.

(** How a run from a state in front of [generate] ends: behind a whole
    cycle when it reaches [END]; where the engine stops it otherwise, in
    front of [generate] or in front of [validate]. *)
Lemma run_outcome (limit : nat) :
  forall (k : nat) (st : WorkflowState),
  Inv (mkConfig generate k st) -> History k st ->
  match run json_loads llm limit (mkConfig generate k st) with
  | Finished k' s =>
      (k <= k' - 1)%nat /\ (1 <= k')%nat
      /\ (k' - k <= Nat.div2 limit)%nat
      /\ History k' s /\ StateInv s /\ should_continue s = END
      /\ exists s0,
           Inv (mkConfig generate (k' - 1) s0) /\ History (k' - 1) s0
           /\ validate_and_add_question
                (generate_single_question json_loads (llm (k' - 1)) s0)
              = Ret s
  | Failed e k' s =>
      e = GraphRecursionError
      /\ exists s0,
           Inv (mkConfig generate (k + Nat.div2 limit) s0)
           /\ History (k + Nat.div2 limit) s0
           /\ if Nat.even limit
              then k' = (k + Nat.div2 limit)%nat /\ s = s0
              else k' = S (k + Nat.div2 limit)
                   /\ s = generate_single_question json_loads
                            (llm (k + Nat.div2 limit)) s0
  end.
Proof.
  induction limit as [| |limit IH] using pair_induction; intros k st HI HH.
  - cbn. split; [reflexivity|]. exists st. rewrite Nat.add_0_r. auto.
  - cbn. split; [reflexivity|]. exists st. rewrite Nat.add_0_r. auto.
  - destruct (cycle_cases _ _ _ _ _ _ _ HI HH)
      as [st' [Hv [HH' [Hs [Hcur _]]]]].
    rewrite (run_cycle _ _ _ _ Hv).
    destruct (should_continue st') eqn:Hsc.
    + cbn [Nat.div2]. replace (S k - 1)%nat with k by lia.
      generalize (Nat.div2 limit) as half. intros half.
      split; [lia|]. split; [lia|]. split; [lia|].
      split; [exact HH'|]. split; [exact Hs|]. split; [exact Hsc|].
      exists st. split; [exact HI|]. split; [exact HH | exact Hv].
    + pose proof (inv_cycle _ _ _ HI Hv Hsc) as HI'.
      specialize (IH (S k) st' HI' HH').
      destruct (run json_loads llm limit (mkConfig generate (S k) st')) as [k' s|e k' s].
      * destruct IH as [H1 [H2 [H3 H4]]]. cbn [Nat.div2].
        revert H3. generalize (Nat.div2 limit) as half. intros half H3.
        split; [lia|]. split; [lia|]. split; [lia|]. exact H4.
      * cbn [Nat.div2 Nat.even].
        replace (k + S (Nat.div2 limit))%nat
          with (S k + Nat.div2 limit)%nat
          by (generalize (Nat.div2 limit); intros; lia).
        exact IH.
Qed.

Lemma generate_keeps_questions (model : string -> Res string)
    (st : WorkflowState) :
  questions (generate_single_question json_loads model st) = questions st.
Proof.
  unfold generate_single_question.
  destruct (model _) as [text|e]; [|reflexivity].
  destruct (parse_and_validate json_loads (Str.strip text)) as [[q|]|e];
    [reflexivity | reflexivity |].
  destruct (is_JSONDecodeError e); reflexivity.
Qed.

Lemma div2_le (m : nat) : (2 * Nat.div2 m <= m)%nat.
Proof.
  induction m as [| |m IH] using pair_induction; cbn [Nat.div2];
    [lia | lia |].
  revert IH. generalize (Nat.div2 m). intros; lia.
Qed.

Lemma div2_S (m : nat) :
  Nat.div2 (S m) = if Nat.even m then Nat.div2 m else S (Nat.div2 m).
Proof.
  induction m as [| |m IH] using pair_induction; [reflexivity..|].
  change (Nat.div2 (S (S (S m)))) with (S (Nat.div2 (S m))).
  rewrite IH. cbn [Nat.even Nat.div2]. destruct (Nat.even m); reflexivity.
Qed.

(** X1. The questions [generate_test] returns are the candidates of the
    cycles the run completed, in the order of the calls, each one kept
    unless a question kept before it has the same lower-cased text. The
    completed cycles are as many as the calls made, and half the node
    runs the engine allows (rounded down) when the engine stopped the
    run. *)
Theorem accepted_list_is_first_occurrences_in_call_order (limit : nat) :
  result_questions (generate_test json_loads llm limit tech diff n)
  = kept (Nat.min (calls_made (run json_loads llm limit (initial_config tech diff n)))
                  (Nat.div2 limit)).
Proof.
  rewrite result_questions_final.
  pose proof (run_outcome limit 0 _ (inv_initial _ _ _ _ _)
                (history_initial _ _ _ _ _)) as H.
  unfold initial_config.
  destruct (run json_loads llm limit (mkConfig generate 0 (initial_state tech diff n)))
    as [k s|e k s]; cbn [final_state calls_made].
  - destruct H as [_ [_ [Hk [[Hq _ _] _]]]].
    revert Hk. generalize (Nat.div2 limit) as half. intros half Hk.
    rewrite Nat.min_l by lia. exact Hq.
  - destruct H as [_ [s0 [_ [[Hq _ _] H]]]]. cbn [Nat.add] in *.
    destruct (Nat.even limit); destruct H as [-> ->].
    + rewrite Nat.min_id. exact Hq.
    + rewrite generate_keeps_questions, Nat.min_r
        by apply Nat.le_succ_diag_r.
      exact Hq.
Qed.

(** X9. The model is called once per cycle. A run that reached [END]
    made at least one call and took two node runs per call; a run the
    engine stopped made half as many calls as the engine allows node
    runs, rounded up. *)
Theorem one_call_per_cycle (limit : nat) :
  match run json_loads llm limit (initial_config tech diff n) with
  | Finished k _ => (1 <= k)%nat /\ (2 * k <= limit)%nat
  | Failed _ k _ => k = Nat.div2 (S limit)
  end.
Proof.
  pose proof (run_outcome limit 0 _ (inv_initial _ _ _ _ _)
                (history_initial _ _ _ _ _)) as H.
  unfold initial_config.
  destruct (run json_loads llm limit (mkConfig generate 0 (initial_state tech diff n)))
    as [k s|e k s].
  - destruct H as [_ [H1 [Hk _]]].
    pose proof (div2_le limit) as Hl. revert Hk Hl.
    generalize (Nat.div2 limit) as half. intros half Hk Hl. lia.
  - destruct H as [_ [s0 [_ [_ H]]]]. cbn [Nat.add] in *.
    rewrite div2_S.
    destruct (Nat.even limit); destruct H as [-> _]; reflexivity.
Qed.

Lemma kept_from (k : nat) (q : Question) :
  In q (kept k) -> exists i, (i < k)%nat /\ cand i = Ret (Some q).
Proof.
  induction k as [|k IH]; [intros []|].
  cbn.
  destruct (candidate_of json_loads (llm k) tech diff) as [[q'|]|e] eqn:E;
    cbn [keep].
  - destruct (existsb (same_text q') (kept k)).
    + intros H. destruct (IH H) as [i [Hi Hc]]. exists i. split; [lia|exact Hc].
    + intros H. apply in_app_or in H. destruct H as [H|[<-|[]]].
      * destruct (IH H) as [i [Hi Hc]]. exists i. split; [lia|exact Hc].
      * exists k. split; [lia | exact E].
  - intros H. destruct (IH H) as [i [Hi Hc]]. exists i. split; [lia|exact Hc].
  - intros H. destruct (IH H) as [i [Hi Hc]]. exists i. split; [lia|exact Hc].
Qed.

(** How a run ends whose candidates all differ: by its target, with an
    empty error list, or behind three failed cycles in a row. *)
Lemma distinct_run (m : nat) :
  (forall i j qi qj, (i < j)%nat ->
     cand i = Ret (Some qi) -> cand j = Ret (Some qj) ->
     lowered qi <> lowered qj) ->
  forall (k f limit : nat) (st : WorkflowState),
  Inv (mkConfig generate k st) -> History k st ->
  length (contents (errors st)) = (2 * f)%nat -> (f <= 2)%nat ->
  (Z.of_nat (length (questions st)) < n)%Z ->
  (3 * (Z.to_nat n - length (questions st)) - f <= m)%nat ->
  (2 * m <= limit)%nat ->
  exists k' s,
    run json_loads llm limit (mkConfig generate k st) = Finished k' s
    /\ (k' <= k + (3 * (Z.to_nat n - length (questions st)) - f))%nat
    /\ ((Z.of_nat (length (questions s)) = n /\ contents (errors s) = [])
        \/ ((Z.of_nat (length (questions s)) < n)%Z
            /\ length (contents (errors s)) = 6%nat)).
Proof.
  intros Hdist. induction m as [|m IH];
    intros k f limit st HI HH Hf Hf2 Hq Hm Hl.
  - lia.
  - do 2 (destruct limit as [|limit]; [lia|]).
    destruct (cycle_cases _ _ _ _ _ _ _ HI HH)
      as [st' [Hv [HH' [Hs [Hcur Hcases]]]]].
    rewrite (run_cycle _ _ _ _ Hv).
    pose proof (sinv_num _ _ _ _ _ _ Hs) as Hn'.
    destruct Hcases as [[_ [Hqs He]]|[q [Hc [[Hnew [Hqs He]]|[Hdup _]]]]].
    + (* a failed cycle *)
      assert (Hlen : length (contents (errors st')) = (2 * S f)%nat)
        by (rewrite He, length_app, Hf; simpl; lia).
      destruct (should_continue st') eqn:Hsc.
      * apply should_continue_END in Hsc. rewrite Hn', Hqs in Hsc.
        eexists _, _. split; [reflexivity|]. split; [lia|].
        right. rewrite Hqs. split; [assumption | lia].
      * pose proof (inv_cycle _ _ _ HI Hv Hsc) as HI'.
        apply should_continue_generate in Hsc.
        destruct (IH (S k) (S f) limit st' HI' HH' Hlen)
          as [k' [s [Hrun [Hk' Hend]]]]; try (rewrite ?Hqs; lia).
        exists k', s. split; [exact Hrun|]. split; [|exact Hend].
        rewrite Hqs in Hk'. lia.
    + (* an accepted candidate *)
      assert (Hlq : length (questions st') = S (length (questions st)))
        by (rewrite Hqs, length_app; simpl; lia).
      destruct (should_continue st') eqn:Hsc.
      * apply should_continue_END in Hsc. rewrite Hn', He in Hsc.
        eexists _, _. split; [reflexivity|]. split; [lia|].
        left. split; [|exact He]. simpl in Hsc. lia.
      * pose proof (inv_cycle _ _ _ HI Hv Hsc) as HI'.
        apply should_continue_generate in Hsc. rewrite Hn' in Hsc.
        destruct (IH (S k) 0%nat limit st' HI' HH')
          as [k' [s [Hrun [Hk' Hend]]]];
          try (rewrite ?Hlq, ?He; simpl; lia).
        exists k', s. split; [exact Hrun|]. split; [|exact Hend].
        rewrite Hlq in Hk'. lia.
    + (* a duplicate: there is none *)
      exfalso. apply in_map_iff in Hdup. destruct Hdup as [q' [Hq' Hin]].
      rewrite (hist_kept _ _ _ _ _ _ HH) in Hin.
      destruct (kept_from _ _ Hin) as [i [Hi Hci]].
      exact (Hdist i k q' q Hi Hci Hc Hq').
Qed.

(** X2. When no two calls produce candidates with the same lower-cased
    text and the engine allows [6 * n] node runs or more, a run for a
    target of [n >= 1] questions reaches [END] by itself after at most
    [3 * n] calls: either with exactly [n] questions and an empty error
    list, or short of the target with exactly six entries logged by
    three failed cycles in a row. (With fewer node runs allowed the
    engine may stop the run first.) *)
Theorem distinct_candidates_end_the_run_within_3n_calls (limit : nat) :
  (1 <= n)%Z ->
  (forall i j qi qj, (i < j)%nat ->
     cand i = Ret (Some qi) -> cand j = Ret (Some qj) ->
     lowered qi <> lowered qj) ->
  (6 * Z.to_nat n <= limit)%nat ->
  exists k s,
    run json_loads llm limit (initial_config tech diff n) = Finished k s
    /\ (k <= 3 * Z.to_nat n)%nat
    /\ ((Z.of_nat (length (questions s)) = n /\ contents (errors s) = [])
        \/ ((Z.of_nat (length (questions s)) < n)%Z
            /\ length (contents (errors s)) = 6%nat)).
Proof.
  intros Hn Hdist Hlimit.
  destruct (distinct_run (3 * Z.to_nat n) Hdist 0 0 limit
              (initial_state tech diff n))
    as [k [s [Hrun [Hk Hend]]]];
    try (cbn; lia).
  - apply inv_initial.
  - apply history_initial.
  - exists k, s. split; [exact Hrun|]. split; [|exact Hend].
    cbn in Hk. lia.
Qed.

Lemma kept_length_S (k : nat) :
  (length (kept k) <= length (kept (S k)))%nat.
Proof.
  cbn. destruct (candidate_of json_loads (llm k) tech diff) as [[q|]|e];
    cbn [keep]; try lia.
  destruct (existsb (same_text q) (kept k)); [lia|].
  rewrite length_app. lia.
Qed.

Lemma kept_length_le (j k : nat) :
  (j <= k)%nat -> (length (kept j) <= length (kept k))%nat.
Proof.
  induction 1 as [|k _ IH]; [lia|].
  pose proof (kept_length_S k). lia.
Qed.

(** X3. When every call produces a candidate and all candidates have
    the same lower-cased text, a run for a target of two or more never
    reaches [END]: whatever number of node runs the engine allows (two
    at least), it is stopped by the engine, has called the model in
    every cycle, and holds the first candidate as its only question. *)
Theorem repeated_text_keeps_the_run_going (t : string) (limit : nat) :
  (2 <= n)%Z ->
  (forall k, exists q, cand k = Ret (Some q)) ->
  (forall k q, cand k = Ret (Some q) -> lowered q = Some t) ->
  (2 <= limit)%nat ->
  exists s q,
    run json_loads llm limit (initial_config tech diff n)
    = Failed GraphRecursionError (Nat.div2 (S limit)) s
    /\ cand 0%nat = Ret (Some q)
    /\ questions s = [q].
Proof.
  intros Hn Hwf Hsame Hlimit.
  pose proof (candidates_keep_the_budget json_loads llm tech diff n limit _
                Hwf (inv_initial _ _ _ _ _)) as Hb.
  cbn [node initial_config state initial_state errors contents rebound
       caller_list length] in Hb.
  specialize (Hb (Nat.le_0_l 1)).
  pose proof (run_ends_well json_loads llm tech diff n limit _
                (inv_initial _ _ _ _ _)) as [Hs _].
  apply (same_text_once json_loads llm tech diff n t) in Hs; [|exact Hsame].
  pose proof (run_outcome limit 0 _ (inv_initial _ _ _ _ _)
                (history_initial _ _ _ _ _)) as H.
  unfold initial_config in *.
  destruct (run json_loads llm limit (mkConfig generate 0 (initial_state tech diff n)))
    as [k s|e k s]; cbn [final_state] in Hs.
  - lia.
  - destruct (Hwf 0%nat) as [q Hq].
    destruct H as [-> [s0 [_ [[Hk _ _] H]]]]. cbn [Nat.add] in *.
    assert (Hqs : questions s = kept (Nat.div2 limit)
                  /\ k = Nat.div2 (S limit)).
    { rewrite div2_S.
      destruct (Nat.even limit); destruct H as [-> ->];
        [|rewrite generate_keeps_questions]; split;
        first [exact Hk | reflexivity]. }
    destruct Hqs as [Hqs ->].
    exists s, q. split; [reflexivity|]. split; [exact Hq|].
    assert (H1 : kept 1 = [q]) by (cbn; rewrite Hq; reflexivity).
    assert (Hge : (1 <= Nat.div2 limit)%nat).
    { do 2 (destruct limit as [|limit]; [lia|]). cbn [Nat.div2].
      generalize (Nat.div2 limit). intros; lia. }
    pose proof (kept_length_le _ _ Hge) as Hle. rewrite H1 in Hle.
    cbn [length] in Hle. rewrite Hqs in Hs |- *.
    destruct (kept (Nat.div2 limit)) as [|q1 [|q2 l]] eqn:Ek;
      cbn [length] in *; try lia.
    assert (Hin : In q1 (kept (Nat.div2 limit))) by (rewrite Ek; now left).
    destruct (kept_from _ _ Hin) as [i [_ Hi]].
    (* the one kept question is the first candidate *)
    clear Hin.
    assert (Hpre : forall j, (1 <= j)%nat -> exists l', kept j = q :: l').
    { induction 1 as [|j Hj [l' IHj]]; [exists []; exact H1|].
      cbn. rewrite IHj.
      destruct (candidate_of json_loads (llm j) tech diff) as [[q'|]|e'];
        cbn [keep]; eauto.
      destruct (existsb (same_text q') (q :: l')); eauto.
      exists (l' ++ [q'])%list. reflexivity. }
    destruct (Hpre _ Hge) as [l' Hl']. rewrite Ek in Hl'.
    injection Hl' as -> _. reflexivity.
Qed.

(** X4. A target of zero or less does not keep the workflow from
    calling the model: the run makes exactly one call, reaches [END]
    behind the first cycle, and returns the candidate of that call when
    there is one, so that it returns more questions than asked for. *)
Theorem nonpositive_target_still_runs_one_cycle (limit : nat) :
  (n <= 0)%Z -> (2 <= limit)%nat ->
  exists s,
    run json_loads llm limit (initial_config tech diff n) = Finished 1 s
    /\ questions s = match cand 0%nat with
                     | Ret (Some q) => [q]
                     | _ => []
                     end.
Proof.
  intros Hn Hlimit. do 2 (destruct limit as [|limit]; [lia|]).
  destruct (cycle_cases _ _ _ _ _ _ _ (inv_initial _ _ _ _ _)
              (history_initial json_loads llm tech diff n))
    as [st' [Hv [[Hk _ _] [Hs _]]]].
  unfold initial_config. rewrite (run_cycle _ _ _ _ Hv).
  assert (Hsc : should_continue st' = END).
  { apply should_continue_END. left.
    rewrite (sinv_num _ _ _ _ _ _ Hs). lia. }
  rewrite Hsc. exists st'. split; [reflexivity|].
  rewrite Hk. cbn.
  destruct (candidate_of json_loads (llm 0) tech diff) as [[q|]|e];
    reflexivity.
Qed.

(** X5. A run for a target of [n >= 1] that reached [END] with the
    target met holds exactly [n] questions, an empty [state["errors"]]
    and no pending candidate: the last cycle stored a candidate, which
    empties the list, and added it. *)
Theorem reached_target_leaves_no_errors (limit k : nat) (s : WorkflowState) :
  (1 <= n)%Z ->
  run json_loads llm limit (initial_config tech diff n) = Finished k s ->
  (n <= Z.of_nat (length (questions s)))%Z ->
  Z.of_nat (length (questions s)) = n
  /\ contents (errors s) = []
  /\ current_question s = None.
Proof.
  intros Hn Hrun Hlen.
  pose proof (run_outcome limit 0 _ (inv_initial _ _ _ _ _)
                (history_initial _ _ _ _ _)) as H.
  unfold initial_config in Hrun. rewrite Hrun in H.
  destruct H as [_ [_ [_ [_ [_ [_ [s0 [HI [HH Hv]]]]]]]]].
  destruct (cycle_cases _ _ _ _ _ _ _ HI HH)
    as [st' [Hv' [_ [_ [Hcur Hcases]]]]].
  rewrite Hv in Hv'. injection Hv' as <-.
  assert (Hlt : (Z.of_nat (length (questions s0)) < n)%Z).
  { destruct (inv_len _ _ _ _ _ _ HI) as [H0|H0]; cbn [state] in H0;
      [rewrite H0; simpl; lia | exact H0]. }
  destruct Hcases as [[_ [Hqs _]]|[q [_ [[_ [Hqs He]]|[_ [Hqs _]]]]]].
  - rewrite Hqs in Hlen. lia.
  - rewrite Hqs, length_app in Hlen |- *. simpl in *.
    split; [lia|]. split; assumption.
  - rewrite Hqs in Hlen. lia.
Qed.

(** X6. The error list [generate_test] returns for a run that reached
    [END] after [k] calls holds the entries of the failed cycles in
    front of the first stored candidate, two per cycle, and nothing
    else: what is logged behind the first stored candidate goes to the
    lists the generate step bound anew, which [generate_test] does not
    read. *)
Theorem reported_errors_end_at_the_first_stored_candidate
    (limit k : nat) (s : WorkflowState) :
  run json_loads llm limit (initial_config tech diff n) = Finished k s ->
  result_errors (generate_test json_loads llm limit tech diff n)
  = reported k.
Proof.
  intros Hrun.
  pose proof (run_outcome limit 0 _ (inv_initial _ _ _ _ _)
                (history_initial _ _ _ _ _)) as H.
  unfold generate_test, ainvoke. unfold initial_config in Hrun.
  rewrite Hrun in H |- *. cbn [result_errors].
  destruct H as [_ [_ [_ [[_ Hr _] _]]]]. exact Hr.
Qed.

Lemma failure_entry_is_no_duplicate_entry (model : string -> Res string)
    (t d : string) :
  failure_entry json_loads model t d <> "Duplicate question detected".
Proof.
  unfold failure_entry, parse_error_entry.
  destruct (model (format_prompt t d)) as [text|e]; [|discriminate].
  destruct (parse_and_validate json_loads (Str.strip text)) as [[q|]|e];
    [discriminate | discriminate |].
  destruct (is_JSONDecodeError e); discriminate.
Qed.

Lemma reported_holds_no_duplicate_entry (k : nat) :
  ~ In "Duplicate question detected" (reported k).
Proof.
  induction k as [|k IH]; [intros []|].
  cbn. intros H. apply in_app_or in H.
  destruct H as [H|H]; [now apply IH|].
  destruct (unstored k && _); [|exact H].
  destruct H as [H|[H|[]]].
  - exact (failure_entry_is_no_duplicate_entry _ _ _ H).
  - discriminate.
Qed.

Lemma generate_caller_list (model : string -> Res string)
    (st : WorkflowState) :
  let l := caller_list
             (errors (generate_single_question json_loads model st)) in
  l = caller_list (errors st)
  \/ l = (caller_list (errors st)
          ++ [failure_entry json_loads model (technology st)
                (difficulty st)])%list.
Proof.
  cbn zeta.
  destruct (generate_cases json_loads model st) as [[q Hq]|Hno].
  - rewrite (generate_success _ _ _ _ Hq). left. reflexivity.
  - rewrite (generate_failure _ _ _ Hno).
    cbn [errors with_current log_error with_errors]. unfold append.
    destruct (rebound (errors st)); [left | right]; reflexivity.
Qed.

(** X8. The error list [generate_test] returns never holds the entry
    "Duplicate question detected": a duplicate is found only behind a
    stored candidate, and by then the entry goes to a list the caller
    does not read. *)
Theorem duplicates_are_never_reported (limit : nat) :
  ~ In "Duplicate question detected"
       (result_errors (generate_test json_loads llm limit tech diff n)).
Proof.
  pose proof (run_outcome limit 0 _ (inv_initial _ _ _ _ _)
                (history_initial _ _ _ _ _)) as H.
  unfold generate_test, ainvoke.
  destruct (run json_loads llm limit (mkConfig generate 0 (initial_state tech diff n)))
    as [k s|e k s]; cbn [result_errors].
  - destruct H as [_ [_ [_ [[_ Hr _] _]]]]. rewrite Hr.
    apply reported_holds_no_duplicate_entry.
  - destruct H as [_ [s0 [HI [[_ Hr _] H]]]]. cbn [Nat.add] in *.
    intros Hin. apply in_app_or in Hin.
    destruct Hin as [Hin|[Hin|[]]]; [|discriminate].
    destruct (Nat.even limit); destruct H as [_ ->].
    + rewrite Hr in Hin.
      exact (reported_holds_no_duplicate_entry _ Hin).
    + destruct (generate_caller_list (llm (Nat.div2 limit)) s0) as [E|E];
        rewrite E, Hr in Hin.
      * exact (reported_holds_no_duplicate_entry _ Hin).
      * apply in_app_or in Hin. destruct Hin as [Hin|[Hin|[]]].
        -- exact (reported_holds_no_duplicate_entry _ Hin).
        -- exact (failure_entry_is_no_duplicate_entry _ _ _ Hin).
Qed.

End Outcome.


Section Prompt.

Variable json_loads : string -> Res JSON.

Lemma generate_reads_one_prompt (model model' : string -> Res string)
    (st : WorkflowState) :
  model (format_prompt (technology st) (difficulty st))
  = model' (format_prompt (technology st) (difficulty st)) ->
  generate_single_question json_loads model st
  = generate_single_question json_loads model' st.
Proof.
  intros H. unfold generate_single_question. rewrite H. reflexivity.
Qed.

Lemma generate_keeps_the_request (model : string -> Res string)
    (st : WorkflowState) :
  technology (generate_single_question json_loads model st) = technology st
  /\ difficulty (generate_single_question json_loads model st)
     = difficulty st.
Proof.
  unfold generate_single_question.
  destruct (model _) as [text|e]; [|split; reflexivity].
  destruct (parse_and_validate json_loads (Str.strip text)) as [[q|]|e];
    [split; reflexivity | split; reflexivity |].
  destruct (is_JSONDecodeError e); split; reflexivity.
Qed.

Lemma validate_keeps_the_request (st st' : WorkflowState) :
  validate_and_add_question st = Ret st' ->
  technology st' = technology st /\ difficulty st' = difficulty st.
Proof.
  unfold validate_and_add_question.
  destruct (current_question st) as [cq|].
  - destruct (is_duplicate cq (questions st)) as [[|]|e]; cbn [bind];
      intros H; [| |discriminate]; injection H as <-; split; reflexivity.
  - intros H. injection H as <-. split; reflexivity.
Qed.

Lemma run_reads_one_prompt (llm llm' : nat -> string -> Res string)
    (tech diff : string) :
  (forall k, llm k (format_prompt tech diff)
             = llm' k (format_prompt tech diff)) ->
  forall (limit : nat) (c : Config),
  technology (state c) = tech -> difficulty (state c) = diff ->
  run json_loads llm limit c = run json_loads llm' limit c.
Proof.
  intros Hsame. induction limit as [|limit IH]; intros c Ht Hd;
    [reflexivity|].
  cbn [run]. unfold step. destruct (node c).
  - rewrite (generate_reads_one_prompt (llm (calls c)) (llm' (calls c)))
      by (rewrite Ht, Hd; apply Hsame).
    destruct (generate_keeps_the_request (llm' (calls c)) (state c))
      as [Ht' Hd'].
    apply IH; cbn [state]; congruence.
  - destruct (validate_and_add_question (state c)) as [st'|e] eqn:Hv;
      [|reflexivity].
    destruct (validate_keeps_the_request _ _ Hv) as [Ht' Hd'].
    destruct (should_continue st'); [reflexivity|].
    apply IH; cbn [state]; congruence.
Qed.

(** X7. A run reads the model through one prompt only, the template
    filled with the technology and the difficulty of the request: two
    models that answer this prompt alike, call by call, give the same
    result. The accepted questions are never fed back to the model. *)
Theorem every_call_is_sent_the_same_prompt
    (llm llm' : nat -> string -> Res string) (tech diff : string) (n : Z)
    (limit : nat) :
  (forall k, llm k (format_prompt tech diff)
             = llm' k (format_prompt tech diff)) ->
  generate_test json_loads llm limit tech diff n
  = generate_test json_loads llm' limit tech diff n.
Proof.
  intros Hsame. unfold generate_test, ainvoke.
  rewrite (run_reads_one_prompt llm llm' tech diff Hsame) by reflexivity.
  reflexivity.
Qed.

End Prompt.

Lemma distinct_candidates_end_the_run_within_3n_calls_witness :
  exists k s,
    run Json.loads (replay [mcq "Q1?"; "garbage"; mcq "Q2?"]) 12
      (initial_config "Python" "Easy" 2) = Finished k s
    /\ (k <= 3 * Z.to_nat 2)%nat
    /\ ((Z.of_nat (length (questions s)) = 2%Z /\ contents (errors s) = [])
        \/ ((Z.of_nat (length (questions s)) < 2)%Z
            /\ length (contents (errors s)) = 6%nat)).
Proof.
  apply (distinct_candidates_end_the_run_within_3n_calls
           Json.loads (replay [mcq "Q1?"; "garbage"; mcq "Q2?"])
           "Python" "Easy" 2 12).
  - lia.
  - intros i j qi qj Hij Hi Hj.
    assert (Hlate : forall m q,
               candidate_of Json.loads
                 (replay [mcq "Q1?"; "garbage"; mcq "Q2?"] (S (S (S m))))
                 "Python" "Easy" <> Ret (Some q)).
    { intros m q H. apply (f_equal is_candidate) in H.
      unfold replay in H. cbn [nth] in H.
      destruct m; vm_compute in H; discriminate H. }
    destruct j as [|[|[|j]]]; [lia | | | destruct (Hlate _ _ Hj)].
    + apply (f_equal is_candidate) in Hj. vm_compute in Hj.
      discriminate Hj.
    + destruct i as [|[|i]]; [| | exfalso; clear - Hij; lia].
      2: { apply (f_equal is_candidate) in Hi. vm_compute in Hi.
           discriminate Hi. }
      vm_compute in Hi, Hj. injection Hi as <-. injection Hj as <-.
      vm_compute. discriminate.
  - vm_compute. lia.
Defined.

Lemma repeated_text_keeps_the_run_going_witness :
  exists s q,
    run Json.loads (always (mcq "Q1?")) 25 (initial_config "Python" "Easy" 2)
    = Failed GraphRecursionError (Nat.div2 26) s
    /\ candidate_of Json.loads (always (mcq "Q1?") 0%nat) "Python" "Easy"
       = Ret (Some q)
    /\ questions s = [q].
Proof.
  apply (repeated_text_keeps_the_run_going
           Json.loads (always (mcq "Q1?")) "Python" "Easy" 2 "q1?" 25).
  - lia.
  - intros k. exists (mcq_question "Q1?"). vm_compute. reflexivity.
  - intros k q H. vm_compute in H. injection H as <-. reflexivity.
  - lia.
Defined.

Lemma nonpositive_target_still_runs_one_cycle_witness :
  exists s,
    run Json.loads (always (mcq "Q1?")) 25 (initial_config "Python" "Easy" 0)
    = Finished 1 s
    /\ questions s
       = match candidate_of Json.loads (always (mcq "Q1?") 0%nat)
                 "Python" "Easy" with
         | Ret (Some q) => [q]
         | _ => []
         end.
Proof.
  apply (nonpositive_target_still_runs_one_cycle
           Json.loads (always (mcq "Q1?")) "Python" "Easy" 0 25); lia.
Defined.

Lemma reached_target_leaves_no_errors_witness :
  let s := final_state
             (run Json.loads
                (replay ["garbage"; mcq "Q1?"; mcq "q1?"; mcq "Q2?"]) 25
                (initial_config "Python" "Easy" 2)) in
  Z.of_nat (length (questions s)) = 2%Z
  /\ contents (errors s) = []
  /\ current_question s = None.
Proof.
  apply (reached_target_leaves_no_errors
           Json.loads (replay ["garbage"; mcq "Q1?"; mcq "q1?"; mcq "Q2?"])
           "Python" "Easy" 2 25 4).
  - lia.
  - vm_compute. reflexivity.
  - vm_compute. discriminate.
Defined.

Lemma reported_errors_end_at_the_first_stored_candidate_witness :
  result_errors
    (generate_test Json.loads
       (replay ["garbage"; mcq "Q1?"; mcq "q1?"; "garbage"; mcq "Q2?"]) 25
       "Python" "Easy" 2)
  = reported Json.loads
      (replay ["garbage"; mcq "Q1?"; mcq "q1?"; "garbage"; mcq "Q2?"])
      "Python" "Easy" 5.
Proof.
  apply (reported_errors_end_at_the_first_stored_candidate
           Json.loads
           (replay ["garbage"; mcq "Q1?"; mcq "q1?"; "garbage"; mcq "Q2?"])
           "Python" "Easy" 2 25 5
           (final_state
              (run Json.loads
                 (replay ["garbage"; mcq "Q1?"; mcq "q1?"; "garbage";
                          mcq "Q2?"]) 25
                 (initial_config "Python" "Easy" 2)))).
  vm_compute. reflexivity.
Defined.

Lemma every_call_is_sent_the_same_prompt_witness :
  generate_test Json.loads (always (mcq "Q1?")) 25 "Python" "Easy" 2
  = generate_test Json.loads (python_only (mcq "Q1?")) 25 "Python" "Easy" 2.
Proof.
  apply (every_call_is_sent_the_same_prompt
           Json.loads (always (mcq "Q1?")) (python_only (mcq "Q1?"))
           "Python" "Easy" 2 25).
  intros k. unfold always, python_only. rewrite String.eqb_refl. reflexivity.
Defined.

Lemma chars_app (a b : string) : chars (a ++ b) = (chars a ++ chars b)%list.
Proof.
  induction a as [|c a IH]; [reflexivity|]. cbn. unfold chars in IH.
  now rewrite IH.
Qed.

Lemma chars_rev (s : string) : chars (Str.rev s) = List.rev (chars s).
Proof. unfold chars, Str.rev. apply list_ascii_of_string_of_list_ascii. Qed.

Lemma chars_inj (s t : string) : chars s = chars t -> s = t.
Proof.
  intros H. rewrite <- (string_of_list_ascii_of_string s),
    <- (string_of_list_ascii_of_string t). unfold chars in H. now rewrite H.
Qed.

Lemma piece_refl (s : string) : piece s s.
Proof. exists [], []. now rewrite app_nil_r. Qed.

Lemma piece_trans (s t u : string) : piece s t -> piece t u -> piece s u.
Proof.
  intros [a [b H1]] [a' [b' H2]]. exists (a' ++ a)%list, (b ++ b')%list.
  rewrite H2, H1. now rewrite <- !app_assoc.
Qed.

Lemma piece_tail (c : ascii) (s t : string) :
  piece s t -> piece s (String c t).
Proof. intros [a [b H]]. exists (c :: a), b. cbn. unfold chars in H. now rewrite H. Qed.

Lemma lstrip_by_piece (p : ascii -> bool) (s : string) :
  piece (Str.lstrip_by p s) s.
Proof.
  induction s as [|c s IH]; [apply piece_refl|]. cbn.
  destruct (p c); [now apply piece_tail | apply piece_refl].
Qed.

Lemma rev_piece (s t : string) : piece s t -> piece (Str.rev s) (Str.rev t).
Proof.
  intros [a [b H]]. exists (List.rev b), (List.rev a).
  rewrite !chars_rev, H, !rev_app_distr. now rewrite <- app_assoc.
Qed.

Lemma rev_rev (s : string) : Str.rev (Str.rev s) = s.
Proof. apply chars_inj. now rewrite !chars_rev, rev_involutive. Qed.

Lemma rstrip_by_piece (p : ascii -> bool) (s : string) :
  piece (Str.rstrip_by p s) s.
Proof.
  unfold Str.rstrip_by. rewrite <- (rev_rev s) at 2.
  apply rev_piece, lstrip_by_piece.
Qed.

Lemma strip_by_piece (p : ascii -> bool) (s : string) :
  piece (Str.strip_by p s) s.
Proof.
  unfold Str.strip_by.
  eapply piece_trans; [apply rstrip_by_piece | apply lstrip_by_piece].
Qed.

Lemma drop_piece (n : nat) (s : string) : piece (Str.drop n s) s.
Proof.
  revert s. induction n as [|n IH]; intros [|c s]; cbn;
    try apply piece_refl.
  apply piece_tail, IH.
Qed.

Lemma rest_of_line_piece (s : string) : piece (Re.rest_of_line s) s.
Proof.
  assert (H : exists r, chars s = (chars (Re.rest_of_line s) ++ r)%list).
  { induction s as [|c s [r IH]]; [exists []; reflexivity|].
    unfold chars in *. cbn [Re.rest_of_line].
    destruct (Ascii.eqb c (ascii_of_nat 10)).
    - exists (c :: list_ascii_of_string s). reflexivity.
    - exists r. cbn. now rewrite IH at 1. }
  destruct H as [r H]. exists [], r. exact H.
Qed.

Lemma match_field_at_piece (field s g : string) :
  Re.match_field_at field s = Some g -> piece g s.
Proof.
  unfold Re.match_field_at.
  destruct (String.prefix _ s); [|discriminate].
  destruct (Str.lstrip_by Str.isspace (Str.drop _ s)) as [|c r] eqn:E;
    [discriminate|].
  destruct (Ascii.eqb c ":"%char); [|discriminate].
  intros H. injection H as <-.
  eapply piece_trans; [apply rest_of_line_piece|].
  eapply piece_trans; [apply lstrip_by_piece|].
  eapply piece_trans; [apply (piece_tail c), piece_refl|].
  rewrite <- E.
  eapply piece_trans; [apply lstrip_by_piece | apply drop_piece].
Qed.

Lemma search_field_piece (field s g : string) :
  Re.search_field field s = Some g -> piece g s.
Proof.
  induction s as [|c s IH]; cbn [Re.search_field].
  - destruct (Re.match_field_at field "") eqn:E; [|discriminate].
    intros H. injection H as <-. now apply match_field_at_piece in E.
  - destruct (Re.match_field_at field (String c s)) eqn:E.
    + intros H. injection H as <-. now apply match_field_at_piece in E.
    + intros H. apply piece_tail. now apply IH.
Qed.

Lemma has_braces_piece (s t : string) :
  piece s t -> has_braces s -> has_braces t.
Proof.
  intros [p [q H]] [a [b [c Hs]]]. exists (p ++ a)%list, b, (c ++ q)%list.
  rewrite H, Hs. rewrite <- !app_assoc. cbn. rewrite <- !app_assoc.
  reflexivity.
Qed.

Lemma from_first_In (c : ascii) (s : string) :
  Re.from_first c s <> None <-> In c (chars s).
Proof.
  induction s as [|x s IH]; cbn.
  - split; [congruence | intros []].
  - destruct (Ascii.eqb x c) eqn:E.
    + apply Ascii.eqb_eq in E. split; [now left | discriminate].
    + apply Ascii.eqb_neq in E. rewrite IH. unfold chars. tauto.
Qed.

Lemma from_first_tail (c : ascii) (s tail : string) :
  Re.from_first c s = Some tail ->
  (exists r, tail = String c r) /\ piece tail s.
Proof.
  induction s as [|x s IH]; cbn; [discriminate|].
  destruct (Ascii.eqb x c) eqn:E.
  - apply Ascii.eqb_eq in E. intros H. injection H as <-. subst x.
    split; [eauto | apply piece_refl].
  - intros H. destruct (IH H) as [Hr Hp]. split; [exact Hr|].
    now apply piece_tail.
Qed.

Lemma upto_last_In (c : ascii) (s : string) :
  Re.upto_last c s <> None <-> In c (chars s).
Proof.
  unfold Re.upto_last.
  rewrite (in_rev (chars s)), <- chars_rev, <- from_first_In.
  destruct (Re.from_first c (Str.rev s)); split; congruence.
Qed.

(** [search_braces] finds a match exactly in the texts that have an
    opening brace and a closing brace behind it. *)
Lemma search_braces_has_braces (s : string) :
  Re.search_braces s <> None <-> has_braces s.
Proof.
  split.
  - unfold Re.search_braces.
    destruct (Re.from_first "{"%char s) as [tail|] eqn:E; [|congruence].
    intros H. apply upto_last_In in H.
    destruct (from_first_tail _ _ _ E) as [[r ->] Hp].
    apply (has_braces_piece _ _ Hp).
    destruct H as [H|H]; [discriminate|].
    apply in_split in H. destruct H as [b [c H]].
    exists [], b, c. cbn. unfold chars in H. now rewrite H.
  - intros [a [b [c H]]]. revert a H.
    induction s as [|x s IH]; intros a H.
    + destruct a; discriminate.
    + unfold Re.search_braces. cbn [Re.from_first].
      destruct (Ascii.eqb x "{"%char) eqn:E.
      * apply upto_last_In. rewrite H. apply in_or_app. right. right.
        apply in_or_app. right. now left.
      * destruct a as [|y a]; cbn in H.
        -- injection H as -> _. discriminate.
        -- injection H as _ H. exact (IH a H).
Qed.

Lemma get_cons (k k' : string) (v : JSON) (d : list (string * JSON)) :
  Dict.get k ((k', v) :: d)
  = if String.eqb k k' then Some v else Dict.get k d.
Proof. reflexivity. Qed.

Lemma get_set_same (k : string) (v : JSON) (d : list (string * JSON)) :
  Dict.get k (Dict.set k v d) = Some v.
Proof.
  induction d as [|[k' v'] d IH]; cbn [Dict.set].
  - now rewrite get_cons, String.eqb_refl.
  - destruct (String.eqb k k') eqn:E; rewrite get_cons.
    + now rewrite String.eqb_refl.
    + now rewrite E.
Qed.

Lemma get_set_other (k k' : string) (v : JSON) (d : list (string * JSON)) :
  k <> k' -> Dict.get k' (Dict.set k v d) = Dict.get k' d.
Proof.
  intros Hk. apply String.eqb_neq in Hk. rewrite String.eqb_sym in Hk.
  induction d as [|[k0 v0] d IH]; cbn [Dict.set].
  - now rewrite get_cons, Hk.
  - destruct (String.eqb k k0) eqn:E; rewrite !get_cons.
    + apply String.eqb_eq in E. subst k0. now rewrite Hk.
    + now rewrite IH.
Qed.

Section LineByLine.

Variable json_loads : string -> Res JSON.

Lemma extract_field_other (text field : string)
    (result : list (string * JSON)) :
  field <> "options" ->
  Dict.get "options" (extract_field json_loads text result field)
  = Dict.get "options" result.
Proof.
  intros Hf. unfold extract_field.
  destruct (Re.search_field field text) as [g|]; [|reflexivity].
  apply String.eqb_neq in Hf. rewrite Hf.
  apply get_set_other. now apply String.eqb_neq.
Qed.

(** What the line-by-line tier puts under the key [options]. *)
Lemma options_of_line_by_line (text : string) :
  Dict.get "options" (line_by_line json_loads text)
  = match Re.search_field "options" text with
    | Some g =>
        Some match json_loads (Str.rstrip_commas (Str.strip g)) with
             | Ret v => v
             | Raise _ => placeholder_options
             end
    | None => None
    end.
Proof.
  unfold line_by_line, fields. cbn [fold_left].
  rewrite !extract_field_other by discriminate.
  unfold extract_field at 1.
  destruct (Re.search_field "options" text) as [g|].
  - cbn [String.eqb Ascii.eqb Bool.eqb].
    destruct (json_loads _); apply get_set_same.
  - apply extract_field_other. discriminate.
Qed.

(** X12. The line-by-line tier recovers no options. When the text
    without its code-block markers has no opening brace with a closing
    brace behind it and the wrapping tier does not apply, every value
    [extract_json] returns that the validator passes carries the
    placeholder options, four empty texts, whatever the completion said
    under [options]. Of the decoder this takes that it returns an object
    only for a text that has such a pair of braces. *)
Theorem line_by_line_candidates_carry_no_options (text : string)
    (data : JSON) :
  (forall s d, json_loads s = Ret (JDict d) -> has_braces s) ->
  Re.search_braces (strip_fences text) = None ->
  wrap_applies (strip_fences text) = false ->
  extract_json json_loads text = Ret data ->
  _validate_question_data data = Ret true ->
  getitem data "options" = Ret placeholder_options.
Proof.
  intros Hdec Hnone Hwrap Hex Hval.
  assert (Hno : ~ has_braces (strip_fences text))
    by (rewrite <- search_braces_has_braces; congruence).
  apply validate_sound in Hval.
  destruct Hval as [d [-> [_ [_ [[o [Ho _]] _]]]]].
  unfold extract_json in Hex. rewrite Hnone, Hwrap in Hex.
  destruct (Dict.keys_are fields (line_by_line json_loads (strip_fences text))).
  - injection Hex as <-. cbn [getitem]. rewrite Ho.
    rewrite options_of_line_by_line in Ho.
    destruct (Re.search_field "options" (strip_fences text)) as [g|] eqn:Eg;
      [|discriminate].
    destruct (json_loads (Str.rstrip_commas (Str.strip g))) as [v|e] eqn:Ev.
    + exfalso. injection Ho as ->. apply Hdec in Ev. apply Hno.
      eapply has_braces_piece; [|exact Ev].
      eapply piece_trans; [apply rstrip_by_piece|].
      eapply piece_trans; [apply strip_by_piece|].
      eapply search_field_piece. exact Eg.
    + injection Ho as <-. reflexivity.
  - exfalso. destruct (json_loads (strip_fences text)) as [v|e] eqn:Ev;
      [|discriminate].
    injection Hex as ->. apply Hno. eapply Hdec. exact Ev.
Qed.

End LineByLine.

Lemma piece_In (c : ascii) (s t : string) :
  piece s t -> In c (chars s) -> In c (chars t).
Proof.
  intros [a [b H]] Hc. rewrite H. apply in_or_app. right.
  apply in_or_app. now left.
Qed.

Lemma skip_ws_piece (s : string) : piece (Json.skip_ws s) s.
Proof. apply lstrip_by_piece. Qed.

Lemma cons_char_Ret (c : ascii) (r : Res (string * string))
    (k : string * string) :
  Json.cons_char c r = Ret k -> exists k', r = Ret k' /\ snd k = snd k'.
Proof.
  unfold Json.cons_char. destruct r as [k'|e]; cbn; [|discriminate].
  intros H. injection H as <-. eauto.
Qed.

Lemma scanstring_piece_n (n : nat) :
  forall (s : string) (k : string * string),
  (String.length s <= n)%nat ->
  Json.scanstring s = Ret k -> piece (snd k) s.
Proof.
  induction n as [|n IH]; intros s k Hn H.
  - destruct s; [discriminate | cbn in Hn; lia].
  - destruct s as [|c s']; [discriminate|]. cbn [Json.scanstring] in H.
    cbn [String.length] in Hn.
    destruct (nat_of_ascii c =? 34)%nat.
    { injection H as <-. cbn. apply piece_tail, piece_refl. }
    destruct (nat_of_ascii c =? 92)%nat.
    { destruct s' as [|e s'']; [discriminate|]. cbn [String.length] in Hn.
      destruct (Json.escape e).
      { apply cons_char_Ret in H. destruct H as [k' [H ->]].
        do 2 apply piece_tail. apply IH; [lia | exact H]. }
      destruct (nat_of_ascii e =? 117)%nat; [|discriminate].
      destruct s'' as [|h1 [|h2 [|h3 [|h4 r]]]]; try discriminate.
      cbn [String.length] in Hn.
      destruct (Json.hex_val h1); [|discriminate].
      destruct (Json.hex_val h2); [|discriminate].
      destruct (Json.hex_val h3); [|discriminate].
      destruct (Json.hex_val h4); [|discriminate].
      destruct ((_ =? 0) && (_ =? 0))%nat; [|discriminate].
      apply cons_char_Ret in H. destruct H as [k' [H ->]].
      do 6 apply piece_tail. apply IH; [lia | exact H]. }
    destruct (nat_of_ascii c <? 32)%nat; [discriminate|].
    apply cons_char_Ret in H. destruct H as [k' [H ->]].
    apply piece_tail. apply IH; [lia | exact H].
Qed.

Lemma scanstring_piece (s : string) (k : string * string) :
  Json.scanstring s = Ret k -> piece (snd k) s.
Proof. apply (scanstring_piece_n (String.length s)). lia. Qed.

Lemma digits_piece (acc : Z) (s : string) :
  piece (snd (Json.digits acc s)) s.
Proof.
  revert acc. induction s as [|c s IH]; intros acc; cbn;
    [apply piece_refl|].
  destruct (Json.is_digit c); [apply piece_tail, IH | apply piece_refl].
Qed.

Lemma natural_piece (s : string) (p : Z * string) :
  Json.natural s = Ret p -> piece (snd p) s.
Proof.
  unfold Json.natural. destruct s as [|c s']; [discriminate|].
  destruct (Ascii.eqb c "0"%char).
  - intros H. injection H as <-. apply piece_tail, piece_refl.
  - destruct (Json.is_digit c); [|discriminate].
    intros H. injection H as <-. exact (digits_piece 0 (String c s')).
Qed.

Lemma number_piece (s : string) (v : JSON) (rest : string) :
  Json.number s = Ret (v, rest) ->
  piece rest s /\ forall d, v <> JDict d.
Proof.
  unfold Json.number. intros H. apply bind_Ret in H.
  destruct H as [p [Hp H]].
  destruct (Json.starts_fraction (snd p) || Json.starts_exponent (snd p));
    [discriminate|].
  injection H as <- <-. split; [|discriminate].
  destruct s as [|c s']; [discriminate|].
  destruct (Ascii.eqb c "-"%char).
  - apply bind_Ret in Hp. destruct Hp as [q [Hq Hp]].
    injection Hp as <-. cbn. apply piece_tail. now apply natural_piece.
  - now apply natural_piece.
Qed.

Lemma literal_piece (word : string) (v0 : JSON) (s : string) (v : JSON)
    (rest : string) :
  Json.literal word v0 s = Some (v, rest) -> piece rest s /\ v = v0.
Proof.
  unfold Json.literal. destruct (String.prefix word s); [|discriminate].
  intros H. injection H as <- <-. split; [apply drop_piece | reflexivity].
Qed.

Lemma constant_piece (s : string) (v : JSON) (rest : string) :
  Json.constant s = Ret (v, rest) ->
  piece rest s /\ forall d, v <> JDict d.
Proof.
  unfold Json.constant.
  destruct (Json.literal "null" JNull s) as [[v1 r1]|] eqn:E1.
  { intros H. injection H as <- <-. apply literal_piece in E1.
    destruct E1 as [Hp ->]. split; [exact Hp | discriminate]. }
  destruct (Json.literal "true" (JBool true) s) as [[v2 r2]|] eqn:E2.
  { intros H. injection H as <- <-. apply literal_piece in E2.
    destruct E2 as [Hp ->]. split; [exact Hp | discriminate]. }
  destruct (Json.literal "false" (JBool false) s) as [[v3 r3]|] eqn:E3.
  { intros H. injection H as <- <-. apply literal_piece in E3.
    destruct E3 as [Hp ->]. split; [exact Hp | discriminate]. }
  destruct (_ || _ || _); [discriminate|]. apply number_piece.
Qed.

(** What the decoder has not read is the end of what it was given. *)
Lemma value_piece (fuel : nat) :
  (forall s v rest, Json.value fuel s = Ret (v, rest) -> piece rest s)
  /\ (forall acc s v rest,
         Json.members fuel acc s = Ret (v, rest) -> piece rest s)
  /\ (forall acc s v rest,
         Json.elements fuel acc s = Ret (v, rest) -> piece rest s).
Proof.
  induction fuel as [|fuel [IHv [IHm IHe]]];
    [split; [|split]; intros; discriminate|].
  split; [|split].
  - intros s v rest H. cbn [Json.value] in H.
    destruct s as [|c r]; [discriminate|].
    destruct (nat_of_ascii c =? 34)%nat.
    { apply bind_Ret in H. destruct H as [p [Hp H]]. injection H as _ <-.
      apply piece_tail. now apply scanstring_piece. }
    destruct (Ascii.eqb c "{"%char).
    { destruct (Json.skip_ws r) as [|c' r'] eqn:E; [discriminate|].
      destruct (Ascii.eqb c' "}"%char).
      - injection H as _ <-. apply piece_tail.
        eapply piece_trans; [apply (piece_tail c'), piece_refl|].
        rewrite <- E. apply skip_ws_piece.
      - apply IHm in H. apply piece_tail.
        eapply piece_trans; [exact H | rewrite <- E; apply skip_ws_piece]. }
    destruct (Ascii.eqb c "["%char).
    { destruct (Json.skip_ws r) as [|c' r'] eqn:E; [discriminate|].
      destruct (Ascii.eqb c' "]"%char).
      - injection H as _ <-. apply piece_tail.
        eapply piece_trans; [apply (piece_tail c'), piece_refl|].
        rewrite <- E. apply skip_ws_piece.
      - apply IHe in H. apply piece_tail.
        eapply piece_trans; [exact H | rewrite <- E; apply skip_ws_piece]. }
    apply constant_piece in H. apply H.
  - intros acc s v rest H. cbn [Json.members] in H.
    destruct s as [|q r]; [discriminate|].
    destruct (nat_of_ascii q =? 34)%nat; [|discriminate].
    apply bind_Ret in H. destruct H as [k [Hk H]].
    apply scanstring_piece in Hk.
    destruct (Json.skip_ws (snd k)) as [|c r1] eqn:E1; [discriminate|].
    destruct (Ascii.eqb c ":"%char); [|discriminate].
    apply bind_Ret in H. destruct H as [[v1 rest1] [Hv H]].
    apply IHv in Hv. cbn [fst snd] in H.
    assert (Hp : piece rest1 (String q r)).
    { apply piece_tail. eapply piece_trans; [|exact Hk].
      eapply piece_trans; [|apply (skip_ws_piece (snd k))]. rewrite E1.
      apply piece_tail. eapply piece_trans; [exact Hv | apply skip_ws_piece]. }
    destruct (Json.skip_ws rest1) as [|c' r2] eqn:E2; [discriminate|].
    assert (Hp2 : piece r2 (String q r)).
    { eapply piece_trans; [|exact Hp].
      eapply piece_trans; [|apply (skip_ws_piece rest1)]. rewrite E2.
      apply piece_tail, piece_refl. }
    destruct (Ascii.eqb c' "}"%char).
    { injection H as _ <-. exact Hp2. }
    destruct (Ascii.eqb c' ","%char); [|discriminate].
    apply IHm in H.
    eapply piece_trans; [exact H|].
    eapply piece_trans; [apply skip_ws_piece | exact Hp2].
  - intros acc s v rest H. cbn [Json.elements] in H.
    apply bind_Ret in H. destruct H as [[v1 rest1] [Hv H]].
    apply IHv in Hv. cbn [fst snd] in H.
    destruct (Json.skip_ws rest1) as [|c r] eqn:E; [discriminate|].
    assert (Hp : piece r s).
    { eapply piece_trans; [|exact Hv].
      eapply piece_trans; [|apply (skip_ws_piece rest1)]. rewrite E.
      apply piece_tail, piece_refl. }
    destruct (Ascii.eqb c "]"%char).
    { injection H as _ <-. exact Hp. }
    destruct (Ascii.eqb c ","%char); [|discriminate].
    apply IHe in H.
    eapply piece_trans; [exact H|].
    eapply piece_trans; [apply skip_ws_piece | exact Hp].
Qed.

Lemma elements_list (fuel : nat) :
  forall acc s v rest,
  Json.elements fuel acc s = Ret (v, rest) -> forall d, v <> JDict d.
Proof.
  induction fuel as [|fuel IH]; intros acc s v rest H; [discriminate|].
  cbn [Json.elements] in H.
  apply bind_Ret in H. destruct H as [[v1 rest1] [Hv H]]. cbn [fst snd] in H.
  destruct (Json.skip_ws rest1) as [|c r]; [discriminate|].
  destruct (Ascii.eqb c "]"%char).
  { injection H as <- _. discriminate. }
  destruct (Ascii.eqb c ","%char); [|discriminate].
  eapply IH. exact H.
Qed.

(** An object is closed by a brace. *)
Lemma members_closed (fuel : nat) :
  forall acc s v rest,
  Json.members fuel acc s = Ret (v, rest) -> In "}"%char (chars s).
Proof.
  induction fuel as [|fuel IH]; intros acc s v rest H; [discriminate|].
  cbn [Json.members] in H.
  destruct s as [|q r]; [discriminate|].
  destruct (nat_of_ascii q =? 34)%nat; [|discriminate].
  apply bind_Ret in H. destruct H as [k [Hk H]].
  apply scanstring_piece in Hk.
  destruct (Json.skip_ws (snd k)) as [|c r1] eqn:E1; [discriminate|].
  destruct (Ascii.eqb c ":"%char); [|discriminate].
  apply bind_Ret in H. destruct H as [[v1 rest1] [Hv H]].
  apply (proj1 (value_piece fuel)) in Hv. cbn [fst snd] in H.
  assert (Hp : piece (Json.skip_ws rest1) (String q r)).
  { apply piece_tail. eapply piece_trans; [|exact Hk].
    eapply piece_trans; [|apply (skip_ws_piece (snd k))]. rewrite E1.
    apply piece_tail. eapply piece_trans; [|apply skip_ws_piece].
    eapply piece_trans; [apply skip_ws_piece | exact Hv]. }
  apply (piece_In _ _ _ Hp).
  destruct (Json.skip_ws rest1) as [|c' r2] eqn:E2; [discriminate|].
  destruct (Ascii.eqb c' "}"%char) eqn:Ec.
  { apply Ascii.eqb_eq in Ec. subst c'. now left. }
  destruct (Ascii.eqb c' ","%char); [|discriminate].
  right. apply IH in H.
  exact (piece_In _ _ _ (skip_ws_piece r2) H).
Qed.

Lemma value_object (fuel : nat) (s : string) (d : list (string * JSON))
    (rest : string) :
  Json.value fuel s = Ret (JDict d, rest) ->
  exists r, s = String "{"%char r /\ In "}"%char (chars r).
Proof.
  destruct fuel as [|fuel]; [discriminate|]. cbn [Json.value].
  destruct s as [|c r]; [discriminate|].
  destruct (nat_of_ascii c =? 34)%nat.
  { intros H. apply bind_Ret in H. destruct H as [p [_ H]]. discriminate. }
  destruct (Ascii.eqb c "{"%char) eqn:Ec.
  { apply Ascii.eqb_eq in Ec. subst c. intros H. exists r.
    split; [reflexivity|]. apply (piece_In _ _ _ (skip_ws_piece r)).
    destruct (Json.skip_ws r) as [|c' r'] eqn:E; [discriminate|].
    destruct (Ascii.eqb c' "}"%char) eqn:Ec'.
    - apply Ascii.eqb_eq in Ec'. subst c'. now left.
    - apply members_closed in H. exact H. }
  destruct (Ascii.eqb c "["%char).
  { destruct (Json.skip_ws r) as [|c' r'] eqn:E; [discriminate|].
    destruct (Ascii.eqb c' "]"%char); [discriminate|].
    intros H. apply elements_list with (d := d) in H. congruence. }
  intros H. apply constant_piece in H. destruct H as [_ H].
  now destruct (H d).
Qed.

(** The decoder returns an object only for a text that has an opening
    brace and a closing brace behind it. *)
Lemma loads_object (s : string) (d : list (string * JSON)) :
  Json.loads s = Ret (JDict d) -> has_braces s.
Proof.
  unfold Json.loads. intros H. apply bind_Ret in H.
  destruct H as [[v rest] [Hv H]]. cbn [fst snd] in H.
  destruct (Json.skip_ws rest); [|discriminate]. injection H as ->.
  apply value_object in Hv. destruct Hv as [r [Hs Hr]].
  apply (has_braces_piece (Json.skip_ws s) s (skip_ws_piece s)).
  rewrite Hs. apply in_split in Hr. destruct Hr as [b [c Hr]].
  exists [], b, c. cbn. unfold chars in Hr. now rewrite Hr.
Qed.

Lemma line_by_line_candidates_carry_no_options_witness :
  getitem
    (JDict [("question", JStr "What is X?"); ("options", placeholder_options);
            ("correct_answer", JStr "a");
            ("explanation", JStr "Because it is so.")])
    "options"
  = Ret placeholder_options.
Proof.
  apply (line_by_line_candidates_carry_no_options Json.loads unclosed).
  - exact loads_object.
  - vm_compute. reflexivity.
  - vm_compute. reflexivity.
  - vm_compute. reflexivity.
  - vm_compute. reflexivity.
Defined.

(** X10. The validator reads five keys of an object and nothing else:
    two objects that agree on [question], [options], [correct_answer],
    [explanation] and [difficulty] get the same verdict (or raise the
    same exception), whatever other keys they have and in whatever order
    the keys come. *)
Theorem validator_reads_five_keys (d d' : list (string * JSON)) :
  (forall k, In k ("difficulty" :: required_fields) ->
             Dict.get k d = Dict.get k d') ->
  _validate_question_data (JDict d) = _validate_question_data (JDict d').
Proof.
  intros H.
  assert (Hq : Dict.get "question" d = Dict.get "question" d')
    by (apply H; cbn; tauto).
  assert (Ho : Dict.get "options" d = Dict.get "options" d')
    by (apply H; cbn; tauto).
  assert (Ha : Dict.get "correct_answer" d = Dict.get "correct_answer" d')
    by (apply H; cbn; tauto).
  assert (He : Dict.get "explanation" d = Dict.get "explanation" d')
    by (apply H; cbn; tauto).
  assert (Hd : Dict.get "difficulty" d = Dict.get "difficulty" d')
    by (apply H; cbn; tauto).
  unfold _validate_question_data, required_fields.
  cbn [all_in py_in getitem]. unfold Dict.has.
  rewrite Hq, Ho, Ha, He, Hd. reflexivity.
Qed.

Lemma validator_reads_five_keys_witness :
  _validate_question_data
    (JDict [("question", JStr "What is X?"); ("options", JDict four_options);
            ("correct_answer", JStr "a");
            ("explanation", JStr "Because it is so.")])
  = _validate_question_data
      (JDict [("level", JInt 3); ("explanation", JStr "Because it is so.");
              ("correct_answer", JStr "a"); ("options", JDict four_options);
              ("question", JStr "What is X?"); ("source", JNull)]).
Proof.
  apply validator_reads_five_keys.
  intros k Hk. cbn in Hk.
  destruct Hk as [<-|[<-|[<-|[<-|[<-|[]]]]]]; reflexivity.
Defined.

Section Stored.

Variable json_loads : string -> Res JSON.

(** X11. What the generate step stores. When the model answers, the
    parser makes a value of the trimmed answer and the validator passes
    it, the value is an object that has the four keys, and the step
    returns the state with a question built of the values under
    [question], [options], [correct_answer] and [explanation] as its
    pending candidate and with an empty error list bound anew, and
    changes nothing else: building the question cannot fail behind a
    passed validation, and the other keys of the object are dropped.
    And a pending candidate in the state the step returns was built in
    this way, of the answer to this call. *)
Theorem stored_candidate_copies_the_decoded_fields
    (model : string -> Res string) (st : WorkflowState) :
  (forall raw data,
      model (format_prompt (technology st) (difficulty st)) = Ret raw ->
      extract_json json_loads (Str.strip raw) = Ret data ->
      _validate_question_data data = Ret true ->
      exists d vq vo va ve,
        data = JDict d
        /\ Dict.get "question" d = Some vq
        /\ Dict.get "options" d = Some vo
        /\ Dict.get "correct_answer" d = Some va
        /\ Dict.get "explanation" d = Some ve
        /\ generate_single_question json_loads model st
           = mkState (technology st) (difficulty st) (questions st)
               (mkLog (caller_list (errors st)) (Some []))
               (num_questions st)
               (Some (mkQuestion vq vo (mkAnswer va ve))))
  /\ (forall q,
         current_question (generate_single_question json_loads model st)
         = Some q ->
         exists raw d,
           model (format_prompt (technology st) (difficulty st)) = Ret raw
           /\ extract_json json_loads (Str.strip raw) = Ret (JDict d)
           /\ _validate_question_data (JDict d) = Ret true
           /\ Dict.get "question" d = Some (question q)
           /\ Dict.get "options" d = Some (options q)
           /\ Dict.get "correct_answer" d = Some (answer (answer_dict q))
           /\ Dict.get "explanation" d
              = Some (explanation (answer_dict q))
           /\ contents
                (errors (generate_single_question json_loads model st))
              = []).
Proof.
  split.
  - intros raw data Hm Hx Hv.
    destruct (validated_formats data Hv)
      as [d [vq [vo [va [ve [-> [Hq [Ho [Ha [He Hf]]]]]]]]]].
    exists d, vq, vo, va, ve.
    split; [reflexivity|]. split; [exact Hq|]. split; [exact Ho|].
    split; [exact Ha|]. split; [exact He|].
    unfold generate_single_question, parse_and_validate.
    rewrite Hm, Hx. cbn [bind]. rewrite Hv. cbn [bind]. rewrite Hf.
    reflexivity.
  - intros q. unfold generate_single_question, parse_and_validate.
    destruct (model (format_prompt (technology st) (difficulty st)))
      as [raw|e]; [|discriminate].
    destruct (extract_json json_loads (Str.strip raw)) as [data|e] eqn:Hx;
      cbn [bind].
    2: { destruct (is_JSONDecodeError e); discriminate. }
    destruct (_validate_question_data data) as [[|]|e] eqn:Hv; cbn [bind].
    + destruct (validated_formats data Hv)
        as [d [vq [vo [va [ve [-> [Hq [Ho [Ha [He Hf]]]]]]]]]].
      rewrite Hf. cbn [bind current_question with_errors with_current].
      intros H. injection H as <-. exists raw, d.
      split; [reflexivity|]. split; [exact Hx|]. split; [exact Hv|].
      cbn. tauto.
    + discriminate.
    + destruct (is_JSONDecodeError e); discriminate.
Qed.

End Stored.

Lemma app_assoc_str (a b c : string) : (a ++ b) ++ c = a ++ b ++ c.
Proof. apply chars_inj. rewrite !chars_app. now rewrite app_assoc. Qed.

Lemma rev_app (a b : string) : Str.rev (a ++ b) = Str.rev b ++ Str.rev a.
Proof.
  apply chars_inj. rewrite chars_app, !chars_rev, chars_app.
  apply rev_app_distr.
Qed.

Lemma length_chars (s : string) : String.length s = length (chars s).
Proof. induction s as [|c s IH]; cbn; [reflexivity | now rewrite IH]. Qed.

Lemma piece_length (s t : string) :
  piece s t -> (String.length s <= String.length t)%nat.
Proof.
  intros [a [b H]]. rewrite !length_chars, H, !length_app. lia.
Qed.

Lemma lstrip_app_all (p : ascii -> bool) (a s : string) :
  forallb p (chars a) = true ->
  Str.lstrip_by p (a ++ s) = Str.lstrip_by p s.
Proof.
  induction a as [|c a IH]; cbn; [reflexivity|].
  intros H. apply andb_prop in H. destruct H as [Hc Ha].
  rewrite Hc. now apply IH.
Qed.

(** Stripping on the left shortens a text or leaves it as it is. *)
Lemma lstrip_fixed (p : ascii -> bool) (s : string) :
  String.length (Str.lstrip_by p s) = String.length s ->
  Str.lstrip_by p s = s.
Proof.
  destruct s as [|c s]; cbn; [reflexivity|].
  destruct (p c); [|reflexivity].
  intros H. pose proof (piece_length _ _ (lstrip_by_piece p s)). lia.
Qed.

Lemma lstrip_head (p : ascii -> bool) (c : ascii) (s : string) :
  Str.lstrip_by p (String c s) = String c s -> p c = false.
Proof.
  cbn. destruct (p c); [|reflexivity].
  intros H. pose proof (piece_length _ _ (lstrip_by_piece p s)) as Hl.
  rewrite H in Hl. cbn in Hl. lia.
Qed.

Lemma rstrip_app_all (p : ascii -> bool) (s b : string) :
  forallb p (chars b) = true ->
  Str.rstrip_by p (s ++ b) = Str.rstrip_by p s.
Proof.
  intros H. unfold Str.rstrip_by. rewrite rev_app, lstrip_app_all;
    [reflexivity|].
  rewrite chars_rev. apply forallb_forall. intros x Hx.
  apply in_rev in Hx. rewrite forallb_forall in H. now apply H.
Qed.

(** A text that ends with a character outside [p] loses nothing on the
    right. *)
Lemma rstrip_kept (p : ascii -> bool) (t : string) (c : ascii) (r : string) :
  Str.rev t = String c r -> p c = false ->
  forall s, Str.rstrip_by p (s ++ t) = s ++ t.
Proof.
  intros Hr Hc s. unfold Str.rstrip_by. rewrite rev_app, Hr.
  change (String c r ++ Str.rev s) with (String c (r ++ Str.rev s)).
  cbn [Str.lstrip_by]. rewrite Hc.
  change (String c (r ++ Str.rev s)) with (String c r ++ Str.rev s).
  rewrite <- Hr, <- rev_app. apply rev_rev.
Qed.

(** A text that [strip] leaves as it is loses nothing on either side. *)
Lemma stripped_sides (p : ascii -> bool) (s : string) :
  Str.strip_by p s = s ->
  Str.lstrip_by p s = s /\ Str.rstrip_by p s = s.
Proof.
  intros H. unfold Str.strip_by in H.
  assert (Hl : Str.lstrip_by p s = s).
  { apply lstrip_fixed.
    pose proof (piece_length _ _ (lstrip_by_piece p s)).
    pose proof (piece_length _ _ (rstrip_by_piece p (Str.lstrip_by p s)))
      as H2.
    rewrite H in H2. lia. }
  split; [exact Hl|]. now rewrite Hl in H.
Qed.

Lemma take_app (a b : string) : Str.take (String.length a) (a ++ b) = a.
Proof. induction a as [|c a IH]; cbn; [now destruct b | now rewrite IH]. Qed.

Lemma length_app_str (a b : string) :
  String.length (a ++ b) = (String.length a + String.length b)%nat.
Proof. rewrite !length_chars, chars_app. apply length_app. Qed.

Lemma endswith_app (p s : string) : Str.endswith p (s ++ p) = true.
Proof. unfold Str.endswith. rewrite rev_app. apply prefix_app. Qed.

(** The closing marker, once the text in front of it is known. *)
Lemma sub_closing_fence_app (s : string) :
  Re.sub_closing_fence (s ++ Re.fence) = s.
Proof.
  unfold Re.sub_closing_fence. rewrite endswith_app, length_app_str.
  replace (String.length s + String.length Re.fence - 3)%nat
    with (String.length s) by (cbn; lia).
  apply take_app.
Qed.

Section Fences.

Variable json_loads : string -> Res JSON.

Lemma strip_fences_fenced (tag body : string) :
  forallb Re.is_letter (chars tag) = true ->
  Str.strip body = body ->
  strip_fences (fenced tag body) = body.
Proof.
  intros Htag Hbody. unfold Str.strip in Hbody.
  destruct (stripped_sides _ _ Hbody) as [Hl Hr].
  unfold strip_fences, fenced, Re.sub_opening_fence.
  unfold Str.startswith. rewrite prefix_app.
  change (Str.drop 3 (Re.fence ++ ?x)) with x.
  rewrite (lstrip_app_all _ tag) by exact Htag.
  change (Str.lstrip_by Re.is_letter (Str.newline ++ ?x))
    with (Str.newline ++ x).
  unfold Str.strip at 2. unfold Str.strip_by.
  change (Str.lstrip_by Str.isspace (Str.newline ++ ?x))
    with (Str.lstrip_by Str.isspace x).
  destruct body as [|c b].
  - reflexivity.
  - pose proof (lstrip_head _ _ _ Hl) as Hc.
    change (Str.lstrip_by Str.isspace
              (String c b ++ Str.newline ++ Re.fence))
      with (if Str.isspace c
            then Str.lstrip_by Str.isspace (b ++ Str.newline ++ Re.fence)
            else String c b ++ Str.newline ++ Re.fence).
    rewrite Hc. rewrite <- app_assoc_str.
    rewrite (rstrip_kept _ Re.fence "`"%char "``" eq_refl eq_refl).
    rewrite sub_closing_fence_app.
    unfold Str.strip, Str.strip_by.
    change (Str.lstrip_by Str.isspace (String c b ++ Str.newline))
      with (if Str.isspace c
            then Str.lstrip_by Str.isspace (b ++ Str.newline)
            else String c b ++ Str.newline).
    rewrite Hc. rewrite rstrip_app_all by reflexivity. exact Hr.
Qed.

Lemma strip_fences_bare (body : string) :
  Str.strip body = body ->
  Str.startswith Re.fence body = false ->
  Str.endswith Re.fence body = false ->
  strip_fences body = body.
Proof.
  intros Hbody Hs He. unfold strip_fences, Re.sub_opening_fence.
  rewrite Hs, Hbody. unfold Re.sub_closing_fence. rewrite He.
  destruct (Str.endswith (Re.fence ++ Str.newline) body) eqn:E;
    [|exact Hbody].
  exfalso. unfold Str.strip in Hbody.
  destruct (stripped_sides _ _ Hbody) as [_ Hr].
  unfold Str.endswith in E.
  change (Str.rev (Re.fence ++ Str.newline))
    with (String (ascii_of_nat 10) "```") in E.
  destruct (Str.rev body) as [|c r] eqn:Er; [discriminate|].
  cbn [String.prefix] in E.
  destruct (ascii_dec (ascii_of_nat 10) c) as [<-|]; [|discriminate].
  unfold Str.rstrip_by in Hr. rewrite Er in Hr.
  apply (f_equal Str.rev) in Hr. rewrite rev_rev, Er in Hr.
  apply lstrip_head in Hr. discriminate Hr.
Qed.

(** X13. A completion in a code block parses as the bare completion
    does: with a language tag of letters (or none) behind the opening
    marker and the body on lines of its own, [extract_json] gives for
    the block what it gives for the body, whenever the body has no white
    space around it and no marker of its own at either end. *)
Theorem fenced_completion_parses_as_the_bare_one (tag body : string) :
  forallb Re.is_letter (chars tag) = true ->
  Str.strip body = body ->
  Str.startswith Re.fence body = false ->
  Str.endswith Re.fence body = false ->
  extract_json json_loads (fenced tag body) = extract_json json_loads body.
Proof.
  intros Htag Hbody Hs He. unfold extract_json.
  rewrite (strip_fences_fenced tag body Htag Hbody).
  rewrite (strip_fences_bare body Hbody Hs He). reflexivity.
Qed.

End Fences.

Lemma fenced_completion_parses_as_the_bare_one_witness :
  extract_json Json.loads (fenced "json" (mcq "What is X?"))
  = extract_json Json.loads (mcq "What is X?").
Proof.
  apply (fenced_completion_parses_as_the_bare_one
           Json.loads "json" (mcq "What is X?"));
    vm_compute; reflexivity.
Defined.


Section ServiceProperties.

Variable json_loads : string -> Res JSON.
Variable llm : nat -> string -> Res string.
Variable limit : nat.
Variable uuid4 : nat -> string.

Lemma tests_from_fields (i drawn : nat) (qs : list Question)
    (t d : string) :
  let tests := Service.tests_from uuid4 i drawn qs t d in
  map (fun x => getitem x "question_number") tests
  = map (fun j => Ret (JInt (Z.of_nat j))) (seq i (length qs))
  /\ map (fun x => getitem x "id") tests
     = map (fun j => Ret (JStr (uuid4 j))) (seq drawn (length qs))
  /\ map (fun x => getitem x "question") tests
     = map (fun q => Ret (question q)) qs
  /\ map (fun x => getitem x "options") tests
     = map (fun q => Ret (options q)) qs
  /\ map (fun x => getitem x "answer") tests
     = map (fun q => Ret (answer_json (answer_dict q))) qs
  /\ map test_text tests = map lowered qs
  /\ Forall (fun x => getitem x "technology" = Ret (JStr t)
                      /\ getitem x "difficulty" = Ret (JStr d)) tests.
Proof.
  cbn zeta. revert i drawn.
  induction qs as [|q qs IH]; intros i drawn.
  - cbn. repeat split; constructor.
  - destruct (IH (S i) (S drawn)) as [H1 [H2 [H3 [H4 [H5 [H6 H7]]]]]].
    cbn [Service.tests_from map length seq].
    rewrite H1, H2, H3, H4, H5, H6.
    split; [reflexivity|]. split; [reflexivity|]. split; [reflexivity|].
    split; [reflexivity|]. split; [reflexivity|]. split; [reflexivity|].
    constructor; [split; reflexivity | exact H7].
Qed.

(** X14. [TestGenerationService.generate_test] returns one test per
    question the workflow accepted, in the same order: the tests are
    numbered 1, 2, ... without a gap, carry the identifiers in the order
    they were drawn, take over question, options and answer as they
    are, and are stamped with the technology and the difficulty of the
    request (Python and intermediate when the request has none), not
    with anything the model said. No two of them have the same
    lower-cased question, and for a target of one or more there are
    never more tests than the target. *)
Theorem service_numbers_the_accepted_questions (params : Service.Params) :
  let technology := Service.get (Service.param_technology params) "Python" in
  let difficulty :=
    Service.get (Service.param_difficulty params) "intermediate" in
  let num_questions :=
    Service.get (Service.param_num_questions params) 5%Z in
  let questions :=
    result_questions
      (generate_test json_loads llm limit technology difficulty
         num_questions) in
  let tests := Service.generate_test json_loads llm limit uuid4 params in
  map (fun x => getitem x "question_number") tests
  = map (fun j => Ret (JInt (Z.of_nat j))) (seq 1 (length tests))
  /\ map (fun x => getitem x "id") tests
     = map (fun j => Ret (JStr (uuid4 j))) (seq 0 (length tests))
  /\ map (fun x => getitem x "question") tests
     = map (fun q => Ret (question q)) questions
  /\ map (fun x => getitem x "options") tests
     = map (fun q => Ret (options q)) questions
  /\ map (fun x => getitem x "answer") tests
     = map (fun q => Ret (answer_json (answer_dict q))) questions
  /\ Forall (fun x => getitem x "technology" = Ret (JStr technology)
                      /\ getitem x "difficulty" = Ret (JStr difficulty))
       tests
  /\ NoDup (map test_text tests)
  /\ ((1 <= num_questions)%Z -> (Z.of_nat (length tests) <= num_questions)%Z).
Proof.
  cbn zeta. unfold Service.generate_test, generate_test_sync.
  set (t := Service.get (Service.param_technology params) "Python").
  set (d := Service.get (Service.param_difficulty params) "intermediate").
  set (n := Service.get (Service.param_num_questions params) 5%Z).
  set (qs := result_questions (generate_test json_loads llm limit t d n)).
  destruct (tests_from_fields 1 0 qs t d)
    as [H1 [H2 [H3 [H4 [H5 [H6 H7]]]]]].
  assert (Hlen : length (Service.tests_from uuid4 1 0 qs t d) = length qs).
  { apply (f_equal (@length _)) in H3. now rewrite !length_map in H3. }
  rewrite Hlen.
  split; [exact H1|]. split; [exact H2|]. split; [exact H3|].
  split; [exact H4|]. split; [exact H5|]. split; [exact H7|].
  pose proof (run_ends_well json_loads llm t d n limit _
                (inv_initial json_loads llm t d n)) as [Hs [_ [Hn _]]].
  split.
  - rewrite H6. unfold qs. rewrite result_questions_final.
    apply (sinv_nodup _ _ _ _ _ _ Hs).
  - unfold qs. rewrite result_questions_final. exact Hn.
Qed.

End ServiceProperties.

Lemma all_in_dict (fs : list string) (d : list (string * JSON)) :
  exists b, all_in fs (JDict d) = Ret b.
Proof.
  induction fs as [|f fs [b IH]]; [eexists; reflexivity|].
  cbn [all_in py_in bind]. destruct (Dict.has f d); eauto.
Qed.

Lemma all_in_raises (fs : list string) (data : JSON) (e : Exn) :
  all_in fs data = Raise e -> exists m, e = TypeError m.
Proof.
  induction fs as [|f fs IH]; [discriminate|].
  cbn [all_in]. destruct data; cbn [py_in bind];
    try (intros H; injection H as <-; eauto).
  - destruct (Str.contains f s); [exact IH | discriminate].
  - destruct (existsb _ l); [exact IH | discriminate].
  - destruct (Dict.has f kvs); [exact IH | discriminate].
Qed.

Lemma all_in_true (fs : list string) (d : list (string * JSON)) :
  all_in fs (JDict d) = Ret true ->
  forall f, In f fs -> Dict.get f d <> None.
Proof.
  induction fs as [|f0 fs IH]; [intros _ f []|].
  cbn [all_in py_in bind]. unfold Dict.has at 1.
  destruct (Dict.get f0 d) eqn:E; [|discriminate].
  intros H f [<-|Hf]; [congruence | now apply IH].
Qed.

(** X15. How the validator fails. It raises in two cases only. On an
    object it raises the [AttributeError] of [strip] when the value
    under [question] or under [explanation] is neither empty nor text
    (a number, a non-empty list or object); it never raises a
    [KeyError]. On a decoded value that is no object it raises a
    [TypeError], of the membership test or of the subscript. In every
    other case it returns its verdict. *)
Theorem validator_raises_only_on_ill_typed_values (data : JSON) (e : Exn) :
  _validate_question_data data = Raise e ->
  (exists d v,
      data = JDict d
      /\ (Dict.get "question" d = Some v \/ Dict.get "explanation" d = Some v)
      /\ truthy v = true
      /\ (forall s, v <> JStr s)
      /\ e = no_strip v)
  \/ ((forall d, data <> JDict d) /\ exists m, e = TypeError m).
Proof.
  unfold _validate_question_data. intros H.
  destruct (all_in required_fields data) as [b|e0] eqn:Ea; cbn [bind] in H.
  2: { injection H as <-. right. split; [|eapply all_in_raises; eassumption].
       intros d ->. destruct (all_in_dict required_fields d) as [b Hb].
       congruence. }
  destruct b; cbn [negb] in H; [|discriminate].
  destruct data as [| | | |s|l|d];
    try (cbn [getitem bind] in H; injection H as <-; right;
         split; [discriminate | eauto]).
  left. exists d. cbn [getitem] in H.
  pose proof (all_in_true _ _ Ea) as Hhas.
  destruct (Dict.get "question" d) as [q|] eqn:Eq; cbn [bind] in H.
  2: { exfalso. apply (Hhas "question"); [cbn; tauto | exact Eq]. }
  destruct (truthy q) eqn:Tq; cbn [negb bind] in H.
  2: discriminate.
  destruct q as [| | | |sq| |];
    try (cbn [py_strip bind] in H; injection H as <-;
         eexists; split; [reflexivity|]; split; [left; reflexivity|];
         split; [exact Tq|]; split; [discriminate | reflexivity]).
  cbn [py_strip bind] in H.
  destruct (negb (Str.endswith "?" (Str.strip sq))); [discriminate|].
  destruct (Dict.get "options" d) as [o|] eqn:Eo; cbn [bind] in H.
  2: { exfalso. apply (Hhas "options"); [cbn; tauto | exact Eo]. }
  destruct (negb (is_options_dict o)); [discriminate|].
  destruct (Dict.get "correct_answer" d) as [a|] eqn:Eca; cbn [bind] in H.
  2: { exfalso. apply (Hhas "correct_answer"); [cbn; tauto | exact Eca]. }
  destruct (negb (in_strs a option_keys)); [discriminate|].
  destruct (Dict.get "explanation" d) as [x|] eqn:Ex; cbn [bind] in H.
  2: { exfalso. apply (Hhas "explanation"); [cbn; tauto | exact Ex]. }
  destruct (truthy x) eqn:Tx; cbn [negb bind] in H.
  2: discriminate.
  destruct x as [| | | |sx| |];
    try (cbn [py_strip bind] in H; injection H as <-;
         eexists; split; [reflexivity|]; split; [right; reflexivity|];
         split; [exact Tx|]; split; [discriminate | reflexivity]).
  exfalso. cbn [py_strip bind] in H.
  destruct (String.length (Str.strip sx) <? 10)%nat; [discriminate|].
  cbn [py_in bind] in H.
  destruct (Dict.has "difficulty" d) eqn:Hd; cbn [bind] in H.
  - unfold Dict.has in Hd.
    destruct (Dict.get "difficulty" d); [|discriminate]. cbn [bind] in H.
    destruct (negb (in_strs j difficulty_levels)); discriminate.
  - discriminate.
Qed.

Lemma validator_raises_only_on_ill_typed_values_witness :
  (exists d v,
      JDict [("question", JInt 5); ("options", JDict four_options);
             ("correct_answer", JStr "a");
             ("explanation", JStr "Because it is so.")] = JDict d
      /\ (Dict.get "question" d = Some v \/ Dict.get "explanation" d = Some v)
      /\ truthy v = true
      /\ (forall s, v <> JStr s)
      /\ AttributeError "'int' object has no attribute 'strip'" = no_strip v)
  \/ ((forall d,
          JDict [("question", JInt 5); ("options", JDict four_options);
                 ("correct_answer", JStr "a");
                 ("explanation", JStr "Because it is so.")] <> JDict d)
      /\ exists m,
           AttributeError "'int' object has no attribute 'strip'"
           = TypeError m).
Proof.
  apply (validator_raises_only_on_ill_typed_values
           (JDict [("question", JInt 5); ("options", JDict four_options);
                   ("correct_answer", JStr "a");
                   ("explanation", JStr "Because it is so.")])
           (AttributeError "'int' object has no attribute 'strip'")).
  reflexivity.
Defined.
